(** * The paragraph batching and reconciliation engine of the ChatGPT translator

    A shallow embedding of [book_maker/translator/chatgptapi_translator.py]:
    the packing of paragraphs into one request ([translate_list],
    [join_lines]), the splitting of a response into candidate lines
    ([translate_and_split_lines]), the retry loop that keeps the best
    candidate ([get_best_result_list]), the transient-failure loop
    ([translate]) and the reading of one backend completion
    ([get_translation]).

    Conventions of the embedding.
    - A Python [str] is a [string]; every [ascii] stands for the code point
      of the same number, so the strings covered are those whose code points
      are below 256.  The character classes of [str.strip], [\s] and [\d]
      are the ones Python uses on that range.
    - The state is the backend with the number of calls made, the key
      rotation, the sleeps and the two log files.  It is threaded through a
      state-and-exception monad [M]; an exception keeps the state reached
      when it was raised.
    - A log file is the list of what was printed to it; opening it does not
      fail.  What is printed to the console and the wall-clock time are not
      part of the state.
    - [print] is the one of the rich library (line 6).  It reads a [str]
      among its arguments as console markup and raises on a tag that closes
      nothing; a string without an opening bracket is never read that way.
      Which strings with a bracket make it raise is up to rich: it is a
      parameter of the state, [rich_error].  An exception handed to
      [print] (line 141) is not a [str] and is not read as markup, and the
      messages made of fixed words and numbers (lines 141, 145, 180 to 183,
      233 to 236 and 286) hold no bracket: these prints cannot raise and
      are left out. *)

From Stdlib Require Import String Ascii List Arith Bool Lia ZArith.
From Stdlib Require Import Numbers.DecimalString.
From Equations Require Import Equations.
Import ListNotations.

Open Scope list_scope.
Open Scope string_scope.

(** ** Python strings *)

Module Str.

Definition LF : ascii := "010"%char.
Definition CR : ascii := "013"%char.

(** [str.isspace] on one character, for code points below 256:
    TAB..CR, FS..US, SPACE, NEL and NBSP. *)
Definition isspace (c : ascii) : bool :=
  let n := nat_of_ascii c in
  (((9 <=? n) && (n <=? 13)) || ((28 <=? n) && (n <=? 32))
   || (n =? 133) || (n =? 160))%nat.

(** The class [\d] of [re] on a [str] pattern, for code points below 256. *)
Definition isdigit (c : ascii) : bool :=
  let n := nat_of_ascii c in ((48 <=? n) && (n <=? 57))%nat.

Fixpoint lstrip (s : string) : string :=
  match s with
  | String c r => if isspace c then lstrip r else s
  | EmptyString => EmptyString
  end.

Fixpoint rstrip (s : string) : string :=
  match s with
  | String c r =>
      match rstrip r with
      | EmptyString => if isspace c then EmptyString else String c EmptyString
      | r' => String c r'
      end
  | EmptyString => EmptyString
  end.

(** [s.strip()] *)
Definition strip (s : string) : string := rstrip (lstrip s).

(** The truth value of a [str]: non-empty. *)
Definition truthy (s : string) : bool :=
  match s with EmptyString => false | String _ _ => true end.

(** [s.split(sep)] for a non-empty [sep]: cut at the leftmost occurrences
    of [sep], which do not overlap.  [skip] counts the characters of the
    occurrence of [sep] still to be passed over. *)
Fixpoint split_go (sep : string) (skip : nat) (s : string) : list string :=
  match s with
  | EmptyString => [EmptyString]
  | String c r =>
      match skip with
      | S k => split_go sep k r
      | O =>
          if prefix sep s
          then EmptyString :: split_go sep (String.length sep - 1) r
          else match split_go sep 0 r with
               | h :: t => String c h :: t
               | [] => [String c EmptyString]
               end
      end
  end.

Definition split (sep s : string) : list string := split_go sep 0 s.

(** [sep.join(l)] *)
Fixpoint join (sep : string) (l : list string) : string :=
  match l with
  | [] => EmptyString
  | [x] => x
  | x :: rest => x ++ sep ++ join sep rest
  end.

(** [s.replace(old, new)] for a non-empty [old]. *)
Fixpoint replace_go (old new : string) (skip : nat) (s : string) : string :=
  match s with
  | EmptyString => EmptyString
  | String c r =>
      match skip with
      | S k => replace_go old new k r
      | O =>
          if prefix old s
          then new ++ replace_go old new (String.length old - 1) r
          else String c (replace_go old new 0 r)
      end
  end.

Definition replace (old new s : string) : string := replace_go old new 0 s.

(** [s.endswith(suffix)] *)
Definition endswith (s suffix : string) : bool :=
  (String.length suffix <=? String.length s)%nat
  && (substring (String.length s - String.length suffix)
                (String.length suffix) s =? suffix).

(** [s[:-n]] for [n > 0]. *)
Definition drop_last (n : nat) (s : string) : string :=
  substring 0 (String.length s - n) s.

(** [str(i)] for a natural number and for an integer. *)
Definition of_nat (n : nat) : string := NilEmpty.string_of_uint (Nat.to_uint n).
Definition of_Z (z : Z) : string := NilEmpty.string_of_int (Z.to_int z).

End Str.

(** Whether a character occurs in a string. *)
Fixpoint has_char (c : ascii) (s : string) : bool :=
  match s with
  | EmptyString => false
  | String a r => Ascii.eqb a c || has_char c r
  end.


(** ** The enumeration pattern of [translate_list]

    [re.sub(pattern, empty, s)] with the pattern
    [^(\(\d+\)|\d+\.|(\d+))\s*].  Without the MULTILINE
    flag [^] matches at the start of the string only, so at most one match
    is replaced.  Each matcher below returns what follows the part it
    matched.  [\d+] is greedy and never has to give a digit back: in all
    three alternatives the character that must follow it is not a digit.
    The alternatives are tried in order, and [\s*] after the group always
    matches, so the first alternative that matches is the one kept. *)

Module Re.

Definition lit (c : ascii) (s : string) : option string :=
  match s with
  | String a r => if Ascii.eqb a c then Some r else None
  | EmptyString => None
  end.

Fixpoint skip_digits (s : string) : string :=
  match s with
  | String c r => if Str.isdigit c then skip_digits r else s
  | EmptyString => EmptyString
  end.

(** [\d+] *)
Definition digits1 (s : string) : option string :=
  match s with
  | String c r => if Str.isdigit c then Some (skip_digits r) else None
  | EmptyString => None
  end.

Definition and_then (m : option string) (f : string -> option string) :=
  match m with Some r => f r | None => None end.

Definition or_else (m1 m2 : option string) : option string :=
  match m1 with Some r => Some r | None => m2 end.

(** [\(\d+\)], [\d+\.] and [(\d+)] *)
Definition alt_paren (s : string) : option string :=
  and_then (and_then (lit "(" s) digits1) (lit ")").
Definition alt_dot (s : string) : option string :=
  and_then (digits1 s) (lit ".").
Definition alt_bare (s : string) : option string := digits1 s.

(** The group [(\(\d+\)|\d+\.|(\d+))] at the start of [s]. *)
Definition enum_marker (s : string) : option string :=
  or_else (alt_paren s) (or_else (alt_dot s) (alt_bare s)).

(** The whole substitution: the marker and the white space after it go. *)
Definition sub_enum (s : string) : string :=
  match enum_marker s with
  | Some r => Str.lstrip r
  | None => s
  end.

(** [re.sub("\n{3,}", "\n\n", s)] of [translate]: every maximal run of
    three newlines or more becomes two newlines.  [run] counts the newlines
    read and not yet written. *)
Definition flush_newlines (run : nat) (rest : string) : string :=
  match run with
  | 0 => rest
  | 1 => String Str.LF rest
  | _ => String Str.LF (String Str.LF rest)
  end.

Fixpoint squeeze_go (run : nat) (s : string) : string :=
  match s with
  | EmptyString => flush_newlines run EmptyString
  | String c r =>
      if Ascii.eqb c Str.LF then squeeze_go (S run) r
      else flush_newlines run (String c (squeeze_go 0 r))
  end.

Definition squeeze_newlines (s : string) : string := squeeze_go 0 s.

End Re.

(** ** Paragraphs

    The elements of [plist] are BeautifulSoup tags.  Of a tag the code uses
    [find_all("sup")] with [extract()] on every hit, and [get_text()].  The
    search looks below the tag, not at the tag itself.  The copy that
    [translate_list] works on is a deep one, so the paragraphs themselves
    never change. *)

Module Soup.

#[warnings="-register-all"]
Inductive node : Type :=
| NavigableString (s : string)
| Tag (name : string) (contents : list node).

Definition is_tag (name : string) (n : node) : bool :=
  match n with
  | Tag t _ => (t =? name)
  | NavigableString _ => false
  end.

(** [for x in p.find_all(name): x.extract()]: every descendant tag called
    [name] leaves the tree, with all that is below it. *)
Fixpoint extract_all (name : string) (n : node) : node :=
  match n with
  | NavigableString _ => n
  | Tag t cs =>
      Tag t ((fix go (l : list node) : list node :=
                match l with
                | [] => []
                | c :: r =>
                    if is_tag name c then go r
                    else extract_all name c :: go r
                end) cs)
  end.

(** [p.get_text()]: the strings below [p], in document order. *)
Fixpoint get_text (n : node) : string :=
  match n with
  | NavigableString s => s
  | Tag _ cs =>
      (fix go (l : list node) : string :=
         match l with
         | [] => EmptyString
         | c :: r => get_text c ++ go r
         end) cs
  end.

(** Does a descendant tag called [name] remain? *)
Fixpoint has_descendant (name : string) (n : node) : bool :=
  match n with
  | NavigableString _ => false
  | Tag _ cs =>
      (fix go (l : list node) : bool :=
         match l with
         | [] => false
         | c :: r => is_tag name c || has_descendant name c || go r
         end) cs
  end.

End Soup.

(** ** [join_lines] *)

Definition nl : string := String Str.LF EmptyString.
Definition cr : string := String Str.CR EmptyString.

(** The [for line in lines] loop of [join_lines], on the pair
    [(new_lines, temp_line)]. *)
Fixpoint join_loop (lines new_lines temp_line : list string)
  : list string * list string :=
  match lines with
  | [] => (new_lines, temp_line)
  | line :: rest =>
      if Str.truthy (Str.strip line)
      then join_loop rest new_lines (temp_line ++ [Str.strip line])%list
      else
        match temp_line with
        | _ :: _ =>
            join_loop rest
              ((new_lines ++ [Str.join " " temp_line]) ++ [line])%list []
        | [] => join_loop rest (new_lines ++ [line])%list temp_line
        end
  end.

(** Lines 239 to 256: the text with its soft-wrapped lines joined. *)
Definition join_stage (text : string) : string :=
  let lines := Str.split nl text in
  let '(new_lines, temp_line) := join_loop lines [] [] in
  let new_lines :=
    match temp_line with
    | _ :: _ => (new_lines ++ [Str.join " " temp_line])%list
    | [] => new_lines
    end in
  Str.join nl new_lines.

Definition join_lines (text : string) : string :=
  let text := join_stage text in
  (* del ^M *)
  let text := Str.replace "^M" cr text in
  let lines := Str.split nl text in
  let filtered_lines :=
    filter (fun line => negb (Str.strip line =? cr)) lines in
  let new_text := Str.join nl filtered_lines in
  new_text.

(** The function [join_lines] is compared with: the same two first stages
    and no pass that removes lines. *)
Definition join_lines_unfiltered (text : string) : string :=
  Str.replace "^M" cr (join_stage text).

(** A line is blank when nothing is left of it after [strip]. *)
Definition blank (line : string) : bool := negb (Str.truthy (Str.strip line)).

Fixpoint take_run (lines : list string) : list string :=
  match lines with
  | l :: rest => if blank l then [] else l :: take_run rest
  | [] => []
  end.

Fixpoint drop_run (lines : list string) : list string :=
  match lines with
  | l :: rest => if blank l then lines else drop_run rest
  | [] => []
  end.

(** The normalization of lines as the specification words it: a blank line
    stays as it is, and a maximal run of consecutive non-blank lines becomes
    one line, its trimmed members joined by one space. *)
Equations? collapse_runs (lines : list string) : list string
  by wf (List.length lines) lt :=
  collapse_runs [] := [];
  collapse_runs (l :: rest) with blank l := {
    | true := l :: collapse_runs rest;
    | false := Str.join " " (map Str.strip (l :: take_run rest))
               :: collapse_runs (drop_run rest) }.
Proof.
  clear. induction rest as [|x xs IH]; simpl; [lia|].
  destruct (blank x); simpl; lia.
Qed.

(** ** The request of [translate_list], lines 267 to 282 *)

Definition sep : string := nl ++ nl ++ nl ++ nl ++ nl.

(** The text of one paragraph as it is packed. *)
Definition paragraph_text (p : Soup.node) : string :=
  Str.strip (Soup.get_text (Soup.extract_all "sup" p)).

Fixpoint pack_loop (plist : list Soup.node) (i : nat) (new_str : string)
  : string :=
  match plist with
  | [] => new_str
  | p :: rest =>
      pack_loop rest (i + 1)
        (new_str ++ "(" ++ Str.of_nat i ++ ") " ++ paragraph_text p ++ sep)
  end.

Definition pack (plist : list Soup.node) : string :=
  let new_str := pack_loop plist 1 EmptyString in
  if Str.endswith new_str sep
  then Str.drop_last (String.length sep) new_str
  else new_str.

Definition build_request (plist : list Soup.node) : string :=
  join_lines (pack plist).

(** The pieces of the request as the specification words them. *)
Definition numbered_pieces (plist : list Soup.node) : list string :=
  map (fun ip => "(" ++ Str.of_nat (fst ip) ++ ") " ++ paragraph_text (snd ip))
      (combine (seq 1 (List.length plist)) plist).


(** ** Python values, exceptions and the state *)

Module Py.

(** What a completion is made of: [None], strings, lists, and dictionaries
    with string keys. *)
#[warnings="-register-all"]
Inductive value : Type :=
| VNone
| VStr (s : string)
| VList (l : list value)
| VDict (d : list (string * value)).

Inductive exn : Type :=
| KeyError
| IndexError
| TypeError
| AttributeError
| MarkupError
| APIError (msg : string).

Inductive result (A : Type) : Type :=
| Ok (a : A)
| Exn (e : exn).
Arguments Ok {A} a.
Arguments Exn {A} e.

Fixpoint lookup (k : string) (d : list (string * value)) : option value :=
  match d with
  | [] => None
  | (k', v) :: rest => if k' =? k then Some v else lookup k rest
  end.

(** [k in v] for a dictionary [v]. *)
Definition has_key (k : string) (v : value) : bool :=
  match v with
  | VDict d => match lookup k d with Some _ => true | None => false end
  | _ => false
  end.

(** [isinstance(v, list)] *)
Definition is_list (v : value) : bool :=
  match v with VList _ => true | _ => false end.

(** [len(v)] *)
Definition len (v : value) : result nat :=
  match v with
  | VList l => Ok (List.length l)
  | VStr s => Ok (String.length s)
  | VDict d => Ok (List.length d)
  | VNone => Exn TypeError
  end.

(** [v[k]] for a string key [k]. *)
Definition getitem (k : string) (v : value) : result value :=
  match v with
  | VDict d => match lookup k d with Some x => Ok x | None => Exn KeyError end
  | _ => Exn TypeError
  end.

(** [v[0]] *)
Definition getitem0 (v : value) : result value :=
  match v with
  | VList (x :: _) => Ok x
  | VList [] => Exn IndexError
  | VStr (String c _) => Ok (VStr (String c EmptyString))
  | VStr EmptyString => Exn IndexError
  | VDict _ => Exn KeyError
  | VNone => Exn TypeError
  end.

(** [v.get(k)] and [v.get(k, default)] *)
Definition get (k : string) (default : value) (v : value) : result value :=
  match v with
  | VDict d => match lookup k d with Some x => Ok x | None => Ok default end
  | _ => Exn AttributeError
  end.

(** [v.encode("utf8").decode()] *)
Definition encode_decode (v : value) : result string :=
  match v with
  | VStr s => Ok s
  | _ => Exn AttributeError
  end.

(** [v == s] for a string [s]. *)
Definition eq_str (v : value) (s : string) : bool :=
  match v with VStr t => (t =? s) | _ => false end.

Definition and_then {A B : Type} (r : result A) (f : A -> result B) : result B :=
  match r with Ok a => f a | Exn e => Exn e end.

(** One call of [create_chat_completion] returns a completion or raises. *)
Inductive outcome : Type :=
| Returns (completion : value)
| Raises (e : exn).

(** A line of [log/buglog.txt].  The elapsed wall-clock time that
    [log_retry] prints on its line is left out. *)
Inductive log_entry : Type :=
| RetryLine (state : string) (retry_count : nat)
| Printed (s : string).

(** The text of a line as it is handed to [print].  For the line of
    [log_retry] it is the text up to the elapsed time; the time and the
    letter after it hold no bracket. *)
Definition entry_text (e : log_entry) : string :=
  match e with
  | RetryLine state retry_count =>
      "retry " ++ state ++ ", count = " ++ Str.of_nat retry_count
      ++ ", time = "
  | Printed s => s
  end.

Record world : Type := mkWorld {
  key_len : positive;                 (* self.key_len, at least one key *)
  backend : nat -> string -> outcome; (* call number, prompt text *)
  calls : nat;                        (* calls of the backend so far *)
  rotations : nat;                    (* key rotations so far *)
  slept : list Z;                     (* the arguments of time.sleep *)
  long_text_log : list string;        (* log/long_text.txt *)
  buglog : list log_entry;            (* log/buglog.txt *)
  rich_error : string -> option exn   (* what rich raises on a str, if
                                         anything *)
}.

(** The state and exception monad. *)
Definition M (A : Type) : Type := world -> result A * world.

Definition ret {A : Type} (a : A) : M A := fun w => (Ok a, w).

Definition bind {A B : Type} (m : M A) (f : A -> M B) : M B :=
  fun w => match m w with
           | (Ok a, w') => f a w'
           | (Exn e, w') => (Exn e, w')
           end.

Definition raise {A : Type} (e : exn) : M A := fun w => (Exn e, w).

Definition lift {A : Type} (r : result A) : M A := fun w => (r, w).

(** [try: body except Exception as e: handler e] *)
Definition try_except {A : Type} (body : M A) (handler : exn -> M A) : M A :=
  fun w => match body w with
           | (Ok a, w') => (Ok a, w')
           | (Exn e, w') => handler e w'
           end.

(** [time.sleep(d)] *)
Definition sleep (d : Z) : M unit :=
  fun w => (Ok tt, mkWorld (key_len w) (backend w) (calls w) (rotations w)
                           (slept w ++ [d])%list (long_text_log w) (buglog w)
                           (rich_error w)).

(** What [print(s)] raises, for a [str] [s]: nothing when [s] has no
    opening bracket, and else what rich makes of its markup. *)
Definition rich_raises (w : world) (s : string) : option exn :=
  if has_char "[" s then rich_error w s else None.

(** [print(s)] on the console. *)
Definition console_print (s : string) : M unit :=
  fun w => match rich_raises w s with
           | Some e => (Exn e, w)
           | None => (Ok tt, w)
           end.

(** [print(s, file=f)] on [log/long_text.txt] opened for appending: when
    the markup of [s] is refused, nothing is written. *)
Definition append_long_text (s : string) : M unit :=
  fun w => match rich_raises w s with
           | Some e => (Exn e, w)
           | None =>
               (Ok tt, mkWorld (key_len w) (backend w) (calls w) (rotations w)
                               (slept w) (long_text_log w ++ [s])%list
                               (buglog w) (rich_error w))
           end.

(** One [print(..., file=f)] on [log/buglog.txt]. *)
Definition print_buglog (e : log_entry) : M unit :=
  fun w => match rich_raises w (entry_text e) with
           | Some x => (Exn x, w)
           | None =>
               (Ok tt, mkWorld (key_len w) (backend w) (calls w) (rotations w)
                               (slept w) (long_text_log w)
                               (buglog w ++ [e])%list (rich_error w))
           end.

(** Several of them in a row: the first one that raises ends the row, and
    what was printed before it stays in the file. *)
Fixpoint append_buglog (es : list log_entry) : M unit :=
  match es with
  | [] => ret tt
  | e :: rest => bind (print_buglog e) (fun _ => append_buglog rest)
  end.

End Py.

Import Py.

Notation "x <- c1 ;; c2" := (bind c1 (fun x => c2))
  (at level 61, c1 at next level, right associativity).
Notation "' pat <- c1 ;; c2" :=
  (bind c1 (fun x => match x with pat => c2 end))
  (at level 61, pat pattern, c1 at next level, right associativity).
Notation "c1 ;; c2" := (bind c1 (fun _ => c2))
  (at level 61, right associativity).

(** ** The methods of the class *)

Module ChatGPTAPI.

(** Modelled from the spec: the key iterator [self.keys] comes from the
    base class, which is not part of the sources; the credentials are
    rotated round-robin, one per attempt, and the rotation never fails. *)
Definition rotate_key : M unit :=
  fun w => (Ok tt, mkWorld (key_len w) (backend w) (calls w) (S (rotations w))
                           (slept w) (long_text_log w) (buglog w)
                           (rich_error w)).

(** The prompt is formatted and sent; what comes back is up to the backend. *)
Definition create_chat_completion (text : string) : M value :=
  fun w =>
    let w' := mkWorld (key_len w) (backend w) (S (calls w)) (rotations w)
                      (slept w) (long_text_log w) (buglog w) (rich_error w) in
    match backend w (calls w) text with
    | Returns c => (Ok c, w')
    | Raises e => (Exn e, w')
    end.

(** The record printed to [log/long_text.txt]. *)
Definition long_text_record (text : string) : string :=
  "==================================================" ++ nl
  ++ "        The total token is too long and cannot be completely translated"
  ++ nl ++ nl
  ++ "        " ++ text ++ nl
  ++ "        ".

(** Lines 105 to 110 without the log: the text of the first choice, and
    whether its finish reason is ["length"]. *)
Definition read_completion (completion : value) : result (string * bool) :=
  and_then (and_then (getitem "choices" completion) getitem0) (fun choice =>
  and_then (and_then (and_then (get "message" VNone choice)
                               (get "content" (VStr EmptyString)))
                     encode_decode) (fun t_text =>
  and_then (getitem "finish_reason" choice) (fun finish_reason =>
  Ok (t_text, eq_str finish_reason "length")))).

Definition get_translation (text : string) : M string :=
  rotate_key ;;
  completion <-
    try_except (create_chat_completion text)
      (fun e =>
         (* the assignment did not happen: completion is still {} *)
         let completion := VDict [] in
         if negb (has_key "choices" completion) then raise e
         else
           choices <- lift (getitem "choices" completion) ;;
           if negb (is_list choices) then raise e
           else
             n <- lift (len choices) ;;
             if (n =? 0)%nat then raise e
             else
               finish_reason <-
                 lift (and_then (getitem0 choices) (getitem "finish_reason")) ;;
               if negb (eq_str finish_reason "length") then raise e
               else ret completion) ;;
  ' (t_text, truncated) <- lift (read_completion completion) ;;
  (if truncated : bool
   then append_long_text (long_text_record text)
   else ret tt) ;;
  ret t_text.

Definition max_attempts : nat := 3.

(** [int(60 / self.key_len)] *)
Definition sleep_time (w : world) : Z := (60 / Z.pos (key_len w))%Z.

(** The [while attempt_count < max_attempts] loop of [translate].  Every
    turn either leaves the function or adds one to [attempt_count], so
    [max_attempts] turns are all it can make. *)
Fixpoint translate_loop (fuel attempt_count : nat) (text t_text : string)
  : M string :=
  match fuel with
  | O => ret t_text
  | S fuel' =>
      if (attempt_count <? max_attempts)%nat
      then
        try_except (get_translation text)   (* t_text = ...; break *)
          (fun e =>
             (fun w => sleep (sleep_time w) w) ;;
             let attempt_count := attempt_count + 1 in
             if (attempt_count =? max_attempts)%nat then raise e
             else translate_loop fuel' attempt_count text t_text)
      else ret t_text
  end.

(** The text of lines 127 and 149 as it goes to the console. *)
Definition shown (text : string) : string := Re.squeeze_newlines text.
Definition shown_result (t_text : string) : string :=
  "[bold green]" ++ Re.squeeze_newlines t_text ++ "[/bold green]".

Definition translate (text : string) (needprint : bool) : M string :=
  (if needprint then console_print (shown text) else ret tt) ;;
  t_text <- translate_loop max_attempts 0 text EmptyString ;;
  (if needprint then console_print (shown_result t_text) else ret tt) ;;
  ret t_text.

Definition translate_and_split_lines (text : string) : M (list string) :=
  result_str <- translate text false ;;
  let lines := Str.split nl result_str in
  let lines :=
    map Str.strip (filter (fun line => negb (Str.strip line =? EmptyString)) lines) in
  ret lines.

(** The condition of lines 187 to 194, under which the new [result_list]
    becomes [best_result_list]. *)
Definition replaces (plist_len : nat) (best_result_list result_list : list string)
  : bool :=
  ((List.length result_list =? plist_len)
   || ((List.length best_result_list <? List.length result_list)
       && (List.length result_list <=? plist_len))
   || ((List.length result_list <? List.length best_result_list)
       && (plist_len <? List.length best_result_list)))%nat.

(** One turn of the [while] loop of [get_best_result_list], lines 180 to
    195, on [(result_list, best_result_list, retry_count)]. *)
Definition retry_once (plist_len : nat) (new_str : string) (sleep_dur : Z)
  (st : list string * list string * nat) : M (list string * list string * nat) :=
  let '(_, best_result_list, retry_count) := st in
  sleep sleep_dur ;;
  let retry_count := retry_count + 1 in
  result_list <- translate_and_split_lines new_str ;;
  let best_result_list :=
    if replaces plist_len best_result_list result_list
    then result_list else best_result_list in
  ret (result_list, best_result_list, retry_count).

(** The loop itself.  [retry_count] grows by one a turn and the loop stops
    when it reaches [max_retries], so [max_retries] turns are all it can
    make. *)
Fixpoint retry_loop (fuel : nat) (plist_len : nat) (new_str : string)
  (sleep_dur : Z) (max_retries : nat) (st : list string * list string * nat)
  : M (list string * list string * nat) :=
  match fuel with
  | O => ret st
  | S fuel' =>
      let '(result_list, _, retry_count) := st in
      if ((retry_count <? max_retries)
          && negb (List.length result_list =? plist_len))%nat
      then
        st' <- retry_once plist_len new_str sleep_dur st ;;
        retry_loop fuel' plist_len new_str sleep_dur max_retries st'
      else ret st
  end.

Definition get_best_result_list (plist_len : nat) (new_str : string)
  (sleep_dur : Z) (result_list : list string) (max_retries : nat)
  : M (list string * nat) :=
  if (List.length result_list =? plist_len)%nat then ret (result_list, 0)
  else
    let best_result_list := result_list in
    let retry_count := 0 in
    ' (_, best_result_list, retry_count) <-
      retry_loop max_retries plist_len new_str sleep_dur max_retries
                 (result_list, best_result_list, retry_count) ;;
    ret (best_result_list, retry_count).

Definition log_retry (state : string) (retry_count : nat) : M unit :=
  if (retry_count =? 0)%nat then ret tt
  else
    console_print ("retry " ++ state) ;;
    append_buglog [RetryLine state retry_count].

End ChatGPTAPI.

(** ** The functions after the class

    [log_translation_mismatch], [join_lines] and [translate_list] stand
    after the body of the class, at module level, with [self] as their
    first parameter.  [translate_list] reaches the others through [self]:
    here [self] is an object whose attributes [join_lines],
    [translate_and_split_lines], [get_best_result_list], [log_retry] and
    [log_translation_mismatch] are the functions of this file. *)

Definition dots : string := "............................................".
Definition rule : string := "=============================".

Definition mismatch_record (plist_len : nat) (result_list : list string)
  (new_str sep : string) : list log_entry :=
  let newlist := Str.split sep new_str in
  Printed ("problem size: "
           ++ Str.of_Z (Z.of_nat plist_len - Z.of_nat (List.length result_list)))
  :: flat_map
       (fun i =>
          ([Printed (nth i newlist EmptyString); Printed EmptyString]
           ++ (if (i <? List.length result_list)%nat
               then [Printed dots; Printed (nth i result_list EmptyString);
                     Printed EmptyString]
               else [])
           ++ [Printed rule])%list)
       (seq 0 (List.length newlist)).

Definition log_translation_mismatch (plist_len : nat)
  (result_list : list string) (new_str sep : string) : M unit :=
  if (List.length result_list =? plist_len)%nat then ret tt
  else append_buglog (mismatch_record plist_len result_list new_str sep).

Definition translate_list (plist : list Soup.node) : M (list string) :=
  let new_str := build_request plist in
  let plist_len := List.length plist in
  result_list <- ChatGPTAPI.translate_and_split_lines new_str ;;
  ' (result_list, retry_count) <-
    ChatGPTAPI.get_best_result_list plist_len new_str 6 result_list 15 ;;
  let state :=
    if negb (List.length result_list =? plist_len)%nat
    then "fail" else "success" in
  ChatGPTAPI.log_retry state retry_count ;;
  log_translation_mismatch plist_len result_list new_str sep ;;
  (* del (num), num. sometime (num) will translated to num. *)
  let result_list := map Re.sub_enum result_list in
  ret result_list.

(** The response splitter as the specification words it: split on newlines,
    trim every line, drop the lines that are empty once trimmed. *)
Definition split_response (response : string) : list string :=
  filter (fun line => negb (line =? EmptyString))
         (map Str.strip (Str.split nl response)).

(** ** Vocabulary of the statements *)

(** The state after one backend call that returned, with the record of a
    truncated completion when there is one. *)
Definition after_call (w : world) (truncated : bool) (text : string) : world :=
  mkWorld (key_len w) (backend w) (S (calls w)) (S (rotations w)) (slept w)
    (if truncated
     then (long_text_log w ++ [ChatGPTAPI.long_text_record text])%list
     else long_text_log w)
    (buglog w) (rich_error w).

(** The state after one backend call that raised. *)
Definition after_failure (w : world) : world :=
  mkWorld (key_len w) (backend w) (S (calls w)) (S (rotations w)) (slept w)
    (long_text_log w) (buglog w) (rich_error w).

(** The state after a sleep. *)
Definition after_sleep (d : Z) (w : world) : world :=
  mkWorld (key_len w) (backend w) (calls w) (rotations w)
    (slept w ++ [d])%list (long_text_log w) (buglog w) (rich_error w).

(** The state after some lines went to [log/buglog.txt]. *)
Definition after_log (es : list log_entry) (w : world) : world :=
  mkWorld (key_len w) (backend w) (calls w) (rotations w) (slept w)
    (long_text_log w) (buglog w ++ es)%list (rich_error w).

(** Lines of [log/buglog.txt] that rich lets through, every one of them. *)
Definition printable (w : world) (es : list log_entry) : Prop :=
  Forall (fun e => rich_raises w (entry_text e) = None) es.

(** The test of lines 97 to 99 on a completion: no [choices], or [choices]
    not a list, or an empty list. *)
Definition malformed (completion : value) : bool :=
  negb (has_key "choices" completion)
  || match getitem "choices" completion with
     | Ok choices =>
         negb (is_list choices)
         || match len choices with Ok n => (n =? 0)%nat | Exn _ => true end
     | Exn _ => true
     end.

(** What a call needs of rich: [translate] to get through its two prints
    when it is asked to print, [get_translation] to log a truncated
    completion. *)
Definition shows_text (needprint : bool) (w : world) (text : string) : Prop :=
  needprint = true -> rich_raises w (ChatGPTAPI.shown text) = None.

Definition shows_result (needprint : bool) (w : world) (t_text : string)
  : Prop :=
  needprint = true -> rich_raises w (ChatGPTAPI.shown_result t_text) = None.

Definition logs_truncated (truncated : bool) (w : world) (text : string)
  : Prop :=
  truncated = true ->
  rich_raises w (ChatGPTAPI.long_text_record text) = None.

(** A backend that, from now on, answers every call with a completion that
    [get_translation] can read, and can log when it is a truncated one. *)
Definition responsive (w : world) : Prop :=
  forall (n : nat) (text : string),
    calls w <= n ->
    exists c t truncated,
      backend w n text = Returns c
      /\ ChatGPTAPI.read_completion c = Ok (t, truncated)
      /\ (truncated = true ->
          rich_raises w (ChatGPTAPI.long_text_record text) = None).

(** How far a candidate is from the expected number of paragraphs. *)
Definition distance (plist_len : nat) (l : list string) : nat :=
  (List.length l - plist_len) + (plist_len - List.length l).

(** The loop of [get_best_result_list] without its count of retries: at
    most [n] turns, each one taken when [result_list] has the wrong
    length. *)
Fixpoint turns (n : nat) (plist_len : nat) (new_str : string) (sleep_dur : Z)
  (st : list string * list string * nat)
  : M (list string * list string * nat) :=
  match n with
  | O => ret st
  | S n' =>
      let '(result_list, _, _) := st in
      if negb (List.length result_list =? plist_len)%nat
      then
        st' <- ChatGPTAPI.retry_once plist_len new_str sleep_dur st ;;
        turns n' plist_len new_str sleep_dur st'
      else ret st
  end.

(** [result_list] has the expected length exactly when [best_result_list]
    has it. *)
Definition in_step (plist_len : nat) (st : list string * list string * nat)
  : Prop :=
  let '(rl, best, _) := st in
  List.length rl = plist_len <-> List.length best = plist_len.

(** A completion with one choice, and backends that follow a script. *)
Definition completion_of (content finish_reason : string) : value :=
  VDict [("id", VStr "chatcmpl-0");
         ("choices",
          VList [VDict [("index", VNone);
                        ("message", VDict [("role", VStr "assistant");
                                           ("content", VStr content)]);
                        ("finish_reason", VStr finish_reason)]])].

(** A rich that accepts every string, and one that raises [MarkupError] on
    the strings in which [tag] occurs, as rich does for a closing tag that
    nothing before it in the string opens. *)
Definition accepts_all : string -> option exn := fun _ => None.

Definition refuses (tag : string) : string -> option exn :=
  fun s => match index 0 tag s with
           | Some _ => Some MarkupError
           | None => None
           end.

Definition with_rich (r : string -> option exn) (w : world) : world :=
  mkWorld (key_len w) (backend w) (calls w) (rotations w) (slept w)
          (long_text_log w) (buglog w) r.

Definition scripted (script : list outcome) (rest : outcome) : world :=
  mkWorld 1 (fun n _ => nth n script rest) 0 0 [] [] [] accepts_all.

Definition reply (lines : list string) : outcome :=
  Returns (completion_of (Str.join nl lines) "stop").

(** Candidates of a given number of lines. *)
Definition sample (n : nat) : list string :=
  map (fun i => "line " ++ Str.of_nat i) (seq 1 n).

(** ** More of the source *)

(** Line 35 of [__init__]: [len(key.split(","))], the number of keys. *)
Definition key_len_of (key : string) : nat :=
  List.length (Str.split "," key).

(** How often a character occurs, and whether a string is white space
    only. *)
Fixpoint count_char (c : ascii) (s : string) : nat :=
  match s with
  | EmptyString => 0
  | String a r => (if Ascii.eqb a c then 1 else 0) + count_char c r
  end.

Fixpoint all_space (s : string) : bool :=
  match s with
  | EmptyString => true
  | String a r => Str.isspace a && all_space r
  end.

(** A line as the response splitter returns it: no newline in it, nothing
    to trim, not empty. *)
Definition clean_line (line : string) : Prop :=
  has_char Str.LF line = false /\ Str.strip line = line
  /\ line <> EmptyString.

(** The characters an enumeration marker and the white space after it
    are made of. *)
Definition marker_char (c : ascii) : bool :=
  Str.isdigit c || Str.isspace c
  || Ascii.eqb c "(" || Ascii.eqb c ")" || Ascii.eqb c ".".

Fixpoint all_chars (f : ascii -> bool) (s : string) : bool :=
  match s with
  | EmptyString => true
  | String a r => f a && all_chars f r
  end.

(** * Properties *)

(** ** Strings *)

Lemma prefix_empty (s : string) : prefix EmptyString s = true.
Proof. destruct s; reflexivity. Qed.

Lemma split_go_not_nil (sep : string) (s : string) :
  forall skip, Str.split_go sep skip s <> [].
Proof.
  induction s as [|c r IH]; intros skip; cbn [Str.split_go]; [discriminate|].
  destruct skip as [|k]; [|apply IH].
  destruct (prefix sep (String c r)); [discriminate|].
  destruct (Str.split_go sep 0 r); discriminate.
Qed.

(** Splitting on the newline, one character at a time. *)
Lemma split_nl_cons (c : ascii) (r : string) :
  Str.split nl (String c r) =
  if Ascii.eqb c Str.LF then EmptyString :: Str.split nl r
  else match Str.split nl r with
       | h :: t => String c h :: t
       | [] => [String c EmptyString]
       end.
Proof.
  unfold Str.split, nl. cbn [Str.split_go prefix String.length Nat.sub].
  destruct (ascii_dec Str.LF c) as [e|n].
  - subst c. rewrite prefix_empty. reflexivity.
  - destruct (Ascii.eqb_spec c Str.LF) as [e|_]; [congruence|reflexivity].
Qed.

Lemma join_cons_char (sp : string) (c : ascii) (h : string) (t : list string) :
  Str.join sp (String c h :: t) = String c (Str.join sp (h :: t)).
Proof. destruct t; reflexivity. Qed.

Lemma join_split_nl (s : string) : Str.join nl (Str.split nl s) = s.
Proof.
  induction s as [|c r IH]; [reflexivity|].
  rewrite split_nl_cons.
  destruct (Ascii.eqb_spec c Str.LF) as [e|n].
  - subst c. pose proof (split_go_not_nil nl r 0) as Hne.
    unfold Str.split in *. destruct (Str.split_go nl 0 r) eqn:E; [congruence|].
    change (Str.join nl (EmptyString :: s :: l))
      with (String Str.LF (Str.join nl (s :: l))).
    rewrite IH. reflexivity.
  - pose proof (split_go_not_nil nl r 0) as Hne.
    unfold Str.split in *. destruct (Str.split_go nl 0 r) eqn:E; [congruence|].
    rewrite join_cons_char, IH. reflexivity.
Qed.

(** What [rstrip] leaves does not end in white space. *)
Lemma rstrip_single (s : string) (c : ascii) :
  Str.rstrip s = String c EmptyString -> Str.isspace c = false.
Proof.
  destruct s as [|a r]; simpl; [discriminate|].
  destruct (Str.rstrip r).
  - destruct (Str.isspace a) eqn:E; [discriminate|]. congruence.
  - discriminate.
Qed.

Lemma strip_not_cr (line : string) : (Str.strip line =? cr) = false.
Proof.
  destruct (String.eqb_spec (Str.strip line) cr) as [e|n]; [|reflexivity].
  apply rstrip_single in e. vm_compute in e. discriminate e.
Qed.

Lemma filter_all {A : Type} (f : A -> bool) (l : list A) :
  (forall x, f x = true) -> filter f l = l.
Proof.
  intros H. induction l as [|x xs IH]; simpl; [reflexivity|].
  rewrite H, IH. reflexivity.
Qed.

Lemma join_lines_drop_filter (text : string) :
  join_lines text = join_lines_unfiltered text.
Proof.
  unfold join_lines, join_lines_unfiltered.
  rewrite filter_all by (intros x; now rewrite strip_not_cr).
  apply join_split_nl.
Qed.

(** C10. The pass of [join_lines] that removes the lines whose [strip()] is
    a lone carriage return removes nothing: [strip()] takes carriage returns
    away, so the test never holds, the filter keeps every line, and
    [join_lines] is the function that joins the soft-wrapped lines and then
    replaces each [^M] by a carriage return. *)
Theorem join_lines_filter_noop :
  (forall line : string, (Str.strip line =? cr) = false)
  /\ (forall lines : list string,
        filter (fun line => negb (Str.strip line =? cr)) lines = lines)
  /\ (forall text : string, join_lines text = join_lines_unfiltered text).
Proof.
  split; [exact strip_not_cr|]. split.
  - intros lines. apply filter_all. intros x. now rewrite strip_not_cr.
  - exact join_lines_drop_filter.
Qed.

Lemma lstrip_head (s : string) (c : ascii) (r : string) :
  Str.lstrip s = String c r -> Str.isspace c = false.
Proof.
  induction s as [|a t IH]; simpl; [discriminate|].
  destruct (Str.isspace a) eqn:E; [exact IH|].
  intros H. injection H as -> _. exact E.
Qed.

Lemma lstrip_no_space (c : ascii) (r : string) :
  Str.isspace c = false -> Str.lstrip (String c r) = String c r.
Proof. intros H. simpl. now rewrite H. Qed.

Lemma rstrip_keeps_head (c : ascii) (r : string) :
  Str.isspace c = false -> exists r', Str.rstrip (String c r) = String c r'.
Proof.
  intros H. simpl. destruct (Str.rstrip r) as [|x y].
  - rewrite H. now exists EmptyString.
  - now exists (String x y).
Qed.

Lemma rstrip_idem (s : string) : Str.rstrip (Str.rstrip s) = Str.rstrip s.
Proof.
  induction s as [|a r IH]; [reflexivity|].
  simpl. destruct (Str.rstrip r) as [|x y] eqn:E.
  - destruct (Str.isspace a) eqn:Ea; [reflexivity|].
    simpl. now rewrite Ea.
  - change (Str.rstrip (String a (String x y)))
      with (match Str.rstrip (String x y) with
            | EmptyString =>
                if Str.isspace a then EmptyString else String a EmptyString
            | String _ _ as r' => String a r'
            end).
    now rewrite IH.
Qed.

Lemma strip_idem (s : string) : Str.strip (Str.strip s) = Str.strip s.
Proof.
  unfold Str.strip. destruct (Str.lstrip s) as [|c r] eqn:E; [reflexivity|].
  apply lstrip_head in E. destruct (rstrip_keeps_head c r E) as [r' Hr].
  rewrite Hr, (lstrip_no_space c r' E), <- Hr. apply rstrip_idem.
Qed.

Lemma filter_map_strip (lines : list string) :
  map Str.strip
      (filter (fun line => negb (Str.strip line =? EmptyString)) lines)
  = filter (fun line => negb (line =? EmptyString)) (map Str.strip lines).
Proof.
  induction lines as [|l ls IH]; simpl; [reflexivity|].
  destruct (Str.strip l =? EmptyString); simpl; now rewrite IH.
Qed.

Lemma split_nl_app (a b : string) :
  Str.split nl (a ++ nl ++ b) = (Str.split nl a ++ Str.split nl b)%list.
Proof.
  induction a as [|c r IH].
  - change (EmptyString ++ nl ++ b) with (String Str.LF b).
    now rewrite split_nl_cons.
  - change (String c r ++ nl ++ b) with (String c (r ++ nl ++ b)).
    rewrite !split_nl_cons, IH.
    destruct (Ascii.eqb c Str.LF); [reflexivity|].
    pose proof (split_go_not_nil nl r 0) as Hne. unfold Str.split in *.
    destruct (Str.split_go nl 0 r); [congruence|reflexivity].
Qed.

Lemma split_response_lines (response line : string) :
  In line (split_response response) ->
  line <> EmptyString /\ Str.strip line = line.
Proof.
  unfold split_response. intros H. apply filter_In in H as [Hin Hne].
  apply in_map_iff in Hin as [raw [<- _]]. split.
  - intros E. rewrite E in Hne. discriminate Hne.
  - apply strip_idem.
Qed.


(** ** The enumeration pattern *)

Lemma lstrip_length (s : string) :
  String.length (Str.lstrip s) <= String.length s.
Proof.
  induction s as [|c r IH]; simpl; [lia|].
  destruct (Str.isspace c); simpl; lia.
Qed.

Lemma skip_digits_length (s : string) :
  String.length (Re.skip_digits s) <= String.length s.
Proof.
  induction s as [|c r IH]; simpl; [lia|].
  destruct (Str.isdigit c); simpl; lia.
Qed.

Lemma lit_length (c : ascii) (s r : string) :
  Re.lit c s = Some r -> String.length r < String.length s.
Proof.
  destruct s as [|a t]; simpl; [discriminate|].
  destruct (Ascii.eqb a c); [|discriminate].
  intros H. injection H as <-. lia.
Qed.

Lemma digits1_length (s r : string) :
  Re.digits1 s = Some r -> String.length r < String.length s.
Proof.
  destruct s as [|a t]; simpl; [discriminate|].
  destruct (Str.isdigit a); [|discriminate].
  intros H. injection H as <-. pose proof (skip_digits_length t). lia.
Qed.

(** A marker that matches has at least one character. *)
Lemma enum_marker_length (s r : string) :
  Re.enum_marker s = Some r -> String.length r < String.length s.
Proof.
  unfold Re.enum_marker, Re.alt_paren, Re.alt_dot, Re.alt_bare, Re.or_else,
    Re.and_then.
  destruct (Re.lit "(" s) as [r1|] eqn:E1.
  - destruct (Re.digits1 r1) as [r2|] eqn:E2.
    + destruct (Re.lit ")" r2) as [r3|] eqn:E3.
      * intros H. injection H as <-.
        apply lit_length in E1, E3. apply digits1_length in E2. lia.
      * destruct (Re.digits1 s) as [r4|] eqn:E4; [|discriminate].
        apply digits1_length in E4.
        destruct (Re.lit "." r4) as [r5|] eqn:E5; intros H; injection H as <-.
        -- apply lit_length in E5. lia.
        -- exact E4.
    + destruct (Re.digits1 s) as [r4|] eqn:E4; [|discriminate].
      apply digits1_length in E4.
      destruct (Re.lit "." r4) as [r5|] eqn:E5; intros H; injection H as <-.
      * apply lit_length in E5. lia.
      * exact E4.
  - destruct (Re.digits1 s) as [r4|] eqn:E4; [|discriminate].
    apply digits1_length in E4.
    destruct (Re.lit "." r4) as [r5|] eqn:E5; intros H; injection H as <-.
    + apply lit_length in E5. lia.
    + exact E4.
Qed.

(** The substitution leaves a string alone exactly when no marker starts it. *)
Lemma sub_enum_fixed (t : string) :
  Re.sub_enum t = t <-> Re.enum_marker t = None.
Proof.
  unfold Re.sub_enum. destruct (Re.enum_marker t) as [r|] eqn:E.
  - split; [|discriminate]. intros H.
    apply enum_marker_length in E. pose proof (lstrip_length r) as L.
    rewrite H in L. lia.
  - split; reflexivity.
Qed.

Lemma enum_marker_other (c : ascii) (r : string) :
  Str.isdigit c = false -> c <> "("%char -> Re.enum_marker (String c r) = None.
Proof.
  intros Hd Hp.
  unfold Re.enum_marker, Re.alt_paren, Re.alt_dot, Re.alt_bare, Re.or_else,
    Re.and_then, Re.lit, Re.digits1.
  rewrite Hd. destruct (Ascii.eqb_spec c "("%char); [contradiction|reflexivity].
Qed.

(** C5, as the code has it.  One application of the substitution removes
    one leading marker and the white space after it.  A second application
    gives the same string exactly when what the first one left does not
    begin with a marker again; in particular when it is empty or begins
    with a character that is neither a digit nor an opening parenthesis. *)
Theorem sub_enum_twice (s : string) :
  (Re.sub_enum (Re.sub_enum s) = Re.sub_enum s
   <-> Re.enum_marker (Re.sub_enum s) = None)
  /\ (Re.sub_enum s = EmptyString ->
      Re.sub_enum (Re.sub_enum s) = Re.sub_enum s)
  /\ (forall c r, Re.sub_enum s = String c r ->
        Str.isdigit c = false -> c <> "("%char ->
        Re.sub_enum (Re.sub_enum s) = Re.sub_enum s).
Proof.
  split; [apply sub_enum_fixed|]. split.
  - intros ->. reflexivity.
  - intros c r -> Hd Hp. apply sub_enum_fixed. now apply enum_marker_other.
Qed.

Lemma sub_enum_twice_witness :
  Re.sub_enum "(3) Chapter" = String "C" "hapter"
  /\ Re.sub_enum (Re.sub_enum "(3) Chapter") = Re.sub_enum "(3) Chapter".
Proof.
  split; [reflexivity|].
  refine (proj2 (proj2 (sub_enum_twice "(3) Chapter")) "C"%char "hapter" _ _ _).
  - reflexivity.
  - reflexivity.
  - discriminate.
Defined.

(** C5 as stated fails: a line that begins with its marker and then with a
    number loses the marker at the first application and the number at the
    second. *)
Lemma sub_enum_not_idempotent :
  Re.sub_enum "(1) 2023 was a good year" = "2023 was a good year"
  /\ Re.sub_enum (Re.sub_enum "(1) 2023 was a good year") = "was a good year"
  /\ Re.sub_enum (Re.sub_enum "(1) 2023 was a good year")
     <> Re.sub_enum "(1) 2023 was a good year"
  /\ Re.sub_enum "1 2" = "2"
  /\ Re.sub_enum (Re.sub_enum "1 2") = EmptyString.
Proof. repeat split. discriminate. Qed.

(** ** The request *)

Lemma append_assoc (a b c : string) : (a ++ b) ++ c = a ++ (b ++ c).
Proof. induction a as [|x a IH]; simpl; [reflexivity|now rewrite IH]. Qed.

Lemma append_empty_r (a : string) : a ++ EmptyString = a.
Proof. induction a as [|x a IH]; simpl; [reflexivity|now rewrite IH]. Qed.

Lemma append_length (a b : string) :
  String.length (a ++ b) = String.length a + String.length b.
Proof. induction a as [|x a IH]; simpl; [reflexivity|now rewrite IH]. Qed.

Lemma substring_all (b : string) : substring 0 (String.length b) b = b.
Proof. induction b as [|x b IH]; simpl; [reflexivity|now rewrite IH]. Qed.

Lemma substring_suffix (a b : string) :
  substring (String.length a) (String.length b) (a ++ b) = b.
Proof. induction a as [|x a IH]; simpl; [apply substring_all|exact IH]. Qed.

Lemma substring_prefix (a b : string) :
  substring 0 (String.length a) (a ++ b) = a.
Proof.
  induction a as [|x a IH]; simpl; [now destruct b|now rewrite IH].
Qed.

Lemma endswith_app (a b : string) : Str.endswith (a ++ b) b = true.
Proof.
  unfold Str.endswith. rewrite append_length.
  replace (String.length a + String.length b - String.length b)
    with (String.length a) by lia.
  rewrite substring_suffix, String.eqb_refl, andb_true_r.
  apply Nat.leb_le. lia.
Qed.

Lemma drop_last_app (a b : string) :
  Str.drop_last (String.length b) (a ++ b) = a.
Proof.
  unfold Str.drop_last. rewrite append_length.
  replace (String.length a + String.length b - String.length b)
    with (String.length a) by lia.
  apply substring_prefix.
Qed.

Lemma join_cons2 (sp x y : string) (l : list string) :
  Str.join sp (x :: y :: l) = x ++ sp ++ Str.join sp (y :: l).
Proof. reflexivity. Qed.

(** The paragraphs from position [i] on, each with its marker. *)
Lemma pack_loop_join (plist : list Soup.node) :
  forall (i : nat) (new_str : string),
    plist <> [] ->
    pack_loop plist i new_str =
    new_str
    ++ Str.join sep
         (map (fun ip => "(" ++ Str.of_nat (fst ip) ++ ") "
                         ++ paragraph_text (snd ip))
              (combine (seq i (List.length plist)) plist))
    ++ sep.
Proof.
  induction plist as [|p rest IH]; intros i new_str Hne; [congruence|].
  cbn [pack_loop]. destruct rest as [|q rest'].
  - cbn [pack_loop List.length seq combine map Str.join fst snd].
    now rewrite !append_assoc.
  - rewrite IH by discriminate.
    cbn [List.length seq combine map fst snd].
    rewrite join_cons2. rewrite Nat.add_1_r. cbn [List.length seq combine map].
    now rewrite !append_assoc.
Qed.

Lemma pack_is_join (plist : list Soup.node) :
  pack plist = Str.join sep (numbered_pieces plist).
Proof.
  unfold pack, numbered_pieces. destruct plist as [|p rest]; [reflexivity|].
  rewrite pack_loop_join by discriminate.
  change (EmptyString ++ ?x) with x.
  rewrite endswith_app. apply drop_last_app.
Qed.

(** No tag called [name] is left below a node after [extract_all]. *)
Lemma is_tag_extract_all (name : string) (n : Soup.node) :
  Soup.is_tag name (Soup.extract_all name n) = Soup.is_tag name n.
Proof. destruct n; reflexivity. Qed.

Lemma extract_all_complete (name : string) :
  forall n : Soup.node,
    Soup.has_descendant name (Soup.extract_all name n) = false.
Proof.
  fix IH 1. intros [s|t cs]; [reflexivity|].
  cbn [Soup.extract_all Soup.has_descendant].
  induction cs as [|c r IHr]; [reflexivity|].
  destruct (Soup.is_tag name c) eqn:E; [exact IHr|].
  rewrite is_tag_extract_all, E, (IH c), IHr. reflexivity.
Qed.

(** The loop of [join_lines] against the wording of the specification.
    With lines waiting in [temp_line], the run they belong to goes on to the
    next blank line. *)
Lemma join_loop_collapse (lines : list string) :
  forall new_lines temp_line : list string,
    (let '(new_lines', temp_line') := join_loop lines new_lines temp_line in
     match temp_line' with
     | _ :: _ => new_lines' ++ [Str.join " " temp_line']
     | [] => new_lines'
     end)%list
    = (new_lines
       ++ match temp_line with
          | [] => collapse_runs lines
          | _ :: _ =>
              Str.join " " (temp_line ++ map Str.strip (take_run lines))
              :: collapse_runs (drop_run lines)
          end)%list.
Proof.
  induction lines as [|l rest IH]; intros new_lines temp_line.
  - cbn [join_loop take_run drop_run map]. simp collapse_runs.
    destruct temp_line; now rewrite ?app_nil_r.
  - cbn [join_loop take_run drop_run]. simp collapse_runs.
    unfold blank at 1 2 3. destruct (Str.truthy (Str.strip l)) eqn:E;
      cbn [negb].
    + rewrite IH. destruct temp_line as [|t ts].
      * cbn [app collapse_runs_clause_2 map]. reflexivity.
      * cbn [app map]. rewrite <- !app_assoc. reflexivity.
    + destruct temp_line as [|t ts]; rewrite IH.
      * cbn [collapse_runs_clause_2]. now rewrite <- app_assoc.
      * cbn [map]. simp collapse_runs. unfold blank. rewrite E. cbn [negb].
        cbn [collapse_runs_clause_2].
        rewrite app_nil_r, <- !app_assoc. reflexivity.
Qed.

Lemma join_stage_collapse (text : string) :
  join_stage text = Str.join nl (collapse_runs (Str.split nl text)).
Proof.
  unfold join_stage.
  pose proof (join_loop_collapse (Str.split nl text) [] []) as H.
  destruct (join_loop (Str.split nl text) [] []) as [new_lines temp_line].
  cbn [app] in H. now rewrite <- H.
Qed.


(** ** The monad *)

Lemma bind_ret_l {A B : Type} (a : A) (f : A -> M B) (w : world) :
  bind (ret a) f w = f a w.
Proof. reflexivity. Qed.

Lemma bind_ret_r {A : Type} (m : M A) (w : world) : bind m ret w = m w.
Proof. unfold bind, ret. now destruct (m w) as [[a|e] w']. Qed.

Lemma bind_assoc {A B C : Type} (m : M A) (f : A -> M B) (g : B -> M C)
  (w : world) :
  bind (bind m f) g w = bind m (fun a => bind (f a) g) w.
Proof. unfold bind. now destruct (m w) as [[a|e] w']. Qed.

Lemma bind_ext {A B : Type} (m : M A) (f g : A -> M B) (w : world) :
  (forall a w', f a w' = g a w') -> bind m f w = bind m g w.
Proof. intros H. unfold bind. destruct (m w) as [[a|e] w']; auto. Qed.

Lemma bind_ok {A B : Type} (m : M A) (f : A -> M B) (w w' : world) (b : B) :
  bind m f w = (Ok b, w') ->
  exists a w1, m w = (Ok a, w1) /\ f a w1 = (Ok b, w').
Proof.
  unfold bind. destruct (m w) as [[a|e] w1]; [|discriminate].
  intros H. now exists a, w1.
Qed.

(** ** One backend call *)

Lemma get_translation_returns (text : string) (w : world) (c : value) :
  backend w (calls w) text = Returns c ->
  ChatGPTAPI.get_translation text w =
  match ChatGPTAPI.read_completion c with
  | Ok (t_text, truncated) =>
      if truncated
      then match rich_raises w (ChatGPTAPI.long_text_record text) with
           | Some e => (Exn e, after_failure w)
           | None => (Ok t_text, after_call w true text)
           end
      else (Ok t_text, after_call w false text)
  | Exn e => (Exn e, after_failure w)
  end.
Proof.
  intros H.
  unfold ChatGPTAPI.get_translation, ChatGPTAPI.rotate_key,
    ChatGPTAPI.create_chat_completion, try_except, bind, lift, ret.
  cbn [backend calls key_len rotations slept long_text_log buglog rich_error].
  rewrite H.
  destruct (ChatGPTAPI.read_completion c) as [[t_text truncated]|e];
    [|reflexivity].
  destruct truncated; [|reflexivity].
  unfold append_long_text, rich_raises. cbn [rich_error].
  destruct (has_char "[" (ChatGPTAPI.long_text_record text));
    [|reflexivity].
  now destruct (rich_error w (ChatGPTAPI.long_text_record text)).
Qed.

(** A completion that can be read, and logged if need be, is returned. *)
Lemma get_translation_reads (text : string) (w : world) (c : value)
  (t : string) (truncated : bool) :
  backend w (calls w) text = Returns c ->
  ChatGPTAPI.read_completion c = Ok (t, truncated) ->
  logs_truncated truncated w text ->
  ChatGPTAPI.get_translation text w = (Ok t, after_call w truncated text).
Proof.
  intros Hb Hr Hl. rewrite (get_translation_returns text w c Hb), Hr.
  destruct truncated; [|reflexivity]. now rewrite (Hl eq_refl).
Qed.

(** When the call itself raises, [completion] is still the empty dictionary
    and the handler raises the exception again. *)
Lemma get_translation_raises (text : string) (w : world) (e : exn) :
  backend w (calls w) text = Raises e ->
  ChatGPTAPI.get_translation text w = (Exn e, after_failure w).
Proof.
  intros H.
  unfold ChatGPTAPI.get_translation, ChatGPTAPI.rotate_key,
    ChatGPTAPI.create_chat_completion, try_except, bind, lift, ret.
  cbn [backend calls key_len rotations slept long_text_log buglog].
  rewrite H. reflexivity.
Qed.

(** A completion that fails the test of lines 97 to 99 cannot be read. *)
Lemma malformed_unreadable (c : value) :
  malformed c = true -> exists e, ChatGPTAPI.read_completion c = Exn e.
Proof.
  unfold malformed, ChatGPTAPI.read_completion, has_key, getitem.
  destruct c as [| s | l | d]; try (intros _; eexists; reflexivity).
  destruct (lookup "choices" d) as [choices|]; cbn [negb orb and_then];
    [|intros _; eexists; reflexivity].
  destruct choices as [| s | l | d']; cbn [is_list negb orb len getitem0 and_then].
  - intros _. eexists. reflexivity.
  - intros _. destruct s; eexists; reflexivity.
  - destruct l as [|x xs]; cbn; [intros _; eexists; reflexivity|discriminate].
  - intros _. eexists. reflexivity.
Qed.

(** The three attempts of [translate], written out. *)
Lemma loop_unfold (text : string) (w : world) :
  ChatGPTAPI.translate_loop ChatGPTAPI.max_attempts 0 text EmptyString w =
  try_except (ChatGPTAPI.get_translation text)
    (fun _ =>
       (fun w => sleep (ChatGPTAPI.sleep_time w) w) ;;
       try_except (ChatGPTAPI.get_translation text)
         (fun _ =>
            (fun w => sleep (ChatGPTAPI.sleep_time w) w) ;;
            try_except (ChatGPTAPI.get_translation text)
              (fun e =>
                 (fun w => sleep (ChatGPTAPI.sleep_time w) w) ;;
                 raise e))) w.
Proof. reflexivity. Qed.

(** [translate] around its loop: the print of the text before it, the print
    of the result after it, both only when asked for. *)
Lemma translate_of_loop (text : string) (needprint : bool) (w : world) :
  ChatGPTAPI.translate text needprint w =
  if needprint
  then match rich_raises w (ChatGPTAPI.shown text) with
       | Some e => (Exn e, w)
       | None =>
           match ChatGPTAPI.translate_loop ChatGPTAPI.max_attempts 0 text
                   EmptyString w with
           | (Ok t, w') =>
               match rich_raises w' (ChatGPTAPI.shown_result t) with
               | Some e => (Exn e, w')
               | None => (Ok t, w')
               end
           | (Exn e, w') => (Exn e, w')
           end
       end
  else ChatGPTAPI.translate_loop ChatGPTAPI.max_attempts 0 text EmptyString w.
Proof.
  unfold ChatGPTAPI.translate, bind, console_print, ret.
  destruct needprint.
  - destruct (rich_raises w (ChatGPTAPI.shown text)); [reflexivity|].
    destruct (ChatGPTAPI.translate_loop ChatGPTAPI.max_attempts 0 text
                EmptyString w) as [[t|e] w']; [|reflexivity].
    now destruct (rich_raises w' (ChatGPTAPI.shown_result t)).
  - now destruct (ChatGPTAPI.translate_loop ChatGPTAPI.max_attempts 0 text
                    EmptyString w) as [[t|e] w'].
Qed.

Lemma translate_ok (text : string) (needprint : bool) (w w' : world)
  (t : string) :
  ChatGPTAPI.translate_loop ChatGPTAPI.max_attempts 0 text EmptyString w
  = (Ok t, w') ->
  shows_text needprint w text -> shows_result needprint w' t ->
  ChatGPTAPI.translate text needprint w = (Ok t, w').
Proof.
  intros H H1 H2. rewrite translate_of_loop, H.
  destruct needprint; [|reflexivity].
  now rewrite (H1 eq_refl), (H2 eq_refl).
Qed.

Lemma translate_exn (text : string) (needprint : bool) (w w' : world)
  (e : exn) :
  ChatGPTAPI.translate_loop ChatGPTAPI.max_attempts 0 text EmptyString w
  = (Exn e, w') ->
  shows_text needprint w text ->
  ChatGPTAPI.translate text needprint w = (Exn e, w').
Proof.
  intros H H1. rewrite translate_of_loop, H.
  destruct needprint; [|reflexivity]. now rewrite (H1 eq_refl).
Qed.

Lemma quiet_text (w : world) (text : string) : shows_text false w text.
Proof. intros H. discriminate H. Qed.

Lemma quiet_result (w : world) (t : string) : shows_result false w t.
Proof. intros H. discriminate H. Qed.

Lemma logs_nothing (w : world) (text : string) : logs_truncated false w text.
Proof. intros H. discriminate H. Qed.

Ltac quiet :=
  first [apply quiet_text | apply quiet_result | apply logs_nothing].

Lemma loop_first_try (text : string) (w w' : world) (t : string) :
  ChatGPTAPI.get_translation text w = (Ok t, w') ->
  ChatGPTAPI.translate_loop ChatGPTAPI.max_attempts 0 text EmptyString w
  = (Ok t, w').
Proof. intros H. rewrite loop_unfold. unfold try_except. now rewrite H. Qed.

Lemma translate_first_try (text : string) (needprint : bool) (w w' : world)
  (t : string) :
  ChatGPTAPI.get_translation text w = (Ok t, w') ->
  shows_text needprint w text -> shows_result needprint w' t ->
  ChatGPTAPI.translate text needprint w = (Ok t, w').
Proof. intros H. apply translate_ok. now apply loop_first_try. Qed.

Lemma translate_quiet (text : string) (w w' : world) (t : string) :
  ChatGPTAPI.get_translation text w = (Ok t, w') ->
  ChatGPTAPI.translate text false w = (Ok t, w').
Proof.
  intros H. apply (translate_first_try text false w w' t H);
    quiet.
Qed.

(** More turns than [max_attempts] would change nothing in [translate]. *)
Lemma translate_loop_fuel (extra : nat) (text t_text : string) (w : world) :
  ChatGPTAPI.translate_loop (ChatGPTAPI.max_attempts + extra) 0 text t_text w
  = ChatGPTAPI.translate_loop ChatGPTAPI.max_attempts 0 text t_text w.
Proof.
  cbn [ChatGPTAPI.max_attempts Nat.add ChatGPTAPI.translate_loop Nat.ltb
       Nat.leb Nat.eqb].
  unfold try_except, bind.
  destruct (ChatGPTAPI.get_translation text w) as [[t|e] w1]; [reflexivity|].
  destruct (sleep (ChatGPTAPI.sleep_time w1) w1) as [[[]|e1] w2]; [|reflexivity].
  destruct (ChatGPTAPI.get_translation text w2) as [[t|e2] w3]; [reflexivity|].
  destruct (sleep (ChatGPTAPI.sleep_time w3) w3) as [[[]|e3] w4]; [|reflexivity].
  destruct (ChatGPTAPI.get_translation text w4) as [[t|e4] w5]; reflexivity.
Qed.

Lemma sleep_time_after_failure (w : world) :
  ChatGPTAPI.sleep_time (after_failure w) = ChatGPTAPI.sleep_time w.
Proof. reflexivity. Qed.

Lemma sleep_time_after_sleep (d : Z) (w : world) :
  ChatGPTAPI.sleep_time (after_sleep d w) = ChatGPTAPI.sleep_time w.
Proof. reflexivity. Qed.

(** After a first attempt that raised: a sleep, and up to two more. *)
Lemma loop_after_failure (text : string) (w w1 : world) (e : exn) :
  ChatGPTAPI.get_translation text w = (Exn e, w1) ->
  ChatGPTAPI.translate_loop ChatGPTAPI.max_attempts 0 text EmptyString w =
  match ChatGPTAPI.get_translation text
          (after_sleep (ChatGPTAPI.sleep_time w1) w1) with
  | (Ok t, w2) => (Ok t, w2)
  | (Exn _, w2) =>
      match ChatGPTAPI.get_translation text
              (after_sleep (ChatGPTAPI.sleep_time w2) w2) with
      | (Ok t, w3) => (Ok t, w3)
      | (Exn e3, w3) => (Exn e3, after_sleep (ChatGPTAPI.sleep_time w3) w3)
      end
  end.
Proof.
  intros H. rewrite loop_unfold. unfold try_except at 1. rewrite H.
  unfold bind at 1. cbn [sleep]. unfold try_except at 1.
  fold (after_sleep (ChatGPTAPI.sleep_time w1) w1).
  destruct (ChatGPTAPI.get_translation text
              (after_sleep (ChatGPTAPI.sleep_time w1) w1)) as [[t|e2] w2];
    [reflexivity|].
  unfold bind at 1. cbn [sleep]. unfold try_except at 1.
  fold (after_sleep (ChatGPTAPI.sleep_time w2) w2).
  destruct (ChatGPTAPI.get_translation text
              (after_sleep (ChatGPTAPI.sleep_time w2) w2)) as [[t|e3] w3];
    reflexivity.
Qed.

Lemma long_text_record_holds (text : string) :
  exists before after : string,
    ChatGPTAPI.long_text_record text = before ++ text ++ after.
Proof.
  exists ("==================================================" ++ nl
          ++ "        The total token is too long and cannot be completely translated"
          ++ nl ++ nl ++ "        "), (nl ++ "        ").
  unfold ChatGPTAPI.long_text_record. now rewrite !append_assoc.
Qed.

Lemma read_first_choice (d choice message : list (string * value))
  (others : list value) (partial finish_reason : string) :
  lookup "choices" d = Some (VList (VDict choice :: others)) ->
  lookup "message" choice = Some (VDict message) ->
  lookup "content" message = Some (VStr partial) ->
  lookup "finish_reason" choice = Some (VStr finish_reason) ->
  ChatGPTAPI.read_completion (VDict d)
  = Ok (partial, (finish_reason =? "length")).
Proof.
  intros Hc Hm Ht Hf.
  unfold ChatGPTAPI.read_completion, getitem, get, and_then.
  rewrite Hc. cbn [getitem0]. rewrite Hm, Ht. cbn [encode_decode].
  now rewrite Hf.
Qed.

(** C7, the defect.  A completion whose first choice has the finish reason
    [length] is not always taken as it is.  The record for
    [log/long_text.txt] goes through the print of rich with the text that
    was sent inside it; when rich refuses that record, [get_translation]
    raises instead of returning the partial text, and nothing is written.
    [translate] then takes the exception for a failed attempt: it sleeps
    and asks the backend again, and after three such answers it raises. *)
Theorem truncated_log_raises (text : string) (w : world)
  (d choice message : list (string * value)) (others : list value)
  (partial : string) (e : exn) :
  backend w (calls w) text = Returns (VDict d) ->
  lookup "choices" d = Some (VList (VDict choice :: others)) ->
  lookup "message" choice = Some (VDict message) ->
  lookup "content" message = Some (VStr partial) ->
  lookup "finish_reason" choice = Some (VStr "length") ->
  rich_raises w (ChatGPTAPI.long_text_record text) = Some e ->
  ChatGPTAPI.get_translation text w = (Exn e, after_failure w)
  /\ long_text_log (after_failure w) = long_text_log w
  /\ (backend w (S (calls w)) text = Returns (VDict d) ->
      backend w (S (S (calls w))) text = Returns (VDict d) ->
      ChatGPTAPI.translate text false w =
      (Exn e,
       after_sleep (ChatGPTAPI.sleep_time w) (after_failure
         (after_sleep (ChatGPTAPI.sleep_time w) (after_failure
            (after_sleep (ChatGPTAPI.sleep_time w) (after_failure w))))))).
Proof.
  intros Hb Hc Hm Ht Hf Hr.
  pose proof (read_first_choice d choice message others partial "length"
                Hc Hm Ht Hf) as Hread.
  change ("length" =? "length") with true in Hread.
  assert (Hg : forall w0,
             backend w0 (calls w0) text = Returns (VDict d) ->
             rich_raises w0 (ChatGPTAPI.long_text_record text) = Some e ->
             ChatGPTAPI.get_translation text w0 = (Exn e, after_failure w0)).
  { intros w0 Hb0 Hr0.
    now rewrite (get_translation_returns text w0 (VDict d) Hb0), Hread, Hr0. }
  split; [now apply Hg|]. split; [reflexivity|].
  intros Hb1 Hb2. apply translate_exn; [|quiet].
  rewrite (loop_after_failure text w (after_failure w) e (Hg w Hb Hr)).
  rewrite sleep_time_after_failure.
  rewrite (Hg (after_sleep (ChatGPTAPI.sleep_time w) (after_failure w))
              Hb1 Hr).
  rewrite sleep_time_after_failure, sleep_time_after_sleep,
    sleep_time_after_failure.
  rewrite (Hg (after_sleep (ChatGPTAPI.sleep_time w) (after_failure
                 (after_sleep (ChatGPTAPI.sleep_time w) (after_failure w))))
              Hb2 Hr).
  rewrite sleep_time_after_failure, sleep_time_after_sleep,
    sleep_time_after_failure, sleep_time_after_sleep,
    sleep_time_after_failure.
  reflexivity.
Qed.

Lemma truncated_log_raises_witness :
  ChatGPTAPI.get_translation "see [/b] here"
    (with_rich (refuses "[/b]")
       (scripted [] (Returns (completion_of "voir" "length"))))
  = (Exn MarkupError,
     after_failure
       (with_rich (refuses "[/b]")
          (scripted [] (Returns (completion_of "voir" "length")))))
  /\ fst (ChatGPTAPI.translate "see [/b] here" false
            (with_rich (refuses "[/b]")
               (scripted [] (Returns (completion_of "voir" "length")))))
     = Exn MarkupError
  /\ calls (snd (ChatGPTAPI.translate "see [/b] here" false
                   (with_rich (refuses "[/b]")
                      (scripted [] (Returns (completion_of "voir" "length"))))))
     = 3
  /\ long_text_log
       (snd (ChatGPTAPI.translate "see [/b] here" false
               (with_rich (refuses "[/b]")
                  (scripted [] (Returns (completion_of "voir" "length"))))))
     = [].
Proof.
  destruct (truncated_log_raises "see [/b] here"
              (with_rich (refuses "[/b]")
                 (scripted [] (Returns (completion_of "voir" "length"))))
              _ _ _ [] "voir" MarkupError
              eq_refl eq_refl eq_refl eq_refl eq_refl eq_refl)
    as (Hg & _ & Ht).
  split; [exact Hg|].
  rewrite (Ht eq_refl eq_refl). repeat split.
Defined.

(** X21. When rich takes the record, and the two prints of [translate] if
    they are asked for, a completion whose first choice has the finish
    reason [length] is taken as it is: [get_translation] returns the
    partial text after this one call, [translate] returns it without a
    retry and without a sleep, and the only trace is one more entry in
    [log/long_text.txt], which holds the text that was sent. *)
Theorem truncated_completion (text : string) (needprint : bool) (w : world)
  (d choice message : list (string * value)) (others : list value)
  (partial : string) :
  backend w (calls w) text = Returns (VDict d) ->
  lookup "choices" d = Some (VList (VDict choice :: others)) ->
  lookup "message" choice = Some (VDict message) ->
  lookup "content" message = Some (VStr partial) ->
  lookup "finish_reason" choice = Some (VStr "length") ->
  rich_raises w (ChatGPTAPI.long_text_record text) = None ->
  shows_text needprint w text -> shows_result needprint w partial ->
  ChatGPTAPI.get_translation text w = (Ok partial, after_call w true text)
  /\ ChatGPTAPI.translate text needprint w = (Ok partial, after_call w true text)
  /\ calls (after_call w true text) = S (calls w)
  /\ slept (after_call w true text) = slept w
  /\ buglog (after_call w true text) = buglog w
  /\ long_text_log (after_call w true text) =
     (long_text_log w ++ [ChatGPTAPI.long_text_record text])%list
  /\ exists before after : string,
       ChatGPTAPI.long_text_record text = before ++ text ++ after.
Proof.
  intros Hb Hc Hm Ht Hf Hr H1 H2.
  assert (Hg : ChatGPTAPI.get_translation text w
               = (Ok partial, after_call w true text)).
  { apply (get_translation_reads text w (VDict d)); [exact Hb| |now intros _].
    exact (read_first_choice d choice message others partial "length"
             Hc Hm Ht Hf). }
  split; [exact Hg|]. split; [now apply translate_first_try|].
  repeat (split; [reflexivity|]).
  apply long_text_record_holds.
Qed.

Lemma truncated_completion_witness :
  ChatGPTAPI.translate "long text" false
    (scripted [Returns (completion_of "x" "length")] (Raises (APIError "down")))
  = (Ok "x",
     after_call
       (scripted [Returns (completion_of "x" "length")] (Raises (APIError "down")))
       true "long text").
Proof.
  refine (proj1 (proj2 (truncated_completion "long text" false
            (scripted [Returns (completion_of "x" "length")]
                      (Raises (APIError "down")))
            _ _ _ [] "x" _ _ _ _ _ _ _ _))); try reflexivity;
    quiet.
Defined.

(** C6, as the code has it.  A completion without a usable [choices] makes
    [get_translation] raise at once, after this one call and with nothing
    logged.  [translate] treats the exception as any other: it sleeps and
    asks again.  A readable completion at the second call is returned; three
    unusable completions in a row make [translate] raise, after three calls
    and three sleeps.  (The prints of [translate], when it is asked to
    print, and the log of a truncated completion have to get through
    rich.) *)
Theorem malformed_response_is_retried (text : string) (needprint : bool)
  (w : world) (c : value) :
  backend w (calls w) text = Returns c ->
  malformed c = true ->
  (exists e, ChatGPTAPI.get_translation text w = (Exn e, after_failure w))
  /\ (forall c' t truncated,
        backend w (S (calls w)) text = Returns c' ->
        ChatGPTAPI.read_completion c' = Ok (t, truncated) ->
        logs_truncated truncated w text ->
        shows_text needprint w text -> shows_result needprint w t ->
        ChatGPTAPI.translate text needprint w =
        (Ok t,
         after_call (after_sleep (ChatGPTAPI.sleep_time w) (after_failure w))
                    truncated text))
  /\ (forall c1 c2,
        backend w (S (calls w)) text = Returns c1 -> malformed c1 = true ->
        backend w (S (S (calls w))) text = Returns c2 -> malformed c2 = true ->
        shows_text needprint w text ->
        exists e,
          ChatGPTAPI.translate text needprint w =
          (Exn e,
           after_sleep (ChatGPTAPI.sleep_time w) (after_failure
             (after_sleep (ChatGPTAPI.sleep_time w) (after_failure
                (after_sleep (ChatGPTAPI.sleep_time w) (after_failure w))))))).
Proof.
  intros Hb Hm. destruct (malformed_unreadable c Hm) as [e He].
  assert (Hg : ChatGPTAPI.get_translation text w = (Exn e, after_failure w)).
  { rewrite (get_translation_returns text w c Hb), He. reflexivity. }
  split; [now exists e|]. split.
  - intros c' t truncated Hb' Hr Hl H1 H2.
    apply translate_ok; [|exact H1|exact H2].
    rewrite (loop_after_failure text w (after_failure w) e Hg).
    change (ChatGPTAPI.sleep_time (after_failure w))
      with (ChatGPTAPI.sleep_time w).
    now rewrite (get_translation_reads text
                   (after_sleep (ChatGPTAPI.sleep_time w) (after_failure w))
                   c' t truncated Hb' Hr Hl).
  - intros c1 c2 Hb1 Hm1 Hb2 Hm2 H1.
    destruct (malformed_unreadable c1 Hm1) as [e1 He1].
    destruct (malformed_unreadable c2 Hm2) as [e2 He2].
    exists e2. apply translate_exn; [|exact H1].
    rewrite (loop_after_failure text w (after_failure w) e Hg).
    change (ChatGPTAPI.sleep_time (after_failure w))
      with (ChatGPTAPI.sleep_time w).
    rewrite (get_translation_returns text
               (after_sleep (ChatGPTAPI.sleep_time w) (after_failure w)) c1 Hb1).
    rewrite He1, sleep_time_after_failure, sleep_time_after_sleep,
      sleep_time_after_failure.
    rewrite (get_translation_returns text
               (after_sleep (ChatGPTAPI.sleep_time w) (after_failure
                  (after_sleep (ChatGPTAPI.sleep_time w) (after_failure w))))
               c2 Hb2).
    rewrite He2, sleep_time_after_failure, sleep_time_after_sleep,
      sleep_time_after_failure, sleep_time_after_sleep,
      sleep_time_after_failure.
    reflexivity.
Qed.

Lemma malformed_response_is_retried_witness :
  ChatGPTAPI.translate "hello" false
    (scripted [Returns (VDict [("error", VStr "overloaded")]); reply ["bonjour"]]
              (Raises (APIError "down")))
  = (Ok "bonjour",
     after_call
       (after_sleep 60
          (after_failure
             (scripted [Returns (VDict [("error", VStr "overloaded")]);
                        reply ["bonjour"]]
                       (Raises (APIError "down")))))
       false "hello").
Proof.
  refine (proj1 (proj2 (malformed_response_is_retried "hello" false
            (scripted [Returns (VDict [("error", VStr "overloaded")]);
                       reply ["bonjour"]]
                      (Raises (APIError "down")))
            (VDict [("error", VStr "overloaded")]) _ _))
          (completion_of "bonjour" "stop") "bonjour" false _ _ _ _ _);
    try reflexivity; quiet.
Defined.

(** C6 as stated fails: the first completion has no [choices], and the call
    of [translate] still returns a translation, from a second backend call
    made after a sleep of sixty seconds. *)
Lemma malformed_response_not_fatal :
  let w := scripted [Returns (VDict [("error", VStr "overloaded")]);
                     reply ["bonjour"]]
                    (Raises (APIError "down")) in
  backend w 0 "hello" = Returns (VDict [("error", VStr "overloaded")])
  /\ has_key "choices" (VDict [("error", VStr "overloaded")]) = false
  /\ fst (ChatGPTAPI.get_translation "hello" w) = Exn KeyError
  /\ fst (ChatGPTAPI.translate "hello" false w) = Ok "bonjour"
  /\ calls (snd (ChatGPTAPI.translate "hello" false w)) = 2
  /\ slept (snd (ChatGPTAPI.translate "hello" false w)) = [60%Z].
Proof. repeat split. Qed.

(** ** The retry loop *)

Lemma replaces_spec (plist_len : nat) (best cn : list string) :
  ChatGPTAPI.replaces plist_len best cn = true <->
  (List.length cn = plist_len
   \/ (List.length best < List.length cn /\ List.length cn <= plist_len)
   \/ (List.length cn < List.length best /\ plist_len < List.length best)).
Proof.
  unfold ChatGPTAPI.replaces.
  rewrite !orb_true_iff, !andb_true_iff, Nat.eqb_eq, !Nat.ltb_lt, Nat.leb_le.
  tauto.
Qed.

(** What one turn does to the state. *)
Lemma retry_once_ok (plist_len : nat) (new_str : string) (sleep_dur : Z)
  (rl best : list string) (rc : nat) (w : world)
  (cn best' : list string) (rc' : nat) (w' : world) :
  ChatGPTAPI.retry_once plist_len new_str sleep_dur (rl, best, rc) w
  = (Ok (cn, best', rc'), w') ->
  ChatGPTAPI.translate_and_split_lines new_str (after_sleep sleep_dur w)
  = (Ok cn, w')
  /\ rc' = rc + 1
  /\ best' = (if ChatGPTAPI.replaces plist_len best cn then cn else best).
Proof.
  unfold ChatGPTAPI.retry_once, bind at 1. cbn [sleep].
  fold (after_sleep sleep_dur w). unfold bind at 1.
  destruct (ChatGPTAPI.translate_and_split_lines new_str
              (after_sleep sleep_dur w)) as [[c|e] w1]; [|discriminate].
  unfold ret. intros H. injection H as <- <- <- <-. auto.
Qed.

Lemma retry_once_run (plist_len : nat) (new_str : string) (sleep_dur : Z)
  (rl best : list string) (rc : nat) (w : world) :
  ChatGPTAPI.retry_once plist_len new_str sleep_dur (rl, best, rc) w =
  match ChatGPTAPI.translate_and_split_lines new_str
          (after_sleep sleep_dur w) with
  | (Ok cn, w') =>
      (Ok (cn, if ChatGPTAPI.replaces plist_len best cn then cn else best,
           rc + 1), w')
  | (Exn e, w') => (Exn e, w')
  end.
Proof.
  unfold ChatGPTAPI.retry_once, bind at 1. cbn [sleep].
  fold (after_sleep sleep_dur w). unfold bind at 1.
  now destruct (ChatGPTAPI.translate_and_split_lines new_str
                  (after_sleep sleep_dur w)) as [[c|e] w1].
Qed.

(** The loop never runs out of fuel before its own condition stops it: as
    long as [retry_count + fuel] is [max_retries], it is the loop [turns]. *)
Lemma retry_loop_turns (plist_len : nat) (new_str : string) (sleep_dur : Z)
  (max_retries : nat) (fuel : nat) :
  forall (rl best : list string) (rc : nat) (w : world),
    rc + fuel = max_retries ->
    ChatGPTAPI.retry_loop fuel plist_len new_str sleep_dur max_retries
                          (rl, best, rc) w
    = turns fuel plist_len new_str sleep_dur (rl, best, rc) w.
Proof.
  induction fuel as [|f IH]; intros rl best rc w Hrc; [reflexivity|].
  cbn [ChatGPTAPI.retry_loop turns].
  assert (Hlt : (rc <? max_retries)%nat = true) by (apply Nat.ltb_lt; lia).
  rewrite Hlt. cbn [andb].
  destruct (negb (List.length rl =? plist_len)%nat); [|reflexivity].
  unfold bind. rewrite retry_once_run.
  destruct (ChatGPTAPI.translate_and_split_lines new_str
              (after_sleep sleep_dur w)) as [[cn|e] w1]; [|reflexivity].
  apply IH. lia.
Qed.

(** With more fuel than [max_retries] the loop does the same. *)
Lemma retry_loop_fuel (plist_len : nat) (new_str : string) (sleep_dur : Z)
  (max_retries : nat) (extra : nat) (fuel : nat) :
  forall (rl best : list string) (rc : nat) (w : world),
    rc + fuel = max_retries ->
    ChatGPTAPI.retry_loop (fuel + extra) plist_len new_str sleep_dur
                          max_retries (rl, best, rc) w
    = ChatGPTAPI.retry_loop fuel plist_len new_str sleep_dur max_retries
                            (rl, best, rc) w.
Proof.
  induction fuel as [|f IH]; intros rl best rc w Hrc.
  - destruct extra as [|x]; [reflexivity|].
    cbn [Nat.add ChatGPTAPI.retry_loop].
    assert (Hlt : (rc <? max_retries)%nat = false) by (apply Nat.ltb_ge; lia).
    now rewrite Hlt.
  - cbn [Nat.add ChatGPTAPI.retry_loop].
    destruct ((rc <? max_retries)
              && negb (List.length rl =? plist_len))%nat; [|reflexivity].
    unfold bind. rewrite retry_once_run.
    destruct (ChatGPTAPI.translate_and_split_lines new_str
                (after_sleep sleep_dur w)) as [[cn|e] w1]; [|reflexivity].
    apply IH. lia.
Qed.

Lemma get_best_result_list_turns (plist_len : nat) (new_str : string)
  (sleep_dur : Z) (rl : list string) (max_retries : nat) (w : world) :
  ChatGPTAPI.get_best_result_list plist_len new_str sleep_dur rl max_retries w =
  if (List.length rl =? plist_len)%nat then (Ok (rl, 0), w)
  else
    match turns max_retries plist_len new_str sleep_dur (rl, rl, 0) w with
    | (Ok (_, best, rc), w') => (Ok (best, rc), w')
    | (Exn e, w') => (Exn e, w')
    end.
Proof.
  unfold ChatGPTAPI.get_best_result_list.
  destruct (List.length rl =? plist_len)%nat; [reflexivity|].
  unfold bind. rewrite retry_loop_turns by reflexivity.
  now destruct (turns max_retries plist_len new_str sleep_dur (rl, rl, 0) w)
    as [[[[rl' best] rc]|e] w'].
Qed.

(** A loop of [n + 1] turns is a loop of [n] turns and one turn more. *)
Lemma turns_snoc (plist_len : nat) (new_str : string) (sleep_dur : Z)
  (n : nat) :
  forall (st : list string * list string * nat) (w : world),
    turns (S n) plist_len new_str sleep_dur st w
    = bind (turns n plist_len new_str sleep_dur st)
           (turns 1 plist_len new_str sleep_dur) w.
Proof.
  induction n as [|m IH]; intros st w; [reflexivity|].
  destruct st as [[rl best] rc].
  change (turns (S (S m)) plist_len new_str sleep_dur (rl, best, rc) w)
    with ((if negb (List.length rl =? plist_len)%nat
           then bind (ChatGPTAPI.retry_once plist_len new_str sleep_dur
                        (rl, best, rc))
                     (turns (S m) plist_len new_str sleep_dur)
           else ret (rl, best, rc)) w).
  change (turns (S m) plist_len new_str sleep_dur (rl, best, rc))
    with (if negb (List.length rl =? plist_len)%nat
          then bind (ChatGPTAPI.retry_once plist_len new_str sleep_dur
                       (rl, best, rc))
                    (turns m plist_len new_str sleep_dur)
          else ret (rl, best, rc)).
  destruct (negb (List.length rl =? plist_len)%nat) eqn:E.
  - rewrite bind_assoc. apply bind_ext. intros a w'. apply IH.
  - rewrite bind_ret_l. cbn [turns]. now rewrite E.
Qed.

Lemma replaces_keeps_step (plist_len : nat) (best cn : list string) :
  List.length best <> plist_len ->
  (List.length cn = plist_len <->
   List.length (if ChatGPTAPI.replaces plist_len best cn then cn else best)
   = plist_len).
Proof.
  intros Hb. destruct (ChatGPTAPI.replaces plist_len best cn) eqn:E;
    [tauto|].
  split; [|tauto]. intros Hc.
  assert (H : ChatGPTAPI.replaces plist_len best cn = true)
    by (apply replaces_spec; auto).
  congruence.
Qed.

Lemma turns_in_step (plist_len : nat) (new_str : string) (sleep_dur : Z)
  (n : nat) :
  forall (st st' : list string * list string * nat) (w w' : world),
    in_step plist_len st ->
    turns n plist_len new_str sleep_dur st w = (Ok st', w') ->
    in_step plist_len st'.
Proof.
  induction n as [|m IH]; intros [[rl best] rc] st' w w' Hin H.
  - cbn in H. injection H as <- <-. exact Hin.
  - cbn [turns] in H.
    destruct (Nat.eqb_spec (List.length rl) plist_len) as [Heq|Hne];
      cbn [negb] in H.
    + injection H as <- <-. exact Hin.
    + unfold bind in H. rewrite retry_once_run in H.
      destruct (ChatGPTAPI.translate_and_split_lines new_str
                  (after_sleep sleep_dur w)) as [[cn|e] w1]; [|discriminate].
      eapply IH; [|exact H].
      cbn [in_step]. apply replaces_keeps_step. cbn [in_step] in Hin. tauto.
Qed.

(** The count of retries: one for every turn, and every turn is taken as
    long as [result_list] has the wrong length. *)
Lemma turns_count (plist_len : nat) (new_str : string) (sleep_dur : Z)
  (n : nat) :
  forall (rl best rl' best' : list string) (rc rc' : nat) (w w' : world),
    turns n plist_len new_str sleep_dur (rl, best, rc) w
    = (Ok (rl', best', rc'), w') ->
    rc <= rc' <= rc + n
    /\ (List.length rl' <> plist_len -> rc' = rc + n)
    /\ (List.length rl <> plist_len -> 0 < n -> rc < rc').
Proof.
  induction n as [|m IH]; intros rl best rl' best' rc rc' w w' H.
  - cbn in H. injection H as <- <- <- <-. lia.
  - cbn [turns] in H.
    destruct (Nat.eqb_spec (List.length rl) plist_len) as [Heq|Hne];
      cbn [negb] in H.
    + injection H as <- <- <- <-. lia.
    + unfold bind in H. rewrite retry_once_run in H.
      destruct (ChatGPTAPI.translate_and_split_lines new_str
                  (after_sleep sleep_dur w)) as [[cn|e] w1]; [|discriminate].
      apply IH in H. lia.
Qed.

Lemma tie_break_distance (plist_len : nat) (best cn : list string) :
  let best' :=
    if ChatGPTAPI.replaces plist_len best cn then cn else best in
  (~ (List.length best' < plist_len /\ plist_len < List.length best) ->
   distance plist_len best' <= distance plist_len best)
  /\ (plist_len < List.length best -> List.length best' <= List.length best).
Proof.
  cbv zeta. unfold distance.
  destruct (ChatGPTAPI.replaces plist_len best cn) eqn:E; [|lia].
  apply replaces_spec in E. lia.
Qed.

(** ** A backend that answers *)

Lemma rich_raises_later (w w' : world) (s : string) :
  rich_error w' = rich_error w -> rich_raises w' s = rich_raises w s.
Proof. intros H. unfold rich_raises. now rewrite H. Qed.

Lemma responsive_later (w w' : world) :
  responsive w -> backend w' = backend w -> rich_error w' = rich_error w ->
  calls w <= calls w' ->
  responsive w'.
Proof.
  intros H Hb Hr Hc n text Hn. rewrite Hb.
  destruct (H n text ltac:(lia)) as (c & t & tr & H1 & H2 & H3).
  exists c, t, tr. split; [exact H1|]. split; [exact H2|].
  intros E. rewrite (rich_raises_later w w' _ Hr). now apply H3.
Qed.

Lemma translate_and_split_lines_responsive (text : string) (w : world) :
  responsive w ->
  exists (cn : list string) (w' : world),
    ChatGPTAPI.translate_and_split_lines text w = (Ok cn, w')
    /\ responsive w' /\ rich_error w' = rich_error w
    /\ buglog w' = buglog w /\ calls w' = S (calls w).
Proof.
  intros H.
  destruct (H (calls w) text (le_n _)) as (c & t & tr & Hb & Hr & Hl).
  pose proof (get_translation_reads text w c t tr Hb Hr Hl) as Hg.
  apply translate_quiet in Hg.
  unfold ChatGPTAPI.translate_and_split_lines, bind. rewrite Hg.
  eexists _, _. split; [reflexivity|]. split; [|now repeat split].
  apply (responsive_later w); [exact H|reflexivity|reflexivity|cbn; lia].
Qed.

(** With a backend that answers, the loop returns, and every retry is one
    backend call. *)
Lemma turns_responsive (plist_len : nat) (new_str : string) (sleep_dur : Z)
  (n : nat) :
  forall (rl best : list string) (rc : nat) (w : world),
    responsive w ->
    exists rl' best' rc' w',
      turns n plist_len new_str sleep_dur (rl, best, rc) w
      = (Ok (rl', best', rc'), w')
      /\ responsive w' /\ rich_error w' = rich_error w
      /\ buglog w' = buglog w
      /\ calls w' + rc = calls w + rc'.
Proof.
  induction n as [|m IH]; intros rl best rc w H.
  - exists rl, best, rc, w. split; [reflexivity|]. now repeat split.
  - cbn [turns]. destruct (negb (List.length rl =? plist_len)%nat).
    + unfold bind. rewrite retry_once_run.
      assert (Hs : responsive (after_sleep sleep_dur w))
        by (apply (responsive_later w); [exact H|reflexivity|reflexivity|cbn; lia]).
      destruct (translate_and_split_lines_responsive new_str _ Hs)
        as (cn & w1 & -> & H1 & Hrich & Hlog & Hcalls).
      destruct (IH cn
                   (if ChatGPTAPI.replaces plist_len best cn then cn else best)
                   (rc + 1) w1 H1)
        as (rl' & best' & rc' & w' & -> & H' & Hrich' & Hlog' & Hcalls').
      exists rl', best', rc', w'. split; [reflexivity|]. split; [exact H'|].
      split; [now rewrite Hrich', Hrich|].
      split; [now rewrite Hlog', Hlog|].
      cbn [after_sleep calls] in Hcalls. lia.
    + exists rl, best, rc, w. split; [reflexivity|]. now repeat split.
Qed.

Lemma get_best_result_list_responsive (plist_len : nat) (new_str : string)
  (sleep_dur : Z) (rl : list string) (max_retries : nat) (w : world) :
  responsive w ->
  exists best rc w',
    ChatGPTAPI.get_best_result_list plist_len new_str sleep_dur rl max_retries w
    = (Ok (best, rc), w')
    /\ rc <= max_retries
    /\ (List.length best <> plist_len -> rc = max_retries)
    /\ (List.length rl <> plist_len -> 0 < max_retries -> 0 < rc)
    /\ responsive w' /\ rich_error w' = rich_error w
    /\ buglog w' = buglog w
    /\ calls w' = calls w + rc.
Proof.
  intros H. rewrite get_best_result_list_turns.
  destruct (Nat.eqb_spec (List.length rl) plist_len) as [Heq|Hne].
  - exists rl, 0, w. repeat split; auto; try lia.
  - destruct (turns_responsive plist_len new_str sleep_dur max_retries
                rl rl 0 w H)
      as (rl' & best & rc & w' & Ht & H' & Hrich & Hlog & Hcalls).
    rewrite Ht. exists best, rc, w'.
    pose proof (turns_count _ _ _ _ _ _ _ _ _ _ _ _ Ht) as (Hc1 & Hc2 & Hc3).
    assert (Hin : in_step plist_len (rl', best, rc)).
    { eapply turns_in_step; [|exact Ht]. cbn. tauto. }
    cbn [in_step] in Hin. cbn [Nat.add] in *.
    repeat split; auto; try lia.
Qed.

(** ** The claims on the retry loop *)

(** C1. The tie-break rule.  A turn of the loop that gets the candidate
    [cn] puts it in the place of [best] when [cn] has the expected length,
    or is longer than [best] without being longer than expected, or is
    shorter than a [best] that is longer than expected; in every other case
    [best] stays.  With five paragraphs expected and candidates of seven,
    six and eight lines, two retries end with the candidate of six lines. *)
Theorem tie_break_rule :
  (forall (plist_len : nat) (new_str : string) (sleep_dur : Z)
          (result_list best : list string) (retry_count : nat) (w : world)
          (cn best' : list string) (retry_count' : nat) (w' : world),
      ChatGPTAPI.retry_once plist_len new_str sleep_dur
                            (result_list, best, retry_count) w
      = (Ok (cn, best', retry_count'), w') ->
      ChatGPTAPI.translate_and_split_lines new_str (after_sleep sleep_dur w)
      = (Ok cn, w')
      /\ retry_count' = retry_count + 1
      /\ ((List.length cn = plist_len
           \/ (List.length best < List.length cn
               /\ List.length cn <= plist_len)
           \/ (List.length cn < List.length best
               /\ List.length best > plist_len)) ->
          best' = cn)
      /\ (~ (List.length cn = plist_len
             \/ (List.length best < List.length cn
                 /\ List.length cn <= plist_len)
             \/ (List.length cn < List.length best
                 /\ List.length best > plist_len)) ->
          best' = best))
  /\ (forall (new_str : string) (sleep_dur : Z) (w w1 w2 : world)
             (c0 c1 c2 : list string),
        List.length c0 = 7 -> List.length c1 = 6 -> List.length c2 = 8 ->
        ChatGPTAPI.translate_and_split_lines new_str (after_sleep sleep_dur w)
        = (Ok c1, w1) ->
        ChatGPTAPI.translate_and_split_lines new_str (after_sleep sleep_dur w1)
        = (Ok c2, w2) ->
        ChatGPTAPI.get_best_result_list 5 new_str sleep_dur c0 2 w
        = (Ok (c1, 2), w2)).
Proof.
  split.
  - intros plist_len new_str sleep_dur rl best rc w cn best' rc' w' H.
    apply retry_once_ok in H as (Ht & Hrc & Hb).
    split; [exact Ht|]. split; [exact Hrc|].
    destruct (ChatGPTAPI.replaces plist_len best cn) eqn:E.
    + split; [intros _; exact Hb|].
      intros Hn. exfalso. apply Hn. apply replaces_spec in E.
      unfold gt. exact E.
    + split; [|intros _; exact Hb].
      intros Hc. assert (E' : ChatGPTAPI.replaces plist_len best cn = true)
        by (apply replaces_spec; unfold gt in Hc; exact Hc).
      congruence.
  - intros new_str sleep_dur w w1 w2 c0 c1 c2 H0 H1 H2 Ht1 Ht2.
    rewrite get_best_result_list_turns, H0. cbn [Nat.eqb].
    cbn [turns]. rewrite H0. cbn [Nat.eqb negb].
    unfold bind at 1. rewrite retry_once_run, Ht1.
    rewrite H1. cbn [Nat.eqb negb].
    unfold bind at 1. rewrite retry_once_run, Ht2.
    unfold ChatGPTAPI.replaces. rewrite H0, H1. cbn.
    rewrite H1, H2. cbn. reflexivity.
Qed.

Lemma tie_break_rule_witness :
  (ChatGPTAPI.translate_and_split_lines "request"
     (after_sleep 6
        (scripted [reply (sample 6); reply (sample 8)]
                  (Raises (APIError "down"))))
   = (Ok (sample 6),
      after_call
        (after_sleep 6
           (scripted [reply (sample 6); reply (sample 8)]
                     (Raises (APIError "down"))))
        false "request")
   /\ 1 = 0 + 1
   /\ ((List.length (sample 6) = 5
        \/ (List.length (sample 7) < List.length (sample 6)
            /\ List.length (sample 6) <= 5)
        \/ (List.length (sample 6) < List.length (sample 7)
            /\ List.length (sample 7) > 5)) ->
       sample 6 = sample 6)
   /\ (~ (List.length (sample 6) = 5
          \/ (List.length (sample 7) < List.length (sample 6)
              /\ List.length (sample 6) <= 5)
          \/ (List.length (sample 6) < List.length (sample 7)
              /\ List.length (sample 7) > 5)) ->
       sample 6 = sample 7))
  /\ ChatGPTAPI.get_best_result_list 5 "request" 6 (sample 7) 2
       (scripted [reply (sample 6); reply (sample 8)]
                 (Raises (APIError "down")))
     = (Ok (sample 6, 2),
        after_call
          (after_sleep 6
             (after_call
                (after_sleep 6
                   (scripted [reply (sample 6); reply (sample 8)]
                             (Raises (APIError "down"))))
                false "request"))
          false "request").
Proof.
  split.
  - refine (proj1 tie_break_rule 5 "request" 6%Z (sample 7) (sample 7) 0
              (scripted [reply (sample 6); reply (sample 8)]
                        (Raises (APIError "down")))
              (sample 6) (sample 6) 1 _ _).
    reflexivity.
  - refine (proj2 tie_break_rule "request" 6%Z
              (scripted [reply (sample 6); reply (sample 8)]
                        (Raises (APIError "down")))
              _ _ (sample 7) (sample 6) (sample 8) _ _ _ _ _);
      reflexivity.
Defined.

(** C4, as the code has it.  A first candidate of the expected length is
    returned at once, with no retry and no effect.  There is no case of its
    own for an expected length of zero: whenever the first candidate has
    another length than expected and the budget is not zero, a backend that
    answers is asked again at least once. *)
Theorem exact_first_candidate (plist_len : nat) (new_str : string)
  (sleep_dur : Z) (c0 : list string) (max_retries : nat) (w : world) :
  (List.length c0 = plist_len ->
   ChatGPTAPI.get_best_result_list plist_len new_str sleep_dur c0 max_retries w
   = (Ok (c0, 0), w))
  /\ (List.length c0 <> plist_len -> 0 < max_retries -> responsive w ->
      exists best retry_count w',
        ChatGPTAPI.get_best_result_list plist_len new_str sleep_dur c0
                                        max_retries w
        = (Ok (best, retry_count), w')
        /\ 0 < retry_count <= max_retries
        /\ calls w' = calls w + retry_count).
Proof.
  split.
  - intros H. unfold ChatGPTAPI.get_best_result_list.
    apply Nat.eqb_eq in H. now rewrite H.
  - intros Hne Hmax Hr.
    destruct (get_best_result_list_responsive plist_len new_str sleep_dur c0
                max_retries w Hr)
      as (best & rc & w' & Hg & Hle & _ & Hpos & _ & _ & _ & Hcalls).
    exists best, rc, w'. split; [exact Hg|]. split; [|exact Hcalls].
    split; [now apply Hpos|exact Hle].
Qed.

Lemma steady_responsive (lines : list string) :
  responsive (scripted [] (reply lines)).
Proof.
  intros n text _. exists (completion_of (Str.join nl lines) "stop").
  exists (Str.join nl lines), false. split; [now destruct n|].
  split; [reflexivity|discriminate].
Qed.

Lemma exact_first_candidate_witness :
  ChatGPTAPI.get_best_result_list 2 "request" 6 ["un"; "deux"] 15
    (scripted [] (Raises (APIError "down")))
  = (Ok (["un"; "deux"], 0), scripted [] (Raises (APIError "down")))
  /\ exists best retry_count w',
       ChatGPTAPI.get_best_result_list 2 "request" 6 ["un deux"] 15
         (scripted [] (reply ["un deux"]))
       = (Ok (best, retry_count), w')
       /\ 0 < retry_count <= 15
       /\ calls w' = calls (scripted [] (reply ["un deux"])) + retry_count.
Proof.
  split.
  - apply (proj1 (exact_first_candidate 2 "request" 6 ["un"; "deux"] 15
                    (scripted [] (Raises (APIError "down"))))).
    reflexivity.
  - apply (proj2 (exact_first_candidate 2 "request" 6 ["un deux"] 15
                    (scripted [] (reply ["un deux"])))).
    + simpl. lia.
    + lia.
    + apply steady_responsive.
Defined.

(** C4 as stated fails for an expected length of zero: with no paragraph
    expected and a first candidate of one line, the loop runs to the end of
    its budget of fifteen retries. *)
Lemma zero_expected_still_retries :
  let w := scripted [] (reply ["Please provide the text."]) in
  (0 = 0 \/ List.length ["What should I translate?"] = 0)
  /\ fst (ChatGPTAPI.get_best_result_list 0 EmptyString 6
            ["What should I translate?"] 15 w)
     = Ok (["What should I translate?"], 15)
  /\ calls (snd (ChatGPTAPI.get_best_result_list 0 EmptyString 6
                   ["What should I translate?"] 15 w)) = 15
  /\ ChatGPTAPI.get_best_result_list 0 EmptyString 6
       ["What should I translate?"] 15 w
     <> (Ok (["What should I translate?"], 0), w).
Proof.
  cbv zeta. split; [now left|]. split; [vm_compute; reflexivity|].
  split; [vm_compute; reflexivity|].
  intros H. apply (f_equal fst) in H. vm_compute in H. discriminate H.
Qed.

(** C3, as the code has it.  Between the best candidate after [k] retries
    and the one after [k + 1]: the distance to the expected length does not
    grow, unless the earlier one was too long and the later one is too
    short, which the rule lets through whatever the distance; a best
    candidate that is too long is never replaced by a longer one; and an
    exact one is final. *)
Theorem best_candidate_drift (plist_len : nat) (new_str : string)
  (sleep_dur : Z) (result_list : list string) (k : nat) (w : world)
  (best' : list string) (retry_count' : nat) (w' : world) :
  ChatGPTAPI.get_best_result_list plist_len new_str sleep_dur result_list
                                  (S k) w
  = (Ok (best', retry_count'), w') ->
  exists best retry_count w0,
    ChatGPTAPI.get_best_result_list plist_len new_str sleep_dur result_list k w
    = (Ok (best, retry_count), w0)
    /\ (~ (List.length best' < plist_len /\ plist_len < List.length best) ->
        distance plist_len best' <= distance plist_len best)
    /\ (plist_len < List.length best ->
        List.length best' <= List.length best)
    /\ (List.length best = plist_len ->
        best' = best /\ retry_count' = retry_count /\ w' = w0).
Proof.
  rewrite !get_best_result_list_turns.
  destruct (Nat.eqb_spec (List.length result_list) plist_len) as [Heq|Hne].
  - intros H. injection H as <- <- <-.
    exists result_list, 0, w. repeat split; auto.
  - rewrite turns_snoc. unfold bind at 1.
    destruct (turns k plist_len new_str sleep_dur
                (result_list, result_list, 0) w)
      as [[[[rl1 best] rc]|e] w0] eqn:Ek; [|discriminate].
    assert (Hin : in_step plist_len (rl1, best, rc)).
    { eapply turns_in_step; [|exact Ek]. cbn. tauto. }
    cbn [in_step] in Hin. cbn [turns].
    destruct (Nat.eqb_spec (List.length rl1) plist_len) as [Heq1|Hne1];
      cbn [negb].
    + unfold ret. intros H. injection H as <- <- <-.
      exists best, rc, w0. repeat split; auto.
    + rewrite bind_ret_r, retry_once_run.
      destruct (ChatGPTAPI.translate_and_split_lines new_str
                  (after_sleep sleep_dur w0)) as [[cn|e] w1]; [|discriminate].
      intros H. injection H as <- <- <-.
      exists best, rc, w0. split; [reflexivity|].
      pose proof (tie_break_distance plist_len best cn) as [Hd Hl].
      split; [exact Hd|]. split; [exact Hl|]. intros Hb. tauto.
Qed.

Lemma best_candidate_drift_witness :
  exists best retry_count w0,
    ChatGPTAPI.get_best_result_list 5 "request" 6 (sample 3) 1
      (scripted [reply (sample 4); reply (sample 2)] (Raises (APIError "down")))
    = (Ok (best, retry_count), w0)
    /\ (~ (List.length (sample 4) < 5 /\ 5 < List.length best) ->
        distance 5 (sample 4) <= distance 5 best)
    /\ (5 < List.length best -> List.length (sample 4) <= List.length best)
    /\ (List.length best = 5 ->
        sample 4 = best /\ 2 = retry_count
        /\ snd (ChatGPTAPI.get_best_result_list 5 "request" 6 (sample 3) 2
                  (scripted [reply (sample 4); reply (sample 2)]
                            (Raises (APIError "down")))) = w0).
Proof.
  refine (best_candidate_drift 5 "request" 6 (sample 3) 1
            (scripted [reply (sample 4); reply (sample 2)]
                      (Raises (APIError "down")))
            (sample 4) 2 _ _).
  vm_compute. reflexivity.
Defined.

(** C3 as stated fails: five paragraphs are expected and the best candidate
    has six lines, at distance one; the next candidate has one line, is
    shorter than a best candidate that is too long, and takes its place, at
    distance four. *)
Lemma distance_can_grow :
  let w := scripted [reply ["all in one line"]] (Raises (APIError "down")) in
  fst (ChatGPTAPI.get_best_result_list 5 "request" 6 (sample 6) 0 w)
  = Ok (sample 6, 0)
  /\ fst (ChatGPTAPI.get_best_result_list 5 "request" 6 (sample 6) 1 w)
     = Ok (["all in one line"], 1)
  /\ fst (ChatGPTAPI.retry_once 5 "request" 6 (sample 6, sample 6, 0) w)
     = Ok (["all in one line"], ["all in one line"], 1)
  /\ distance 5 (sample 6) = 1
  /\ distance 5 ["all in one line"] = 4
  /\ ~ distance 5 ["all in one line"] <= distance 5 (sample 6).
Proof.
  cbv zeta. repeat split; try (vm_compute; reflexivity).
  vm_compute. lia.
Qed.

Lemma has_char_app (c : ascii) (a b : string) :
  has_char c (a ++ b) = has_char c a || has_char c b.
Proof.
  induction a as [|x a IH]; [reflexivity|].
  cbn [append has_char]. now rewrite IH, orb_assoc.
Qed.

(** ** What rich lets through *)

Lemma rich_raises_plain (w : world) (s : string) :
  has_char "[" s = false -> rich_raises w s = None.
Proof. intros H. unfold rich_raises. now rewrite H. Qed.

Lemma has_char_uint (c : ascii) (d : Decimal.uint) :
  Str.isdigit c = false ->
  has_char c (NilEmpty.string_of_uint d) = false.
Proof.
  intros Hc.
  assert (Hd : forall x, Str.isdigit x = true -> Ascii.eqb x c = false).
  { intros x Hx. destruct (Ascii.eqb_spec x c) as [->|]; congruence. }
  induction d as [|d IH|d IH|d IH|d IH|d IH|d IH|d IH|d IH|d IH|d IH];
    [reflexivity|..];
    cbn [NilEmpty.string_of_uint has_char]; rewrite IH, orb_false_r;
    now apply Hd.
Qed.

Lemma has_char_of_nat (n : nat) : has_char "[" (Str.of_nat n) = false.
Proof. now apply has_char_uint. Qed.



Lemma printable_later (w w' : world) (es : list log_entry) :
  rich_error w' = rich_error w -> printable w es -> printable w' es.
Proof.
  intros Hr H. eapply Forall_impl; [|exact H].
  intros e He. now rewrite (rich_raises_later w w' _ Hr).
Qed.

Lemma after_log_app (es1 es2 : list log_entry) (w : world) :
  after_log es2 (after_log es1 w) = after_log (es1 ++ es2) w.
Proof. unfold after_log. cbn. now rewrite app_assoc. Qed.

Lemma after_log_nil (w : world) : after_log [] w = w.
Proof. destruct w. unfold after_log. cbn. now rewrite app_nil_r. Qed.

Lemma print_buglog_ok (e : log_entry) (w : world) :
  rich_raises w (entry_text e) = None ->
  print_buglog e w = (Ok tt, after_log [e] w).
Proof. intros H. unfold print_buglog. now rewrite H. Qed.

(** A record that rich lets through is written whole. *)
Lemma append_buglog_ok (es : list log_entry) :
  forall w : world,
    printable w es -> append_buglog es w = (Ok tt, after_log es w).
Proof.
  induction es as [|e rest IH]; intros w H.
  - cbn. unfold ret. now rewrite after_log_nil.
  - inversion H as [|? ? He Hrest]; subst.
    cbn [append_buglog]. unfold bind. rewrite (print_buglog_ok e w He).
    rewrite IH by (now apply (printable_later w)).
    now rewrite after_log_app.
Qed.

(** The first line that rich refuses ends the record: what stood before it
    is in the file, the exception leaves the function. *)
Lemma append_buglog_raises (written rest : list log_entry) (x : log_entry)
  (e : exn) :
  forall w : world,
    printable w written -> rich_raises w (entry_text x) = Some e ->
    append_buglog (written ++ x :: rest) w = (Exn e, after_log written w).
Proof.
  induction written as [|y ys IH]; intros w H Hx.
  - cbn [app append_buglog]. unfold bind, print_buglog. rewrite Hx.
    now rewrite after_log_nil.
  - inversion H as [|? ? Hy Hys]; subst.
    cbn [app append_buglog]. unfold bind. rewrite (print_buglog_ok y w Hy).
    rewrite IH; [now rewrite after_log_app| |exact Hx].
    now apply (printable_later w).
Qed.

(** [log_retry] with a state that holds no bracket, as the two states of
    [translate_list] are. *)
Lemma log_retry_run (state : string) (retry_count : nat) (w : world) :
  has_char "[" state = false ->
  ChatGPTAPI.log_retry state retry_count w =
  (Ok tt,
   if (retry_count =? 0)%nat then w
   else after_log [RetryLine state retry_count] w).
Proof.
  intros Hs. unfold ChatGPTAPI.log_retry.
  destruct (retry_count =? 0)%nat; [reflexivity|].
  unfold bind, console_print.
  rewrite rich_raises_plain by (now rewrite has_char_app, Hs).
  apply append_buglog_ok. constructor; [|constructor].
  apply rich_raises_plain. cbn [entry_text].
  now rewrite !has_char_app, Hs, has_char_of_nat.
Qed.

(** A best candidate of the wrong length has cost the whole budget. *)
Lemma get_best_result_list_spent (plist_len : nat) (new_str : string)
  (sleep_dur : Z) (c0 : list string) (max_retries : nat) (w : world)
  (best : list string) (retry_count : nat) (w' : world) :
  ChatGPTAPI.get_best_result_list plist_len new_str sleep_dur c0 max_retries w
  = (Ok (best, retry_count), w') ->
  List.length best <> plist_len -> retry_count = max_retries.
Proof.
  rewrite get_best_result_list_turns.
  destruct (Nat.eqb_spec (List.length c0) plist_len) as [Heq|Hne].
  - intros H. injection H as <- <- <-. contradiction.
  - destruct (turns max_retries plist_len new_str sleep_dur (c0, c0, 0) w)
      as [[[[rl' best'] rc]|e] w1] eqn:Et; [|discriminate].
    intros H. injection H as <- <- <-. intros Hb.
    pose proof (turns_count _ _ _ _ _ _ _ _ _ _ _ _ Et) as (_ & Hc & _).
    assert (Hin : in_step plist_len (rl', best', rc)).
    { eapply turns_in_step; [|exact Et]. cbn. tauto. }
    cbn [in_step] in Hin. apply Hc. tauto.
Qed.

(** C2, the defect.  A wrong number of lines can end in an exception.  The
    record of the mismatch goes to [log/buglog.txt] line by line through
    the print of rich, and its lines are pieces of the request and lines
    of the backend's answer.  When rich refuses one of them,
    [translate_list] raises instead of returning the best candidate that
    [get_best_result_list] has just returned after all of its retries; the
    log keeps the line of the failed retries and the lines of the record up
    to the refused one. *)
Theorem mismatch_log_raises (plist : list Soup.node) (w w0 w1 : world)
  (c0 best : list string) (retry_count : nat)
  (written rest : list log_entry) (x : log_entry) (e : exn) :
  ChatGPTAPI.translate_and_split_lines (build_request plist) w = (Ok c0, w0) ->
  ChatGPTAPI.get_best_result_list (List.length plist) (build_request plist)
                                  6 c0 15 w0
  = (Ok (best, retry_count), w1) ->
  List.length best <> List.length plist ->
  mismatch_record (List.length plist) best (build_request plist) sep
  = (written ++ x :: rest)%list ->
  printable w1 written ->
  rich_raises w1 (entry_text x) = Some e ->
  retry_count = 15
  /\ translate_list plist w
     = (Exn e, after_log (RetryLine "fail" 15 :: written) w1).
Proof.
  intros H0 H1 Hne Hrec Hw Hx.
  pose proof (get_best_result_list_spent _ _ _ _ _ _ _ _ _ H1 Hne) as ->.
  split; [reflexivity|].
  unfold translate_list. unfold bind at 1. rewrite H0.
  unfold bind at 1. rewrite H1.
  apply Nat.eqb_neq in Hne. rewrite Hne. cbn [negb].
  unfold bind at 1. rewrite log_retry_run by reflexivity. cbn [Nat.eqb].
  unfold bind at 1. unfold log_translation_mismatch. rewrite Hne, Hrec.
  rewrite (append_buglog_raises written rest x e);
    [now rewrite after_log_app| |exact Hx].
  now apply (printable_later w1).
Qed.

Lemma mismatch_log_raises_witness :
  fst (translate_list
         [Soup.Tag "p" [Soup.NavigableString "Hello"];
          Soup.Tag "p" [Soup.NavigableString "World"]]
         (with_rich (refuses "[/b]")
            (scripted [] (reply ["(1) Bonjour [/b] le monde"]))))
  = Exn MarkupError
  /\ buglog (snd (translate_list
                    [Soup.Tag "p" [Soup.NavigableString "Hello"];
                     Soup.Tag "p" [Soup.NavigableString "World"]]
                    (with_rich (refuses "[/b]")
                       (scripted [] (reply ["(1) Bonjour [/b] le monde"])))))
     = [RetryLine "fail" 15; Printed "problem size: 1"; Printed "(1) Hello";
        Printed EmptyString; Printed dots]
  /\ calls (snd (translate_list
                   [Soup.Tag "p" [Soup.NavigableString "Hello"];
                    Soup.Tag "p" [Soup.NavigableString "World"]]
                   (with_rich (refuses "[/b]")
                      (scripted [] (reply ["(1) Bonjour [/b] le monde"])))))
     = 16.
Proof.
  pose (plist := [Soup.Tag "p" [Soup.NavigableString "Hello"];
                  Soup.Tag "p" [Soup.NavigableString "World"]]).
  pose (w := with_rich (refuses "[/b]")
               (scripted [] (reply ["(1) Bonjour [/b] le monde"]))).
  pose (w0 := snd (ChatGPTAPI.translate_and_split_lines
                     (build_request plist) w)).
  pose (w1 := snd (ChatGPTAPI.get_best_result_list 2 (build_request plist) 6
                     ["(1) Bonjour [/b] le monde"] 15 w0)).
  destruct (mismatch_log_raises plist w w0 w1
              ["(1) Bonjour [/b] le monde"] ["(1) Bonjour [/b] le monde"] 15
              [Printed "problem size: 1"; Printed "(1) Hello";
               Printed EmptyString; Printed dots]
              [Printed EmptyString; Printed rule; Printed "(2) World";
               Printed EmptyString; Printed rule]
              (Printed "(1) Bonjour [/b] le monde") MarkupError)
    as [_ Ht].
  - vm_compute. reflexivity.
  - vm_compute. reflexivity.
  - vm_compute. discriminate.
  - vm_compute. reflexivity.
  - repeat constructor.
  - vm_compute. reflexivity.
  - fold plist w. rewrite Ht. vm_compute. repeat split.
Defined.



(** The same run, evaluated: two paragraphs, a backend that answers with
    one line every time, fifteen retries, and the log. *)
Example mismatch_run :
  let w := scripted [] (reply ["(1) Bonjour le monde"]) in
  let plist := [Soup.Tag "p" [Soup.NavigableString "Hello"];
                Soup.Tag "p" [Soup.NavigableString "World"]] in
  fst (translate_list plist w) = Ok ["Bonjour le monde"]
  /\ calls (snd (translate_list plist w)) = 16
  /\ buglog (snd (translate_list plist w)) =
     [RetryLine "fail" 15; Printed "problem size: 1";
      Printed "(1) Hello"; Printed EmptyString; Printed dots;
      Printed "(1) Bonjour le monde"; Printed EmptyString; Printed rule;
      Printed "(2) World"; Printed EmptyString; Printed rule].
Proof. cbv zeta. repeat split; vm_compute; reflexivity. Qed.

(** ** Checks on concrete inputs *)

Example split_examples :
  Str.split nl ("a" ++ nl ++ nl ++ "b ") = ["a"; EmptyString; "b "]
  /\ Str.split nl EmptyString = [EmptyString]
  /\ Str.split "XX" "aXXXb" = ["a"; "Xb"]
  /\ Str.strip ("  a b " ++ cr ++ nl) = "a b"
  /\ Str.replace "^M" cr "a^^M^MM" = "a^" ++ cr ++ cr ++ "M"
  /\ Str.of_nat 0 = "0" /\ Str.of_nat 12 = "12" /\ Str.of_Z (-3) = "-3".
Proof. repeat split. Qed.

Example squeeze_newlines_example :
  Re.squeeze_newlines
    ("a" ++ nl ++ nl ++ nl ++ nl ++ "b" ++ nl ++ nl ++ "c" ++ nl ++ nl ++ nl)
  = "a" ++ nl ++ nl ++ "b" ++ nl ++ nl ++ "c" ++ nl ++ nl.
Proof. reflexivity. Qed.

Example sub_enum_examples :
  Re.sub_enum "(12)  ab" = "ab" /\ Re.sub_enum "3. x" = "x"
  /\ Re.sub_enum "12a" = "a" /\ Re.sub_enum "(1 2" = "(1 2"
  /\ Re.sub_enum "(a) b" = "(a) b" /\ Re.sub_enum " 1. x" = " 1. x".
Proof. repeat split. Qed.

Example join_lines_example :
  join_lines ("a " ++ nl ++ " b" ++ nl ++ " " ++ nl ++ nl ++ "c^M")
  = "a b" ++ nl ++ " " ++ nl ++ nl ++ "c" ++ cr.
Proof. reflexivity. Qed.

Example build_request_example :
  build_request
    [Soup.Tag "p" [Soup.NavigableString " a";
                   Soup.Tag "sup" [Soup.NavigableString "1"];
                   Soup.Tag "b" [Soup.NavigableString ("b" ++ nl ++ "c");
                                 Soup.Tag "sup" []]];
     Soup.Tag "p" [Soup.NavigableString "d"]]
  = "(1) ab c" ++ sep ++ "(2) d".
Proof. reflexivity. Qed.

(** Expected five, candidates of three, four, four and five lines: the
    third retry brings the exact candidate. *)
Example scenario_3_4_4_5 :
  fst (ChatGPTAPI.get_best_result_list 5 "request" 6 (sample 3) 3
         (scripted [reply (sample 4); reply (sample 4); reply (sample 5)]
                   (Raises (APIError "down"))))
  = Ok (sample 5, 3).
Proof. vm_compute. reflexivity. Qed.

(** A backend that echoes the three packed paragraphs: no retry, and the
    markers are stripped from the lines that come back. *)
Example echo_round_trip :
  let plist := [Soup.Tag "p" [Soup.NavigableString "a"];
                Soup.Tag "p" [Soup.NavigableString "b"];
                Soup.Tag "p" [Soup.NavigableString "c"]] in
  let w := mkWorld 2 (fun _ text => Returns (completion_of text "stop"))
                   0 0 [] [] [] accepts_all in
  fst (translate_list plist w) = Ok ["a"; "b"; "c"]
  /\ calls (snd (translate_list plist w)) = 1
  /\ buglog (snd (translate_list plist w)) = [].
Proof. cbv zeta. repeat split; vm_compute; reflexivity. Qed.

(** * More properties of the code *)

(** ** Splitting and joining *)

Lemma split_char_cons (c a : ascii) (r : string) :
  Str.split (String c EmptyString) (String a r) =
  if Ascii.eqb a c then EmptyString :: Str.split (String c EmptyString) r
  else match Str.split (String c EmptyString) r with
       | h :: t => String a h :: t
       | [] => [String a EmptyString]
       end.
Proof.
  unfold Str.split. cbn [Str.split_go prefix String.length Nat.sub].
  destruct (ascii_dec c a) as [e|n].
  - subst a. rewrite prefix_empty, Ascii.eqb_refl. reflexivity.
  - destruct (Ascii.eqb_spec a c) as [e|_]; [congruence|reflexivity].
Qed.

Lemma split_char_length (c : ascii) (s : string) :
  List.length (Str.split (String c EmptyString) s) = S (count_char c s).
Proof.
  induction s as [|a r IH]; [reflexivity|].
  rewrite split_char_cons. cbn [count_char].
  destruct (Ascii.eqb a c); cbn [List.length Nat.add]; [now rewrite IH|].
  pose proof (split_go_not_nil (String c EmptyString) r 0) as Hne.
  unfold Str.split in *.
  destruct (Str.split_go (String c EmptyString) 0 r); [congruence|exact IH].
Qed.

(** X1. The number of keys is one more than the number of commas of the key
    string, so it is never zero: an empty key string counts as one key, and
    a comma at the end adds one. *)
Theorem key_len_counts_commas (key : string) :
  key_len_of key = S (count_char ","%char key)
  /\ 1 <= key_len_of key
  /\ Pos.to_nat (Pos.of_nat (key_len_of key)) = key_len_of key
  /\ key_len_of (key ++ ",") = S (key_len_of key).
Proof.
  unfold key_len_of. rewrite !(split_char_length ","%char).
  split; [reflexivity|]. split; [lia|]. split; [apply Nat2Pos.id; lia|].
  f_equal. induction key as [|a r IH]; [reflexivity|].
  cbn [append count_char]. now rewrite IH.
Qed.

(** X2. The pause of [translate] after a failed attempt is a whole number of
    seconds between 0 and 60: sixty with one key, and none at all once
    there are more than sixty keys. *)
Theorem sleep_time_range (w : world) :
  (0 <= ChatGPTAPI.sleep_time w <= 60)%Z
  /\ (ChatGPTAPI.sleep_time w = 0%Z <-> (60 < Z.pos (key_len w))%Z)
  /\ (key_len w = 1%positive -> ChatGPTAPI.sleep_time w = 60%Z)
  /\ (ChatGPTAPI.sleep_time w * Z.pos (key_len w) <= 60)%Z.
Proof.
  unfold ChatGPTAPI.sleep_time.
  pose proof (Pos2Z.is_pos (key_len w)) as Hp.
  split; [split|split; [|split]].
  - apply Z.div_pos; lia.
  - apply Z.div_le_upper_bound; lia.
  - rewrite Z.div_small_iff by lia. lia.
  - intros ->. reflexivity.
  - rewrite Z.mul_comm. apply Z.mul_div_le. lia.
Qed.

Lemma sleep_time_range_witness :
  ChatGPTAPI.sleep_time (scripted [] (Raises (APIError "down"))) = 60%Z.
Proof.
  apply (proj1 (proj2 (proj2 (sleep_time_range
                                (scripted [] (Raises (APIError "down"))))))).
  reflexivity.
Defined.

Lemma split_nl_whole (s : string) :
  has_char Str.LF s = false -> Str.split nl s = [s].
Proof.
  induction s as [|a r IH]; [reflexivity|].
  cbn [has_char]. intros H. apply orb_false_iff in H as [Ha Hr].
  rewrite split_nl_cons, Ha, (IH Hr). reflexivity.
Qed.

Lemma split_nl_lines (s : string) :
  Forall (fun l => has_char Str.LF l = false) (Str.split nl s).
Proof.
  induction s as [|a r IH]; [repeat constructor|].
  rewrite split_nl_cons. destruct (Ascii.eqb a Str.LF) eqn:E.
  - constructor; [reflexivity|exact IH].
  - destruct (Str.split nl r) as [|h t]; [repeat constructor; cbn; now rewrite E|].
    inversion IH as [|? ? Hh Ht]; subst.
    constructor; [cbn [has_char]; now rewrite E, Hh|exact Ht].
Qed.

Lemma split_join_nl (ls : list string) :
  ls <> [] -> Forall (fun l => has_char Str.LF l = false) ls ->
  Str.split nl (Str.join nl ls) = ls.
Proof.
  induction ls as [|x xs IH]; [congruence|]. intros _ H.
  inversion H as [|? ? Hx Hxs]; subst.
  destruct xs as [|y ys]; [now apply split_nl_whole|].
  rewrite join_cons2, split_nl_app, (split_nl_whole x Hx), IH;
    [reflexivity|discriminate|exact Hxs].
Qed.

Lemma has_char_lstrip (c : ascii) (s : string) :
  has_char c s = false -> has_char c (Str.lstrip s) = false.
Proof.
  induction s as [|a r IH]; [reflexivity|].
  cbn [has_char Str.lstrip]. intros H.
  destruct (Str.isspace a); [|exact H].
  apply orb_false_iff in H as [_ Hr]. now apply IH.
Qed.

Lemma has_char_rstrip (c : ascii) (s : string) :
  has_char c s = false -> has_char c (Str.rstrip s) = false.
Proof.
  induction s as [|a r IH]; [reflexivity|].
  cbn [has_char Str.rstrip]. intros H.
  apply orb_false_iff in H as [Ha Hr]. specialize (IH Hr).
  destruct (Str.rstrip r) as [|x y].
  - destruct (Str.isspace a); [reflexivity|]. cbn [has_char]. now rewrite Ha.
  - cbn [has_char] in *. now rewrite Ha, IH.
Qed.

Lemma has_char_strip (c : ascii) (s : string) :
  has_char c s = false -> has_char c (Str.strip s) = false.
Proof.
  intros H. unfold Str.strip. now apply has_char_rstrip, has_char_lstrip.
Qed.

Lemma split_response_lines_clean (response : string) :
  Forall clean_line (split_response response).
Proof.
  apply Forall_forall. intros line Hin.
  destruct (split_response_lines response line Hin) as [Hne Hs].
  split; [|split; assumption].
  unfold split_response in Hin. apply filter_In in Hin as [Hin _].
  apply in_map_iff in Hin as [raw [<- Hraw]].
  apply has_char_strip.
  pose proof (split_nl_lines response) as F.
  rewrite Forall_forall in F. now apply F.
Qed.

Lemma split_response_join (ls : list string) :
  Forall clean_line ls -> split_response (Str.join nl ls) = ls.
Proof.
  intros H. destruct ls as [|x xs]; [reflexivity|].
  unfold split_response. rewrite split_join_nl; [|discriminate|].
  - induction H as [|y ys [_ [Hs Hne]] _ IH]; [reflexivity|].
    cbn [map filter]. rewrite Hs.
    destruct (String.eqb_spec y EmptyString) as [e|_]; [contradiction|].
    cbn [negb]. now rewrite IH.
  - eapply Forall_impl; [|exact H]. intros l [Hl _]. exact Hl.
Qed.

Lemma translate_and_split_lines_run (text : string) (w : world) :
  ChatGPTAPI.translate_and_split_lines text w =
  match ChatGPTAPI.translate text false w with
  | (Ok response, w') => (Ok (split_response response), w')
  | (Exn e, w') => (Exn e, w')
  end.
Proof.
  unfold ChatGPTAPI.translate_and_split_lines, bind, ret.
  destruct (ChatGPTAPI.translate text false w) as [[response|e] w'];
    [|reflexivity].
  unfold split_response. now rewrite filter_map_strip.
Qed.

(** X3. Every line that [translate_and_split_lines] returns is clean: it
    holds no newline, has nothing to trim and is not empty.  On clean lines
    the splitter undoes a join by newlines: a backend that answers with
    such lines joined gets exactly these lines back as the candidate (a
    truncated answer has to get into [log/long_text.txt] first), and
    splitting a candidate joined again changes nothing. *)
Theorem split_response_round_trip :
  (forall (text : string) (w w' : world) (cn : list string),
      ChatGPTAPI.translate_and_split_lines text w = (Ok cn, w') ->
      Forall clean_line cn)
  /\ (forall (text : string) (w : world) (c : value) (ls : list string)
             (truncated : bool),
        backend w (calls w) text = Returns c ->
        ChatGPTAPI.read_completion c = Ok (Str.join nl ls, truncated) ->
        logs_truncated truncated w text ->
        Forall clean_line ls ->
        ChatGPTAPI.translate_and_split_lines text w
        = (Ok ls, after_call w truncated text))
  /\ (forall response : string,
        split_response (Str.join nl (split_response response))
        = split_response response).
Proof.
  split; [|split].
  - intros text w w' cn. rewrite translate_and_split_lines_run.
    destruct (ChatGPTAPI.translate text false w) as [[response|e] w1];
      [|discriminate].
    intros H. injection H as <- <-. apply split_response_lines_clean.
  - intros text w c ls truncated Hb Hr Hl Hc.
    rewrite translate_and_split_lines_run.
    rewrite (translate_quiet text w _ _
               (get_translation_reads text w c _ truncated Hb Hr Hl)).
    now rewrite split_response_join.
  - intros response. apply split_response_join, split_response_lines_clean.
Qed.

Lemma split_response_round_trip_witness :
  ChatGPTAPI.translate_and_split_lines "request"
    (scripted [reply ["un"; "deux mots"]] (Raises (APIError "down")))
  = (Ok ["un"; "deux mots"],
     after_call (scripted [reply ["un"; "deux mots"]] (Raises (APIError "down")))
                false "request").
Proof.
  refine (proj1 (proj2 split_response_round_trip) "request"
            (scripted [reply ["un"; "deux mots"]] (Raises (APIError "down")))
            (completion_of (Str.join nl ["un"; "deux mots"]) "stop")
            ["un"; "deux mots"] false _ _ _ _).
  - reflexivity.
  - reflexivity.
  - quiet.
  - repeat constructor; discriminate.
Defined.

Lemma all_space_lstrip (s : string) :
  all_space s = true -> Str.lstrip s = EmptyString.
Proof.
  induction s as [|a r IH]; [reflexivity|].
  cbn [all_space Str.lstrip]. intros H. apply andb_true_iff in H as [Ha Hr].
  rewrite Ha. now apply IH.
Qed.

Lemma all_space_lines (s : string) :
  all_space s = true -> Forall (fun l => all_space l = true) (Str.split nl s).
Proof.
  induction s as [|a r IH]; [repeat constructor|].
  cbn [all_space]. intros H. apply andb_true_iff in H as [Ha Hr].
  specialize (IH Hr). rewrite split_nl_cons.
  destruct (Ascii.eqb a Str.LF); [constructor; [reflexivity|exact IH]|].
  destruct (Str.split nl r) as [|h t]; [repeat constructor; cbn; now rewrite Ha|].
  inversion IH as [|? ? Hh Ht]; subst.
  constructor; [cbn [all_space]; now rewrite Ha, Hh|exact Ht].
Qed.

Lemma split_response_all_space (response : string) :
  all_space response = true -> split_response response = [].
Proof.
  intros H. unfold split_response.
  pose proof (all_space_lines response H) as F.
  induction F as [|l ls Hl _ IH]; [reflexivity|].
  cbn [map filter]. unfold Str.strip at 1. rewrite (all_space_lstrip l Hl).
  cbn [Str.rstrip String.eqb negb]. exact IH.
Qed.

(** X4. A response of white space only, the empty response included, gives
    the empty candidate: [translate_and_split_lines] returns no line at
    all, not a list with one empty line.  (A truncated response has to get
    into [log/long_text.txt] first.) *)
Theorem blank_response_gives_no_line (text : string) (w : world) (c : value)
  (response : string) (truncated : bool) :
  backend w (calls w) text = Returns c ->
  ChatGPTAPI.read_completion c = Ok (response, truncated) ->
  logs_truncated truncated w text ->
  all_space response = true ->
  ChatGPTAPI.translate_and_split_lines text w
  = (Ok [], after_call w truncated text).
Proof.
  intros Hb Hr Hl Hs. rewrite translate_and_split_lines_run.
  rewrite (translate_quiet text w _ _
             (get_translation_reads text w c _ truncated Hb Hr Hl)).
  now rewrite split_response_all_space.
Qed.

Lemma blank_response_gives_no_line_witness :
  ChatGPTAPI.translate_and_split_lines "request"
    (scripted [Returns (completion_of (" " ++ nl ++ cr ++ nl) "stop")]
              (Raises (APIError "down")))
  = (Ok [],
     after_call
       (scripted [Returns (completion_of (" " ++ nl ++ cr ++ nl) "stop")]
                 (Raises (APIError "down")))
       false "request").
Proof.
  refine (blank_response_gives_no_line "request"
            (scripted [Returns (completion_of (" " ++ nl ++ cr ++ nl) "stop")]
                      (Raises (APIError "down")))
            (completion_of (" " ++ nl ++ cr ++ nl) "stop")
            (" " ++ nl ++ cr ++ nl) false _ _ _ _); try reflexivity; quiet.
Defined.

(** ** One backend call and the three attempts *)

(** X5. An exception of the backend call always leaves [get_translation]
    as it came: the handler of lines 95 to 103 sees the empty dictionary,
    so its test on [choices] holds every time and nothing is swallowed,
    read or logged. *)
Theorem backend_exception_is_reraised (text : string) (w : world) (e : exn) :
  backend w (calls w) text = Raises e ->
  ChatGPTAPI.get_translation text w = (Exn e, after_failure w)
  /\ long_text_log (after_failure w) = long_text_log w
  /\ buglog (after_failure w) = buglog w
  /\ slept (after_failure w) = slept w.
Proof.
  intros H. split; [now apply get_translation_raises|]. now repeat split.
Qed.

Lemma backend_exception_is_reraised_witness :
  ChatGPTAPI.get_translation "request"
    (scripted [] (Raises (APIError "rate limit")))
  = (Exn (APIError "rate limit"),
     after_failure (scripted [] (Raises (APIError "rate limit")))).
Proof.
  apply (backend_exception_is_reraised "request"
           (scripted [] (Raises (APIError "rate limit")))
           (APIError "rate limit")).
  reflexivity.
Defined.

Lemma get_translation_world (text : string) (w : world) :
  snd (ChatGPTAPI.get_translation text w) = after_failure w
  \/ (exists t truncated,
        ChatGPTAPI.get_translation text w = (Ok t, after_call w truncated text)).
Proof.
  destruct (backend w (calls w) text) as [c|e] eqn:Hb.
  - rewrite (get_translation_returns text w c Hb).
    destruct (ChatGPTAPI.read_completion c) as [[t truncated]|e];
      [|now left].
    destruct truncated; [|right; now exists t, false].
    destruct (rich_raises w (ChatGPTAPI.long_text_record text));
      [now left|right; now exists t, true].
  - rewrite (get_translation_raises text w e Hb). now left.
Qed.

Lemma get_translation_rich (text : string) (w : world) :
  rich_error (snd (ChatGPTAPI.get_translation text w)) = rich_error w.
Proof.
  destruct (get_translation_world text w) as [H|(t & truncated & H)];
    rewrite H; reflexivity.
Qed.

Lemma get_translation_effects (text : string) (w : world) :
  calls (snd (ChatGPTAPI.get_translation text w)) = S (calls w)
  /\ rotations (snd (ChatGPTAPI.get_translation text w)) = S (rotations w)
  /\ slept (snd (ChatGPTAPI.get_translation text w)) = slept w
  /\ buglog (snd (ChatGPTAPI.get_translation text w)) = buglog w
  /\ backend (snd (ChatGPTAPI.get_translation text w)) = backend w
  /\ key_len (snd (ChatGPTAPI.get_translation text w)) = key_len w
  /\ (long_text_log (snd (ChatGPTAPI.get_translation text w))
      = long_text_log w
      \/ (long_text_log (snd (ChatGPTAPI.get_translation text w))
          = (long_text_log w ++ [ChatGPTAPI.long_text_record text])%list
          /\ exists t, fst (ChatGPTAPI.get_translation text w) = Ok t)).
Proof.
  destruct (get_translation_world text w) as [H|(t & truncated & H)];
    rewrite H; cbn [snd fst after_failure after_call calls rotations slept
                    buglog backend key_len long_text_log].
  - repeat split; auto.
  - repeat split; auto. destruct truncated; [right|left]; eauto.
Qed.

(** X6. Whatever the backend does, one call of [get_translation] is one key
    rotation and one backend call; it never sleeps and never writes to
    [log/buglog.txt]; [log/long_text.txt] grows by at most one record, and
    only when a text is returned. *)
Theorem get_translation_frame (text : string) (w : world) :
  calls (snd (ChatGPTAPI.get_translation text w)) = S (calls w)
  /\ rotations (snd (ChatGPTAPI.get_translation text w)) = S (rotations w)
  /\ slept (snd (ChatGPTAPI.get_translation text w)) = slept w
  /\ buglog (snd (ChatGPTAPI.get_translation text w)) = buglog w
  /\ backend (snd (ChatGPTAPI.get_translation text w)) = backend w
  /\ key_len (snd (ChatGPTAPI.get_translation text w)) = key_len w
  /\ (long_text_log (snd (ChatGPTAPI.get_translation text w))
      = long_text_log w
      \/ (long_text_log (snd (ChatGPTAPI.get_translation text w))
          = (long_text_log w ++ [ChatGPTAPI.long_text_record text])%list
          /\ exists t, fst (ChatGPTAPI.get_translation text w) = Ok t)).
Proof. exact (get_translation_effects text w). Qed.

(** X7. The first choice of a completion is read field by field.  Without
    a [message] the call raises [AttributeError]; a [content] that is
    [None] raises [AttributeError]; and without a [finish_reason] the call
    raises [KeyError] although the text was there: these three leave both
    logs as they were.  A message without [content] counts as the empty
    text, and that empty text is logged as a truncated one when the finish
    reason is [length], once rich has taken the record. *)
Theorem first_choice_edge_cases (text : string) (w : world)
  (d choice : list (string * value)) (others : list value) :
  backend w (calls w) text = Returns (VDict d) ->
  lookup "choices" d = Some (VList (VDict choice :: others)) ->
  (lookup "message" choice = None ->
   ChatGPTAPI.get_translation text w = (Exn AttributeError, after_failure w))
  /\ (forall message finish_reason,
        lookup "message" choice = Some (VDict message) ->
        lookup "content" message = None ->
        lookup "finish_reason" choice = Some (VStr finish_reason) ->
        logs_truncated (finish_reason =? "length") w text ->
        ChatGPTAPI.get_translation text w
        = (Ok EmptyString, after_call w (finish_reason =? "length") text)
        /\ long_text_log (after_call w (finish_reason =? "length") text)
           = (if finish_reason =? "length"
              then long_text_log w ++ [ChatGPTAPI.long_text_record text]
              else long_text_log w)%list)
  /\ (forall message,
        lookup "message" choice = Some (VDict message) ->
        lookup "content" message = Some VNone ->
        ChatGPTAPI.get_translation text w
        = (Exn AttributeError, after_failure w))
  /\ (forall message content,
        lookup "message" choice = Some (VDict message) ->
        lookup "content" message = Some (VStr content) ->
        lookup "finish_reason" choice = None ->
        ChatGPTAPI.get_translation text w = (Exn KeyError, after_failure w))
  /\ long_text_log (after_failure w) = long_text_log w
  /\ buglog (after_failure w) = buglog w.
Proof.
  intros Hb Hc. rewrite (get_translation_returns text w (VDict d) Hb).
  unfold ChatGPTAPI.read_completion, getitem, get, and_then.
  rewrite Hc. cbn [getitem0].
  split; [|split; [|split; [|split; [|split; reflexivity]]]].
  - intros ->. reflexivity.
  - intros message finish_reason -> -> -> Hl. split; [|reflexivity].
    cbn [encode_decode eq_str].
    destruct (finish_reason =? "length"); [|reflexivity].
    now rewrite (Hl eq_refl).
  - intros message -> ->. reflexivity.
  - intros message content -> -> ->. reflexivity.
Qed.

Lemma first_choice_edge_cases_witness :
  ChatGPTAPI.get_translation "request"
    (scripted [Returns (VDict [("choices",
                                VList [VDict [("message",
                                               VDict [("content", VStr "texte")])]])])]
              (Raises (APIError "down")))
  = (Exn KeyError,
     after_failure
       (scripted [Returns (VDict [("choices",
                                   VList [VDict [("message",
                                                  VDict [("content", VStr "texte")])]])])]
                 (Raises (APIError "down")))).
Proof.
  refine (proj1 (proj2 (proj2 (proj2 (first_choice_edge_cases "request"
            (scripted [Returns (VDict [("choices",
                                        VList [VDict [("message",
                                                       VDict [("content", VStr "texte")])]])])]
                      (Raises (APIError "down")))
            [("choices", VList [VDict [("message",
                                        VDict [("content", VStr "texte")])]])]
            [("message", VDict [("content", VStr "texte")])] [] _ _))))
          [("content", VStr "texte")] "texte" _ _ _); reflexivity.
Defined.

Lemma get_translation_keeps (text : string) (w : world) :
  ChatGPTAPI.sleep_time (snd (ChatGPTAPI.get_translation text w))
  = ChatGPTAPI.sleep_time w.
Proof.
  destruct (get_translation_world text w) as [H|(t & truncated & H)];
    rewrite H; reflexivity.
Qed.

(** The loop of [translate]: one to three backend calls. *)
Lemma loop_attempts (text : string) (w : world) :
  exists k : nat,
    1 <= k <= 3
    /\ calls (snd (ChatGPTAPI.translate_loop ChatGPTAPI.max_attempts 0 text
                     EmptyString w)) = calls w + k
    /\ rotations (snd (ChatGPTAPI.translate_loop ChatGPTAPI.max_attempts 0 text
                         EmptyString w))
       = rotations w + k
    /\ buglog (snd (ChatGPTAPI.translate_loop ChatGPTAPI.max_attempts 0 text
                      EmptyString w)) = buglog w
    /\ backend (snd (ChatGPTAPI.translate_loop ChatGPTAPI.max_attempts 0 text
                       EmptyString w)) = backend w
    /\ key_len (snd (ChatGPTAPI.translate_loop ChatGPTAPI.max_attempts 0 text
                       EmptyString w)) = key_len w
    /\ slept (snd (ChatGPTAPI.translate_loop ChatGPTAPI.max_attempts 0 text
                     EmptyString w))
       = (slept w
          ++ repeat (ChatGPTAPI.sleep_time w)
               (match fst (ChatGPTAPI.translate_loop ChatGPTAPI.max_attempts 0
                             text EmptyString w) with
                | Ok _ => k - 1
                | Exn _ => 3
                end))%list
    /\ (forall e, fst (ChatGPTAPI.translate_loop ChatGPTAPI.max_attempts 0 text
                         EmptyString w) = Exn e -> k = 3).
Proof.
  pose proof (get_translation_effects text w) as F1.
  pose proof (get_translation_keeps text w) as K1.
  destruct (ChatGPTAPI.get_translation text w) as [[t|e1] w1] eqn:E1;
    cbn [fst snd] in F1, K1.
  - rewrite (loop_first_try text w w1 t E1). cbn [fst snd].
    exists 1. destruct F1 as (Hc & Hr & Hs & Hl & Hb & Hk & _).
    repeat split; try lia; auto; try (intros ? He; discriminate He).
    cbn [Nat.sub repeat]. now rewrite app_nil_r.
  - rewrite (loop_after_failure text w w1 e1 E1). rewrite K1.
    set (w1' := after_sleep (ChatGPTAPI.sleep_time w) w1).
    pose proof (get_translation_effects text w1') as F2.
    pose proof (get_translation_keeps text w1') as K2.
    destruct (ChatGPTAPI.get_translation text w1') as [[t|e2] w2] eqn:E2;
      cbn [fst snd] in F2, K2.
    + cbn [fst snd]. exists 2.
      destruct F1 as (Hc & Hr & Hs & Hl & Hb & Hk & _).
      destruct F2 as (Hc2 & Hr2 & Hs2 & Hl2 & Hb2 & Hk2 & _).
      subst w1'. cbn [after_sleep calls rotations slept buglog backend key_len]
        in *.
      repeat split; try lia; try congruence;
        try (intros ? He; discriminate He);
        try (cbn [Nat.sub repeat]; now rewrite Hs2, Hs).
    + change (ChatGPTAPI.sleep_time w1') with (ChatGPTAPI.sleep_time w1) in K2.
      rewrite K1 in K2. rewrite K2.
      set (w2' := after_sleep (ChatGPTAPI.sleep_time w) w2).
      pose proof (get_translation_effects text w2') as F3.
      pose proof (get_translation_keeps text w2') as K3.
      change (ChatGPTAPI.sleep_time w2') with (ChatGPTAPI.sleep_time w2) in K3.
      rewrite K2 in K3.
      destruct F1 as (Hc & Hr & Hs & Hl & Hb & Hk & _).
      destruct F2 as (Hc2 & Hr2 & Hs2 & Hl2 & Hb2 & Hk2 & _).
      destruct F3 as (Hc3 & Hr3 & Hs3 & Hl3 & Hb3 & Hk3 & _).
      destruct (ChatGPTAPI.get_translation text w2') as [[t|e3] w3] eqn:E3;
        cbn [fst snd] in *; exists 3; subst w1' w2';
        cbn [after_sleep calls rotations slept buglog backend key_len] in *.
      * repeat split; try lia; try congruence;
          try (intros ? He; discriminate He);
          try (cbn [Nat.sub repeat]; rewrite Hs3, Hs2, Hs, <- !app_assoc;
               reflexivity).
      * rewrite K3.
        repeat split; try lia; try congruence;
          try (cbn [repeat]; rewrite Hs3, Hs2, Hs, <- !app_assoc;
               reflexivity).
Qed.


(** X8. When [translate] is asked to print and rich refuses the text, it
    raises before any backend call and nothing has changed.  Otherwise it
    asks the backend at least once and at most three times, with one key
    rotation for every call, and it never writes to [log/buglog.txt].  When
    it returns a text it has slept once for every attempt that failed
    before.  When it raises it has either slept three times after three
    failed attempts, or rich has refused the print of the result and the
    sleeps are those of the attempts that failed before; without printing
    only the first is possible. *)
Theorem translate_attempts (text : string) (needprint : bool) (w : world) :
  (forall e,
      needprint = true -> rich_raises w (ChatGPTAPI.shown text) = Some e ->
      ChatGPTAPI.translate text needprint w = (Exn e, w))
  /\ (shows_text needprint w text ->
      exists k s : nat,
        1 <= k <= 3
        /\ calls (snd (ChatGPTAPI.translate text needprint w)) = calls w + k
        /\ rotations (snd (ChatGPTAPI.translate text needprint w))
           = rotations w + k
        /\ buglog (snd (ChatGPTAPI.translate text needprint w)) = buglog w
        /\ backend (snd (ChatGPTAPI.translate text needprint w)) = backend w
        /\ key_len (snd (ChatGPTAPI.translate text needprint w)) = key_len w
        /\ slept (snd (ChatGPTAPI.translate text needprint w))
           = (slept w ++ repeat (ChatGPTAPI.sleep_time w) s)%list
        /\ (s = k - 1 \/ (s = 3 /\ k = 3))
        /\ (forall t,
              fst (ChatGPTAPI.translate text needprint w) = Ok t -> s = k - 1)
        /\ (needprint = false ->
            forall e,
              fst (ChatGPTAPI.translate text needprint w) = Exn e ->
              k = 3 /\ s = 3)).
Proof.
  split.
  - intros e -> He. rewrite translate_of_loop. now rewrite He.
  - intros Hs. rewrite translate_of_loop.
    destruct (loop_attempts text w)
      as (k & Hk & Hc & Hr & Hl & Hb & Hkl & Hsl & He).
    destruct (ChatGPTAPI.translate_loop ChatGPTAPI.max_attempts 0 text
                EmptyString w) as [[t|e] w'] eqn:El; cbn [fst snd] in *.
    + exists k, (k - 1).
      assert (Hw : snd (if needprint
                        then match rich_raises w (ChatGPTAPI.shown text) with
                             | Some e => (Exn e, w)
                             | None =>
                                 match rich_raises w'
                                         (ChatGPTAPI.shown_result t) with
                                 | Some e => (Exn e, w')
                                 | None => (Ok t, w')
                                 end
                             end
                        else (Ok t, w')) = w').
      { destruct needprint; [|reflexivity]. rewrite (Hs eq_refl).
        now destruct (rich_raises w' (ChatGPTAPI.shown_result t)). }
      rewrite Hw.
      split; [exact Hk|]. split; [exact Hc|]. split; [exact Hr|].
      split; [exact Hl|]. split; [exact Hb|]. split; [exact Hkl|].
      split; [exact Hsl|]. split; [now left|]. split; [reflexivity|].
      intros ->. intros e H. discriminate H.
    + exists k, 3. specialize (He e eq_refl).
      assert (Hw : (if needprint
                    then match rich_raises w (ChatGPTAPI.shown text) with
                         | Some e0 => (Exn e0, w)
                         | None => (Exn e, w')
                         end
                    else (Exn e, w')) = (@Exn string e, w')).
      { destruct needprint; [|reflexivity]. now rewrite (Hs eq_refl). }
      rewrite Hw. cbn [fst snd].
      split; [exact Hk|]. split; [exact Hc|]. split; [exact Hr|].
      split; [exact Hl|]. split; [exact Hb|]. split; [exact Hkl|].
      split; [exact Hsl|]. split; [now right|].
      split; [intros t H; discriminate H|]. intros _ e0 _. now split.
Qed.

Lemma translate_attempts_witness :
  exists k s : nat,
    1 <= k <= 3
    /\ calls (snd (ChatGPTAPI.translate "hello" true
                     (scripted [Raises (APIError "timeout"); reply ["bonjour"]]
                               (Raises (APIError "down")))))
       = 0 + k
    /\ slept (snd (ChatGPTAPI.translate "hello" true
                     (scripted [Raises (APIError "timeout"); reply ["bonjour"]]
                               (Raises (APIError "down")))))
       = ([] ++ repeat 60%Z s)%list
    /\ s = k - 1.
Proof.
  destruct (proj2 (translate_attempts "hello" true
                     (scripted [Raises (APIError "timeout"); reply ["bonjour"]]
                               (Raises (APIError "down")))))
    as (k & s & Hk & Hc & _ & _ & _ & _ & Hs & _ & Ht & _).
  - intros _. reflexivity.
  - exists k, s. split; [exact Hk|]. split; [exact Hc|]. split; [exact Hs|].
    apply (Ht "bonjour"). reflexivity.
Defined.

(** X23. A translation can be lost to the print of the result.  When
    [translate] is asked to print, the backend has answered and rich
    refuses the result between its two tags, [translate] raises after the
    backend call instead of returning the text; nothing catches this, so
    no further attempt is made. *)
Theorem result_print_can_raise (text : string) (w w' : world) (t : string)
  (e : exn) :
  ChatGPTAPI.get_translation text w = (Ok t, w') ->
  shows_text true w text ->
  rich_raises w' (ChatGPTAPI.shown_result t) = Some e ->
  ChatGPTAPI.translate text true w = (Exn e, w')
  /\ ChatGPTAPI.translate text false w = (Ok t, w')
  /\ calls w' = S (calls w)
  /\ slept w' = slept w.
Proof.
  intros Hg Hs He.
  split; [|split; [now apply translate_quiet|]].
  - rewrite translate_of_loop, (Hs eq_refl), (loop_first_try text w w' t Hg).
    now rewrite He.
  - pose proof (get_translation_effects text w) as (Hc & _ & Hsl & _).
    rewrite Hg in Hc, Hsl. now split.
Qed.

Lemma result_print_can_raise_witness :
  ChatGPTAPI.translate "hello" true
    (with_rich (refuses "[/b]")
       (scripted [reply ["bonjour [/b]"]] (Raises (APIError "down"))))
  = (Exn MarkupError,
     after_call
       (with_rich (refuses "[/b]")
          (scripted [reply ["bonjour [/b]"]] (Raises (APIError "down"))))
       false "hello").
Proof.
  refine (proj1 (result_print_can_raise "hello"
            (with_rich (refuses "[/b]")
               (scripted [reply ["bonjour [/b]"]] (Raises (APIError "down"))))
            _ "bonjour [/b]" MarkupError _ _ _)).
  - reflexivity.
  - intros _. reflexivity.
  - reflexivity.
Defined.

Lemma translate_raises3 (text : string) (needprint : bool) (w : world)
  (e1 e2 e3 : exn) :
  backend w (calls w) text = Raises e1 ->
  backend w (S (calls w)) text = Raises e2 ->
  backend w (S (S (calls w))) text = Raises e3 ->
  shows_text needprint w text ->
  ChatGPTAPI.translate text needprint w =
  (Exn e3,
   after_sleep (ChatGPTAPI.sleep_time w) (after_failure
     (after_sleep (ChatGPTAPI.sleep_time w) (after_failure
        (after_sleep (ChatGPTAPI.sleep_time w) (after_failure w)))))).
Proof.
  intros H1 H2 H3 Hs.
  pose proof (get_translation_raises text w e1 H1) as G1.
  pose proof (get_translation_raises text
                (after_sleep (ChatGPTAPI.sleep_time w) (after_failure w))
                e2 H2) as G2.
  apply translate_exn; [|exact Hs].
  rewrite (loop_after_failure text w (after_failure w) e1 G1).
  rewrite sleep_time_after_failure, G2.
  rewrite sleep_time_after_failure, sleep_time_after_sleep,
    sleep_time_after_failure.
  rewrite (get_translation_raises text
             (after_sleep (ChatGPTAPI.sleep_time w) (after_failure
                (after_sleep (ChatGPTAPI.sleep_time w) (after_failure w))))
             e3 H3).
  rewrite sleep_time_after_failure, sleep_time_after_sleep,
    sleep_time_after_failure, sleep_time_after_sleep,
    sleep_time_after_failure.
  reflexivity.
Qed.

(** X9. The exception that leaves [translate] is the one of the third
    attempt; those of the first two attempts are dropped.  And two failed
    attempts do not matter when the third succeeds: its text is returned
    after two sleeps.  (The prints of [translate], when it is asked to
    print, and the log of a truncated completion have to get through
    rich.) *)
Theorem translate_third_attempt (text : string) (needprint : bool) (w : world)
  (e1 e2 : exn) :
  backend w (calls w) text = Raises e1 ->
  backend w (S (calls w)) text = Raises e2 ->
  shows_text needprint w text ->
  (forall e3,
      backend w (S (S (calls w))) text = Raises e3 ->
      ChatGPTAPI.translate text needprint w =
      (Exn e3,
       after_sleep (ChatGPTAPI.sleep_time w) (after_failure
         (after_sleep (ChatGPTAPI.sleep_time w) (after_failure
            (after_sleep (ChatGPTAPI.sleep_time w) (after_failure w)))))))
  /\ (forall c t truncated,
        backend w (S (S (calls w))) text = Returns c ->
        ChatGPTAPI.read_completion c = Ok (t, truncated) ->
        logs_truncated truncated w text -> shows_result needprint w t ->
        ChatGPTAPI.translate text needprint w =
        (Ok t,
         after_call
           (after_sleep (ChatGPTAPI.sleep_time w) (after_failure
              (after_sleep (ChatGPTAPI.sleep_time w) (after_failure w))))
           truncated text)).
Proof.
  intros H1 H2 Hs.
  pose proof (get_translation_raises text w e1 H1) as G1.
  pose proof (get_translation_raises text
                (after_sleep (ChatGPTAPI.sleep_time w) (after_failure w))
                e2 H2) as G2.
  split.
  - intros e3 H3. now apply translate_raises3 with (e1 := e1) (e2 := e2).
  - intros c t truncated H3 Hr Hl Hp.
    apply translate_ok; [|exact Hs|exact Hp].
    rewrite (loop_after_failure text w (after_failure w) e1 G1).
    rewrite sleep_time_after_failure, G2.
    rewrite sleep_time_after_failure, sleep_time_after_sleep,
      sleep_time_after_failure.
    now rewrite (get_translation_reads text
                   (after_sleep (ChatGPTAPI.sleep_time w) (after_failure
                      (after_sleep (ChatGPTAPI.sleep_time w) (after_failure w))))
                   c t truncated H3 Hr Hl).
Qed.

Lemma translate_third_attempt_witness :
  ChatGPTAPI.translate "request" false
    (scripted [Raises (APIError "timeout"); Raises (APIError "rate limit")]
              (Raises (APIError "down")))
  = (Exn (APIError "down"),
     after_sleep 60 (after_failure
       (after_sleep 60 (after_failure
          (after_sleep 60 (after_failure
             (scripted [Raises (APIError "timeout");
                        Raises (APIError "rate limit")]
                       (Raises (APIError "down"))))))))).
Proof.
  refine (proj1 (translate_third_attempt "request" false
            (scripted [Raises (APIError "timeout"); Raises (APIError "rate limit")]
                      (Raises (APIError "down")))
            (APIError "timeout") (APIError "rate limit") _ _ _)
          (APIError "down") _); try reflexivity; quiet.
Defined.

(** ** More on the retry loop *)

Lemma replaces_bounds (plist_len : nat) (best cn : list string) :
  let best' :=
    if ChatGPTAPI.replaces plist_len best cn then cn else best in
  (List.length best <= plist_len ->
   List.length best <= List.length best' <= plist_len)
  /\ (plist_len <= List.length best ->
      List.length best' <= List.length best).
Proof.
  cbv zeta. destruct (ChatGPTAPI.replaces plist_len best cn) eqn:E; [|lia].
  apply replaces_spec in E. lia.
Qed.

Lemma turns_bounds (plist_len : nat) (new_str : string) (sleep_dur : Z)
  (n : nat) :
  forall (rl best rl' best' : list string) (rc rc' : nat) (w w' : world),
    turns n plist_len new_str sleep_dur (rl, best, rc) w
    = (Ok (rl', best', rc'), w') ->
    (List.length best <= plist_len ->
     List.length best <= List.length best' <= plist_len)
    /\ (plist_len <= List.length best ->
        List.length best' <= List.length best).
Proof.
  induction n as [|m IH]; intros rl best rl' best' rc rc' w w' H.
  - cbn in H. injection H as <- <- <- <-. lia.
  - cbn [turns] in H.
    destruct (negb (List.length rl =? plist_len)%nat).
    + unfold bind in H. rewrite retry_once_run in H.
      destruct (ChatGPTAPI.translate_and_split_lines new_str
                  (after_sleep sleep_dur w)) as [[cn|e] w1]; [|discriminate].
      apply IH in H. pose proof (replaces_bounds plist_len best cn) as B.
      cbv zeta in B. lia.
    + injection H as <- <- <- <-. lia.
Qed.

(** X10. Over a whole run of [get_best_result_list]: when the first
    candidate is not longer than expected, the result is at least as long
    and still not longer than expected, so it is at least as close to the
    expected length; when the first candidate is not shorter than
    expected, the result is not longer than the first candidate. *)
Theorem result_against_first_candidate (plist_len : nat) (new_str : string)
  (sleep_dur : Z) (c0 : list string) (max_retries : nat) (w w' : world)
  (best : list string) (retry_count : nat) :
  ChatGPTAPI.get_best_result_list plist_len new_str sleep_dur c0 max_retries w
  = (Ok (best, retry_count), w') ->
  (List.length c0 <= plist_len ->
   List.length c0 <= List.length best <= plist_len
   /\ distance plist_len best <= distance plist_len c0)
  /\ (plist_len <= List.length c0 -> List.length best <= List.length c0)
  /\ retry_count <= max_retries.
Proof.
  rewrite get_best_result_list_turns.
  destruct (List.length c0 =? plist_len)%nat.
  - intros H. injection H as <- <- <-. unfold distance. lia.
  - destruct (turns max_retries plist_len new_str sleep_dur (c0, c0, 0) w)
      as [[[[rl' b] rc]|e] w1] eqn:Ht; [|discriminate].
    intros H. injection H as <- <- <-.
    pose proof (turns_bounds _ _ _ _ _ _ _ _ _ _ _ _ Ht) as [B1 B2].
    pose proof (turns_count _ _ _ _ _ _ _ _ _ _ _ _ Ht) as (C1 & _ & _).
    unfold distance. lia.
Qed.

Lemma result_against_first_candidate_witness :
  (List.length (sample 3) <= 5 ->
   List.length (sample 3) <= List.length (sample 4) <= 5
   /\ distance 5 (sample 4) <= distance 5 (sample 3))
  /\ (5 <= List.length (sample 3) ->
      List.length (sample 4) <= List.length (sample 3))
  /\ 2 <= 2.
Proof.
  refine (result_against_first_candidate 5 "request" 6 (sample 3) 2
            (scripted [reply (sample 4); reply (sample 2)]
                      (Raises (APIError "down")))
            _ (sample 4) 2 _).
  vm_compute. reflexivity.
Defined.

Lemma translate_and_split_lines_answer (text : string) (w : world) :
  responsive w ->
  exists cn truncated,
    ChatGPTAPI.translate_and_split_lines text w
    = (Ok cn, after_call w truncated text).
Proof.
  intros H.
  destruct (H (calls w) text (le_n _)) as (c & t & tr & Hb & Hr & Hl).
  rewrite translate_and_split_lines_run,
    (translate_quiet text w _ _ (get_translation_reads text w c t tr Hb Hr Hl)).
  now exists (split_response t), tr.
Qed.

Lemma turns_cost (plist_len : nat) (new_str : string) (sleep_dur : Z)
  (n : nat) :
  forall (rl best : list string) (rc : nat) (w : world),
    responsive w ->
    exists rl' best' rc' w',
      turns n plist_len new_str sleep_dur (rl, best, rc) w
      = (Ok (rl', best', rc'), w')
      /\ rc <= rc'
      /\ slept w' = (slept w ++ repeat sleep_dur (rc' - rc))%list
      /\ calls w' = calls w + (rc' - rc)
      /\ rotations w' = rotations w + (rc' - rc)
      /\ buglog w' = buglog w.
Proof.
  induction n as [|m IH]; intros rl best rc w H.
  - exists rl, best, rc, w. rewrite Nat.sub_diag, app_nil_r.
    repeat split; auto.
  - cbn [turns]. destruct (negb (List.length rl =? plist_len)%nat).
    + unfold bind. rewrite retry_once_run.
      assert (Hs : responsive (after_sleep sleep_dur w))
        by (apply (responsive_later w); [exact H|reflexivity|reflexivity|cbn; lia]).
      destruct (translate_and_split_lines_answer new_str _ Hs)
        as (cn & tr & ->).
      set (w1 := after_call (after_sleep sleep_dur w) tr new_str).
      assert (H1 : responsive w1)
        by (apply (responsive_later w); [exact H|reflexivity|reflexivity|cbn; lia]).
      destruct (IH cn
                   (if ChatGPTAPI.replaces plist_len best cn then cn else best)
                   (rc + 1) w1 H1)
        as (rl' & best' & rc' & w' & -> & Hle & Hsl & Hca & Hro & Hlog).
      exists rl', best', rc', w'. split; [reflexivity|].
      subst w1.
      cbn [after_call after_sleep slept calls rotations buglog] in *.
      replace (rc' - rc) with (S (rc' - (rc + 1))) by lia.
      cbn [repeat]. rewrite Hsl, <- app_assoc.
      repeat split; auto; lia.
    + exists rl, best, rc, w. rewrite Nat.sub_diag, app_nil_r.
      repeat split; auto.
Qed.

(** X11. With a backend that answers, every retry of
    [get_best_result_list] costs one sleep of [sleep_dur], one backend call
    and one key rotation, and nothing else: the loop never writes to
    [log/buglog.txt]. *)
Theorem retry_cost (plist_len : nat) (new_str : string) (sleep_dur : Z)
  (c0 : list string) (max_retries : nat) (w : world) :
  responsive w ->
  exists best retry_count w',
    ChatGPTAPI.get_best_result_list plist_len new_str sleep_dur c0 max_retries w
    = (Ok (best, retry_count), w')
    /\ slept w' = (slept w ++ repeat sleep_dur retry_count)%list
    /\ calls w' = calls w + retry_count
    /\ rotations w' = rotations w + retry_count
    /\ buglog w' = buglog w.
Proof.
  intros H. rewrite get_best_result_list_turns.
  destruct (List.length c0 =? plist_len)%nat.
  - exists c0, 0, w. cbn [repeat]. rewrite app_nil_r, !Nat.add_0_r.
    repeat split; auto.
  - destruct (turns_cost plist_len new_str sleep_dur max_retries c0 c0 0 w H)
      as (rl' & best & rc & w' & -> & _ & Hsl & Hca & Hro & Hlog).
    rewrite Nat.sub_0_r in *. exists best, rc, w'. repeat split; auto.
Qed.

Lemma retry_cost_witness :
  exists best retry_count w',
    ChatGPTAPI.get_best_result_list 2 "request" 6 ["un"] 15
      (scripted [] (reply ["un deux"]))
    = (Ok (best, retry_count), w')
    /\ slept w'
       = (slept (scripted [] (reply ["un deux"])) ++ repeat 6%Z retry_count)%list
    /\ calls w' = calls (scripted [] (reply ["un deux"])) + retry_count
    /\ rotations w' = rotations (scripted [] (reply ["un deux"])) + retry_count
    /\ buglog w' = buglog (scripted [] (reply ["un deux"])).
Proof.
  exact (retry_cost 2 "request" 6 ["un"] 15 (scripted [] (reply ["un deux"]))
           (steady_responsive ["un deux"])).
Defined.

(** X12. The loop of [get_best_result_list] does not catch what
    [translate] raises: when the first candidate has the wrong length and
    the backend fails three times in a row, the call raises the third
    exception and the candidate it had is lost. *)
Theorem retry_failure_propagates (plist_len : nat) (new_str : string)
  (sleep_dur : Z) (c0 : list string) (max_retries : nat) (w : world)
  (e1 e2 e3 : exn) :
  List.length c0 <> plist_len -> 0 < max_retries ->
  backend w (calls w) new_str = Raises e1 ->
  backend w (S (calls w)) new_str = Raises e2 ->
  backend w (S (S (calls w))) new_str = Raises e3 ->
  ChatGPTAPI.get_best_result_list plist_len new_str sleep_dur c0 max_retries w
  = (Exn e3,
     after_sleep (ChatGPTAPI.sleep_time w) (after_failure
       (after_sleep (ChatGPTAPI.sleep_time w) (after_failure
          (after_sleep (ChatGPTAPI.sleep_time w) (after_failure
             (after_sleep sleep_dur w))))))).
Proof.
  intros Hne Hmax H1 H2 H3. rewrite get_best_result_list_turns.
  destruct (Nat.eqb_spec (List.length c0) plist_len) as [|_]; [contradiction|].
  destruct max_retries as [|m]; [lia|]. cbn [turns].
  destruct (Nat.eqb_spec (List.length c0) plist_len) as [|_]; [contradiction|].
  cbn [negb]. unfold bind. rewrite retry_once_run.
  rewrite translate_and_split_lines_run.
  rewrite (translate_raises3 new_str false (after_sleep sleep_dur w)
             e1 e2 e3 H1 H2 H3) by quiet.
  reflexivity.
Qed.

Lemma retry_failure_propagates_witness :
  ChatGPTAPI.get_best_result_list 2 "request" 6 ["un deux"] 15
    (scripted [] (Raises (APIError "down")))
  = (Exn (APIError "down"),
     after_sleep 60 (after_failure
       (after_sleep 60 (after_failure
          (after_sleep 60 (after_failure
             (after_sleep 6 (scripted [] (Raises (APIError "down")))))))))).
Proof.
  refine (retry_failure_propagates 2 "request" 6 ["un deux"] 15
            (scripted [] (Raises (APIError "down")))
            (APIError "down") (APIError "down") (APIError "down") _ _ _ _ _);
    try reflexivity.
  - simpl. lia.
  - lia.
Defined.

(** ** The log of a mismatch *)

Lemma mismatch_rows_length (newlist result_list : list string) (n : nat) :
  forall a : nat,
    List.length
      (flat_map
         (fun i =>
            ([Printed (nth i newlist EmptyString); Printed EmptyString]
             ++ (if (i <? List.length result_list)%nat
                 then [Printed dots; Printed (nth i result_list EmptyString);
                       Printed EmptyString]
                 else [])
             ++ [Printed rule])%list)
         (seq a n))
    = 3 * n + 3 * (Nat.min (a + n) (List.length result_list)
                   - Nat.min a (List.length result_list)).
Proof.
  induction n as [|m IH]; intros a.
  - cbn [seq flat_map List.length]. lia.
  - cbn [seq flat_map]. rewrite length_app, IH.
    destruct (Nat.ltb_spec a (List.length result_list));
      cbn [List.length app]; lia.
Qed.

(** X13. [log_translation_mismatch] does nothing when the lengths agree.
    Otherwise its record is the line with the problem size and one block
    for every segment of the request: three lines, and three more, the
    translated line among them, for as many segments as there are
    translated lines.  There is at least one segment, and translated
    lines beyond the number of segments are not in the record.  The record
    is written whole when rich lets all of its lines through; else it is
    written up to the first line that rich refuses, and the exception of
    rich leaves the function. *)
Theorem mismatch_record_size (plist_len : nat) (result_list : list string)
  (new_str sep : string) (w : world) :
  (List.length result_list = plist_len ->
   log_translation_mismatch plist_len result_list new_str sep w = (Ok tt, w))
  /\ (List.length result_list <> plist_len ->
      (printable w (mismatch_record plist_len result_list new_str sep) ->
       log_translation_mismatch plist_len result_list new_str sep w
       = (Ok tt,
          after_log (mismatch_record plist_len result_list new_str sep) w))
      /\ (forall (written rest : list log_entry) (x : log_entry) (e : exn),
            mismatch_record plist_len result_list new_str sep
            = (written ++ x :: rest)%list ->
            printable w written ->
            rich_raises w (entry_text x) = Some e ->
            log_translation_mismatch plist_len result_list new_str sep w
            = (Exn e, after_log written w))
      /\ List.length (mismatch_record plist_len result_list new_str sep)
         = 1 + 3 * List.length (Str.split sep new_str)
           + 3 * Nat.min (List.length (Str.split sep new_str))
                         (List.length result_list)
      /\ 4 <= List.length (mismatch_record plist_len result_list new_str sep)
      /\ hd (Printed EmptyString)
            (mismatch_record plist_len result_list new_str sep)
         = Printed ("problem size: "
                    ++ Str.of_Z (Z.of_nat plist_len
                                 - Z.of_nat (List.length result_list)))).
Proof.
  unfold log_translation_mismatch.
  destruct (Nat.eqb_spec (List.length result_list) plist_len) as [Heq|Hne].
  - split; [reflexivity|contradiction].
  - split; [contradiction|]. intros _.
    split; [apply append_buglog_ok|].
    split; [intros written rest x e ->; apply append_buglog_raises|].
    unfold mismatch_record. cbn [List.length hd].
    rewrite mismatch_rows_length. cbn [Nat.add Nat.min].
    pose proof (split_go_not_nil sep new_str 0) as Hn. unfold Str.split.
    destruct (Str.split_go sep 0 new_str) as [|x xs]; [congruence|].
    cbn [List.length]. repeat split; lia.
Qed.

Lemma mismatch_record_size_witness :
  log_translation_mismatch 2 ["Bonjour [/b] le monde"]
    ("(1) Hello" ++ sep ++ "(2) World") sep
    (with_rich (refuses "[/b]") (scripted [] (Raises (APIError "down"))))
  = (Exn MarkupError,
     after_log [Printed "problem size: 1"; Printed "(1) Hello";
                Printed EmptyString; Printed dots]
       (with_rich (refuses "[/b]") (scripted [] (Raises (APIError "down")))))
  /\ List.length (mismatch_record 2 ["Bonjour [/b] le monde"]
                    ("(1) Hello" ++ sep ++ "(2) World") sep)
     = 1 + 3 * 2 + 3 * Nat.min 2 1.
Proof.
  destruct (proj2 (mismatch_record_size 2 ["Bonjour [/b] le monde"]
                     ("(1) Hello" ++ sep ++ "(2) World") sep
                     (with_rich (refuses "[/b]")
                        (scripted [] (Raises (APIError "down"))))))
    as (_ & Hcut & Hlen & _).
  - simpl. lia.
  - split; [|exact Hlen].
    apply (Hcut _ [Printed EmptyString; Printed rule; Printed "(2) World";
                   Printed EmptyString; Printed rule]
                (Printed "Bonjour [/b] le monde")).
    + reflexivity.
    + repeat constructor.
    + reflexivity.
Defined.

(** ** [translate_list] as a whole *)

Lemma translate_list_exact (plist : list Soup.node) (w w1 : world)
  (c0 : list string) :
  ChatGPTAPI.translate_and_split_lines (build_request plist) w = (Ok c0, w1) ->
  List.length c0 = List.length plist ->
  translate_list plist w = (Ok (map Re.sub_enum c0), w1).
Proof.
  intros Ht Hlen.
  unfold translate_list. unfold bind at 1. rewrite Ht.
  unfold bind at 1, ChatGPTAPI.get_best_result_list.
  apply Nat.eqb_eq in Hlen. rewrite Hlen. unfold ret at 1.
  rewrite Hlen. cbn [negb].
  unfold bind at 1. unfold ChatGPTAPI.log_retry. cbn [Nat.eqb].
  unfold ret at 1. unfold bind at 1, log_translation_mismatch.
  rewrite Hlen. reflexivity.
Qed.

(** X14. When the first candidate has as many lines as there are
    paragraphs, [translate_list] is done after that one call of
    [translate_and_split_lines]: no retry, no sleep, nothing written to
    [log/buglog.txt], and the result has one line for every paragraph. *)
Theorem translate_list_first_try (plist : list Soup.node) (w w1 : world)
  (c0 : list string) :
  ChatGPTAPI.translate_and_split_lines (build_request plist) w = (Ok c0, w1) ->
  List.length c0 = List.length plist ->
  translate_list plist w = (Ok (map Re.sub_enum c0), w1)
  /\ List.length (map Re.sub_enum c0) = List.length plist.
Proof.
  intros Ht Hlen. split; [now apply translate_list_exact|].
  now rewrite length_map.
Qed.

Lemma translate_list_first_try_witness :
  translate_list [Soup.Tag "p" [Soup.NavigableString "Hello"]]
                 (scripted [reply ["(1) Bonjour"]] (Raises (APIError "down")))
  = (Ok (map Re.sub_enum ["(1) Bonjour"]),
     after_call (scripted [reply ["(1) Bonjour"]] (Raises (APIError "down")))
                false
                (build_request [Soup.Tag "p" [Soup.NavigableString "Hello"]])).
Proof.
  refine (proj1 (translate_list_first_try
                   [Soup.Tag "p" [Soup.NavigableString "Hello"]]
                   (scripted [reply ["(1) Bonjour"]] (Raises (APIError "down")))
                   _ ["(1) Bonjour"] _ _)); reflexivity.
Defined.

(** ** [join_lines] paragraph by paragraph *)

Lemma take_run_app_blank (la : list string) (x : string) (rest : list string) :
  blank x = true -> take_run (la ++ x :: rest)%list = take_run la.
Proof.
  intros Hx. induction la as [|l la' IH]; cbn [app take_run].
  - now rewrite Hx.
  - destruct (blank l); [reflexivity|now rewrite IH].
Qed.

Lemma drop_run_app_blank (la : list string) (x : string) (rest : list string) :
  blank x = true ->
  drop_run (la ++ x :: rest)%list = (drop_run la ++ x :: rest)%list.
Proof.
  intros Hx. induction la as [|l la' IH]; cbn [app drop_run].
  - now rewrite Hx.
  - destruct (blank l); [reflexivity|exact IH].
Qed.

Lemma drop_run_length (lines : list string) :
  List.length (drop_run lines) <= List.length lines.
Proof.
  induction lines as [|l rest IH]; cbn [drop_run List.length]; [lia|].
  destruct (blank l); cbn [List.length]; lia.
Qed.

Lemma collapse_runs_cons (l : string) (rest : list string) :
  collapse_runs (l :: rest) =
  if blank l then l :: collapse_runs rest
  else Str.join " " (map Str.strip (l :: take_run rest))
       :: collapse_runs (drop_run rest).
Proof. simp collapse_runs. now destruct (blank l). Qed.

Lemma collapse_runs_not_nil (lines : list string) :
  lines <> [] -> collapse_runs lines <> [].
Proof.
  destruct lines as [|l rest]; [congruence|]. intros _.
  rewrite collapse_runs_cons. destruct (blank l); discriminate.
Qed.

(** A blank line ends the run before it: the lines before and after are
    normalized apart. *)
Lemma collapse_runs_app_blank (x : string) (rest : list string) :
  blank x = true ->
  forall (n : nat) (la : list string),
    List.length la <= n ->
    collapse_runs (la ++ x :: rest)%list
    = (collapse_runs la ++ x :: collapse_runs rest)%list.
Proof.
  intros Hx. induction n as [|m IH]; intros la Hlen.
  - destruct la; [|cbn in Hlen; lia]. cbn [app].
    rewrite collapse_runs_cons, Hx. reflexivity.
  - destruct la as [|l la']; cbn [app].
    + rewrite collapse_runs_cons, Hx. reflexivity.
    + cbn [List.length] in Hlen. rewrite !collapse_runs_cons.
      destruct (blank l).
      * rewrite IH by lia. reflexivity.
      * rewrite take_run_app_blank, drop_run_app_blank by exact Hx.
        rewrite IH by (pose proof (drop_run_length la'); lia). reflexivity.
Qed.

Lemma split_nl_sep (a b : string) :
  Str.split nl (a ++ sep ++ b)
  = (Str.split nl a
     ++ EmptyString :: EmptyString :: EmptyString :: EmptyString
        :: Str.split nl b)%list.
Proof.
  change (a ++ sep ++ b)
    with (a ++ nl ++ (EmptyString ++ nl ++ (EmptyString ++ nl
            ++ (EmptyString ++ nl ++ (EmptyString ++ nl ++ b))))).
  rewrite !split_nl_app. reflexivity.
Qed.

Lemma join_app (sp : string) (xs ys : list string) :
  xs <> [] -> ys <> [] ->
  Str.join sp (xs ++ ys)%list = Str.join sp xs ++ sp ++ Str.join sp ys.
Proof.
  intros Hx Hy. induction xs as [|x xs' IH]; [congruence|].
  destruct xs' as [|x' xs''].
  - destruct ys as [|y ys']; [congruence|]. reflexivity.
  - cbn [app] in *. rewrite !join_cons2, IH by discriminate.
    now rewrite !append_assoc.
Qed.

Lemma join_stage_sep (a b : string) :
  join_stage (a ++ sep ++ b) = join_stage a ++ sep ++ join_stage b.
Proof.
  rewrite !join_stage_collapse, split_nl_sep.
  assert (Hb : blank EmptyString = true) by reflexivity.
  rewrite (collapse_runs_app_blank EmptyString _ Hb _ _ (le_n _)).
  rewrite !(collapse_runs_cons EmptyString), Hb.
  pose proof (collapse_runs_not_nil (Str.split nl a)
                (split_go_not_nil nl a 0)) as Ha.
  pose proof (collapse_runs_not_nil (Str.split nl b)
                (split_go_not_nil nl b 0)) as Hb'.
  rewrite join_app by (assumption || discriminate).
  destruct (collapse_runs (Str.split nl b)) as [|y ys]; [congruence|].
  reflexivity.
Qed.

Lemma prefix_ctrlM (c : ascii) (r : string) :
  prefix "^M" (String c r) = true ->
  c = "^"%char /\ exists r', r = String "M" r'.
Proof.
  intros H. apply prefix_correct in H. cbn [String.length substring] in H.
  destruct r as [|m r']; [discriminate|].
  cbn [substring] in H. injection H as -> ->. split; [reflexivity|].
  now exists r'.
Qed.

Lemma replace_ctrlM_hit (r : string) :
  Str.replace "^M" cr (String "^" (String "M" r))
  = cr ++ Str.replace "^M" cr r.
Proof.
  unfold Str.replace.
  change (Str.replace_go "^M" cr 0 (String "^" (String "M" r)))
    with (if prefix EmptyString r
          then cr ++ Str.replace_go "^M" cr 0 r
          else String "^" (Str.replace_go "^M" cr 0 (String "M" r))).
  now rewrite prefix_empty.
Qed.

Lemma replace_ctrlM_miss (c : ascii) (r : string) :
  prefix "^M" (String c r) = false ->
  Str.replace "^M" cr (String c r) = String c (Str.replace "^M" cr r).
Proof.
  intros H. unfold Str.replace. cbn [Str.replace_go]. now rewrite H.
Qed.

(** No occurrence of [^M] reaches over a newline. *)
Lemma replace_ctrlM_nl (b : string) :
  forall (n : nat) (a : string),
    String.length a <= n ->
    Str.replace "^M" cr (a ++ nl ++ b)
    = Str.replace "^M" cr a ++ nl ++ Str.replace "^M" cr b.
Proof.
  induction n as [|m IH]; intros a Hlen.
  - destruct a; [|cbn in Hlen; lia].
    change (EmptyString ++ nl ++ b) with (String Str.LF b).
    now rewrite replace_ctrlM_miss.
  - destruct a as [|c r].
    + change (EmptyString ++ nl ++ b) with (String Str.LF b).
      now rewrite replace_ctrlM_miss.
    + cbn [String.length] in Hlen.
      change (String c r ++ nl ++ b) with (String c (r ++ nl ++ b)).
      destruct (prefix "^M" (String c r)) eqn:E.
      * apply prefix_ctrlM in E as [-> [r' ->]].
        change (String "M" r' ++ nl ++ b) with (String "M" (r' ++ nl ++ b)).
        rewrite !replace_ctrlM_hit, IH by (cbn in Hlen; lia).
        now rewrite append_assoc.
      * assert (E' : prefix "^M" (String c (r ++ nl ++ b)) = false).
        { destruct (prefix "^M" (String c (r ++ nl ++ b))) eqn:P;
            [|reflexivity].
          apply prefix_ctrlM in P as [-> [r' P]].
          destruct r as [|m0 r0].
          - cbn in P. discriminate P.
          - cbn [append] in P. injection P as -> _.
            cbn in E. rewrite prefix_empty in E. discriminate E. }
        rewrite (replace_ctrlM_miss _ _ E), (replace_ctrlM_miss _ _ E').
        rewrite IH by lia. reflexivity.
Qed.

Lemma replace_ctrlM_sep (a b : string) :
  Str.replace "^M" cr (a ++ sep ++ b)
  = Str.replace "^M" cr a ++ sep ++ Str.replace "^M" cr b.
Proof.
  change (a ++ sep ++ b)
    with (a ++ nl ++ (EmptyString ++ nl ++ (EmptyString ++ nl
            ++ (EmptyString ++ nl ++ (EmptyString ++ nl ++ b))))).
  rewrite !(fun x y => replace_ctrlM_nl x _ y (le_n _)). reflexivity.
Qed.

Lemma join_lines_sep (a b : string) :
  join_lines (a ++ sep ++ b) = join_lines a ++ sep ++ join_lines b.
Proof.
  rewrite !join_lines_drop_filter. unfold join_lines_unfiltered.
  now rewrite join_stage_sep, replace_ctrlM_sep.
Qed.

Lemma join_lines_join_sep (pieces : list string) :
  join_lines (Str.join sep pieces) = Str.join sep (map join_lines pieces).
Proof.
  induction pieces as [|x xs IH]; [reflexivity|].
  destruct xs as [|y ys]; [reflexivity|].
  cbn [map] in *. rewrite !join_cons2, join_lines_sep, IH.
  reflexivity.
Qed.

(** X15. [join_lines] treats the two sides of a separator apart: the five
    newlines stay as they are, no run of lines reaches over them, and no
    [^M] either.  So the request of [translate_list] is its numbered
    pieces, each one normalized on its own, joined by the separator. *)
Theorem join_lines_keeps_separator :
  (forall a b : string,
      join_lines (a ++ sep ++ b) = join_lines a ++ sep ++ join_lines b)
  /\ (forall pieces : list string,
        join_lines (Str.join sep pieces)
        = Str.join sep (map join_lines pieces))
  /\ (forall plist : list Soup.node,
        build_request plist
        = Str.join sep (map join_lines (numbered_pieces plist))).
Proof.
  split; [exact join_lines_sep|]. split; [exact join_lines_join_sep|].
  intros plist. unfold build_request.
  now rewrite pack_is_join, join_lines_join_sep.
Qed.

Lemma has_char_join (c : ascii) (sp : string) (ls : list string) :
  has_char c sp = false -> Forall (fun l => has_char c l = false) ls ->
  has_char c (Str.join sp ls) = false.
Proof.
  intros Hsp H. induction H as [|x xs Hx Hxs IH]; [reflexivity|].
  destruct xs as [|y ys]; [exact Hx|].
  rewrite join_cons2, !has_char_app, Hx, Hsp, IH. reflexivity.
Qed.

Lemma Forall_take_run (P : string -> Prop) (ls : list string) :
  Forall P ls -> Forall P (take_run ls).
Proof.
  induction 1 as [|x xs Hx Hxs IH]; cbn [take_run]; [constructor|].
  destruct (blank x); [constructor|now constructor].
Qed.

Lemma Forall_drop_run (P : string -> Prop) (ls : list string) :
  Forall P ls -> Forall P (drop_run ls).
Proof.
  induction 1 as [|x xs Hx Hxs IH]; cbn [drop_run]; [constructor|].
  destruct (blank x); [now constructor|exact IH].
Qed.

Lemma collapse_runs_no_lf :
  forall (n : nat) (ls : list string),
    List.length ls <= n ->
    Forall (fun l => has_char Str.LF l = false) ls ->
    Forall (fun l => has_char Str.LF l = false) (collapse_runs ls)
    /\ List.length (collapse_runs ls) <= List.length ls.
Proof.
  induction n as [|m IH]; intros ls Hlen H.
  - destruct ls; [|cbn in Hlen; lia]. simp collapse_runs. split; [constructor|lia].
  - destruct ls as [|l rest]; [simp collapse_runs; split; [constructor|cbn; lia]|].
    cbn [List.length] in Hlen. inversion H as [|? ? Hl Hrest]; subst.
    rewrite collapse_runs_cons. destruct (blank l).
    + destruct (IH rest ltac:(lia) Hrest) as [F L].
      split; [now constructor|cbn [List.length]; lia].
    + pose proof (drop_run_length rest) as D.
      destruct (IH (drop_run rest) ltac:(lia) (Forall_drop_run _ rest Hrest))
        as [F L].
      split; [|cbn [List.length]; lia].
      constructor; [|exact F].
      apply has_char_join; [reflexivity|].
      cbn [map]. constructor; [now apply has_char_strip|].
      apply Forall_map. eapply Forall_impl; [|apply Forall_take_run, Hrest].
      intros x Hx. now apply has_char_strip.
Qed.

Lemma has_lf_replace :
  forall (n : nat) (s : string),
    String.length s <= n ->
    has_char Str.LF s = false ->
    has_char Str.LF (Str.replace "^M" cr s) = false.
Proof.
  induction n as [|m IH]; intros s Hlen H.
  - destruct s; [reflexivity|cbn in Hlen; lia].
  - destruct s as [|c r]; [reflexivity|].
    cbn [String.length] in Hlen. cbn [has_char] in H.
    apply orb_false_iff in H as [Hc Hr].
    destruct (prefix "^M" (String c r)) eqn:E.
    + apply prefix_ctrlM in E as [-> [r' ->]].
      rewrite replace_ctrlM_hit. cbn [has_char] in Hr.
      apply orb_false_iff in Hr as [_ Hr'].
      change (cr ++ ?x) with (String Str.CR x). cbn [has_char].
      rewrite IH by (cbn in Hlen; lia || assumption). reflexivity.
    + rewrite (replace_ctrlM_miss _ _ E). cbn [has_char].
      rewrite Hc, IH by (lia || assumption). reflexivity.
Qed.

Lemma replace_join_nl (ls : list string) :
  Str.replace "^M" cr (Str.join nl ls)
  = Str.join nl (map (Str.replace "^M" cr) ls).
Proof.
  induction ls as [|x xs IH]; [reflexivity|].
  destruct xs as [|y ys]; [reflexivity|].
  cbn [map] in *. rewrite !join_cons2, (replace_ctrlM_nl _ _ _ (le_n _)), IH.
  reflexivity.
Qed.

Lemma join_lines_single_line (text : string) :
  has_char Str.LF text = false ->
  join_lines text
  = Str.replace "^M" cr (if blank text then text else Str.strip text).
Proof.
  intros Hlf. rewrite join_lines_drop_filter. unfold join_lines_unfiltered.
  rewrite join_stage_collapse, (split_nl_whole text Hlf), collapse_runs_cons.
  simp collapse_runs. now destruct (blank text).
Qed.

(** X16. The lines of what [join_lines] returns are the normalized lines of
    its input, each with its [^M] replaced: the function never adds a
    line, and a text without a newline stays without one. *)
Theorem join_lines_lines (text : string) :
  Str.split nl (join_lines text)
  = map (Str.replace "^M" cr) (collapse_runs (Str.split nl text))
  /\ List.length (Str.split nl (join_lines text))
     <= List.length (Str.split nl text)
  /\ (has_char Str.LF text = false ->
      has_char Str.LF (join_lines text) = false
      /\ join_lines text
         = Str.replace "^M" cr (if blank text then text else Str.strip text)).
Proof.
  pose proof (collapse_runs_no_lf _ (Str.split nl text) (le_n _)
                (split_nl_lines text)) as [F L].
  assert (E : Str.split nl (join_lines text)
              = map (Str.replace "^M" cr) (collapse_runs (Str.split nl text))).
  { rewrite join_lines_drop_filter. unfold join_lines_unfiltered.
    rewrite join_stage_collapse, replace_join_nl.
    apply split_join_nl.
    - pose proof (collapse_runs_not_nil (Str.split nl text)
                    (split_go_not_nil nl text 0)) as Hne.
      destruct (collapse_runs (Str.split nl text)); [congruence|discriminate].
    - apply Forall_map. eapply Forall_impl; [|exact F].
      intros l Hl. now apply (has_lf_replace _ l (le_n _)). }
  split; [exact E|]. split; [now rewrite E, length_map|].
  intros Hlf.
  pose proof (join_lines_single_line text Hlf) as J.
  split; [|exact J]. rewrite J. apply (has_lf_replace _ _ (le_n _)).
  destruct (blank text); [exact Hlf|now apply has_char_strip].
Qed.

Lemma join_lines_lines_witness :
  has_char Str.LF (join_lines "  a^Mb ") = false
  /\ join_lines "  a^Mb "
     = Str.replace "^M" cr
         (if blank "  a^Mb " then "  a^Mb " else Str.strip "  a^Mb ").
Proof.
  apply (proj2 (proj2 (join_lines_lines "  a^Mb "))). reflexivity.
Defined.

(** ** More on the enumeration pattern *)

Lemma all_chars_app (f : ascii -> bool) (a b : string) :
  all_chars f (a ++ b) = all_chars f a && all_chars f b.
Proof.
  induction a as [|x a IH]; [reflexivity|].
  cbn [append all_chars]. now rewrite IH, andb_assoc.
Qed.

Lemma all_chars_weaken (f g : ascii -> bool) (s : string) :
  (forall c, f c = true -> g c = true) ->
  all_chars f s = true -> all_chars g s = true.
Proof.
  intros Hfg. induction s as [|a r IH]; [reflexivity|].
  cbn [all_chars]. intros H. apply andb_true_iff in H as [Ha Hr].
  now rewrite (Hfg a Ha), IH.
Qed.

Lemma lstrip_cut (s : string) :
  exists pre, s = pre ++ Str.lstrip s /\ all_chars Str.isspace pre = true.
Proof.
  induction s as [|a r (pre & E & H)]; [now exists EmptyString|].
  cbn [Str.lstrip]. destruct (Str.isspace a) eqn:Ea.
  - exists (String a pre). cbn [append all_chars]. now rewrite <- E, Ea, H.
  - now exists EmptyString.
Qed.

Lemma skip_digits_cut (s : string) :
  exists pre, s = pre ++ Re.skip_digits s /\ all_chars Str.isdigit pre = true.
Proof.
  induction s as [|a r (pre & E & H)]; [now exists EmptyString|].
  cbn [Re.skip_digits]. destruct (Str.isdigit a) eqn:Ea.
  - exists (String a pre). cbn [append all_chars]. now rewrite <- E, Ea, H.
  - now exists EmptyString.
Qed.

Lemma digits1_cut (s r : string) :
  Re.digits1 s = Some r ->
  exists pre, s = pre ++ r /\ all_chars marker_char pre = true.
Proof.
  destruct s as [|a t]; cbn [Re.digits1]; [discriminate|].
  destruct (Str.isdigit a) eqn:Ea; [|discriminate].
  intros H. injection H as <-.
  destruct (skip_digits_cut t) as (pre & E & Hp).
  exists (String a pre). cbn [append all_chars]. rewrite <- E. split; [reflexivity|].
  unfold marker_char at 1. rewrite Ea. cbn [orb andb].
  apply (all_chars_weaken Str.isdigit); [|exact Hp].
  intros c Hc. unfold marker_char. now rewrite Hc.
Qed.

Lemma lit_cut (c : ascii) (s r : string) :
  Re.lit c s = Some r -> s = String c r.
Proof.
  destruct s as [|a t]; cbn [Re.lit]; [discriminate|].
  destruct (Ascii.eqb_spec a c) as [->|]; [|discriminate].
  intros H. now injection H as <-.
Qed.

Lemma enum_marker_cut (s r : string) :
  Re.enum_marker s = Some r ->
  exists pre, s = pre ++ r /\ all_chars marker_char pre = true.
Proof.
  unfold Re.enum_marker, Re.alt_paren, Re.alt_dot, Re.alt_bare, Re.or_else,
    Re.and_then.
  assert (Hdot : forall r',
             match Re.digits1 s with
             | Some r0 => Re.lit "." r0
             | None => None
             end = Some r' ->
             exists pre, s = pre ++ r' /\ all_chars marker_char pre = true).
  { intros r'. destruct (Re.digits1 s) as [r4|] eqn:E4; [|discriminate].
    intros E5. apply lit_cut in E5. subst r4.
    destruct (digits1_cut s _ E4) as (pre & E & Hp).
    exists (pre ++ "."). rewrite append_assoc. split; [exact E|].
    rewrite all_chars_app, Hp. reflexivity. }
  assert (Hrest :
            match
              match Re.digits1 s with
              | Some r0 => Re.lit "." r0
              | None => None
              end
            with
            | Some r0 => Some r0
            | None => Re.digits1 s
            end = Some r ->
            exists pre, s = pre ++ r /\ all_chars marker_char pre = true).
  { destruct (match Re.digits1 s with
              | Some r0 => Re.lit "." r0
              | None => None
              end) as [r5|] eqn:E5.
    - intros H. injection H as <-. now apply Hdot.
    - apply digits1_cut. }
  destruct (Re.lit "(" s) as [r1|] eqn:E1; [|exact Hrest].
  destruct (Re.digits1 r1) as [r2|] eqn:E2; [|exact Hrest].
  destruct (Re.lit ")" r2) as [r3|] eqn:E3; [|exact Hrest].
  intros H. injection H as <-.
  apply lit_cut in E1, E3. subst s r2.
  destruct (digits1_cut r1 _ E2) as (pre & E & Hp).
  exists (String "(" (pre ++ ")")). cbn [append]. rewrite append_assoc.
  split; [now rewrite E at 1|].
  cbn [all_chars]. rewrite all_chars_app, Hp. reflexivity.
Qed.

(** X17. The substitution of line 308 only cuts at the front, and what it
    cuts is made of digits, parentheses, a period and white space: the
    result is the end of the line as it was, and no other character is
    ever removed. *)
Theorem sub_enum_cuts_a_marker (s : string) :
  exists cut : string,
    s = cut ++ Re.sub_enum s
    /\ all_chars marker_char cut = true
    /\ String.length (Re.sub_enum s) <= String.length s.
Proof.
  assert (H : exists cut, s = cut ++ Re.sub_enum s
                          /\ all_chars marker_char cut = true).
  { unfold Re.sub_enum. destruct (Re.enum_marker s) as [r|] eqn:E.
    - destruct (enum_marker_cut s r E) as (pre & Es & Hp).
      destruct (lstrip_cut r) as (sp & Er & Hs).
      exists (pre ++ sp). rewrite append_assoc, <- Er. split; [exact Es|].
      rewrite all_chars_app, Hp.
      apply (all_chars_weaken Str.isspace); [|exact Hs].
      intros c Hc. unfold marker_char. rewrite Hc.
      now destruct (Str.isdigit c).
    - now exists EmptyString. }
  destruct H as (cut & E & Hc). exists cut. split; [exact E|].
  split; [exact Hc|].
  rewrite E at 2. rewrite append_length. lia.
Qed.

Lemma little_succ_not_nil (d : Decimal.uint) :
  Decimal.Little.succ d <> Decimal.Nil.
Proof. destruct d; discriminate. Qed.

Lemma to_little_uint_not_nil (n : nat) :
  forall acc, acc <> Decimal.Nil -> Nat.to_little_uint n acc <> Decimal.Nil.
Proof.
  induction n as [|m IH]; intros acc H; [exact H|].
  cbn [Nat.to_little_uint]. apply IH, little_succ_not_nil.
Qed.

Lemma revapp_not_nil (d : Decimal.uint) :
  forall d', d' <> Decimal.Nil -> Decimal.revapp d d' <> Decimal.Nil.
Proof.
  induction d; intros d' H; cbn [Decimal.revapp]; try exact H;
    apply IHd; discriminate.
Qed.

Lemma to_uint_not_nil (n : nat) : Nat.to_uint n <> Decimal.Nil.
Proof.
  unfold Nat.to_uint, Decimal.rev.
  pose proof (to_little_uint_not_nil n Decimal.zero ltac:(discriminate)) as H.
  destruct (Nat.to_little_uint n Decimal.zero) eqn:E; [congruence| ..];
    cbn [Decimal.revapp]; apply revapp_not_nil; discriminate.
Qed.

Lemma skip_digits_uint (u : Decimal.uint) (x : string) :
  Re.skip_digits (NilEmpty.string_of_uint u ++ x) = Re.skip_digits x.
Proof. induction u; cbn [NilEmpty.string_of_uint append]; auto. Qed.

(** A number in decimal begins with a digit and is made of digits. *)
Lemma of_nat_shape (n : nat) :
  exists c r,
    Str.of_nat n = String c r /\ Str.isdigit c = true
    /\ forall x, Re.skip_digits (r ++ x) = Re.skip_digits x.
Proof.
  unfold Str.of_nat. pose proof (to_uint_not_nil n) as H.
  destruct (Nat.to_uint n) as [|u|u|u|u|u|u|u|u|u|u]; [congruence| ..];
    cbn [NilEmpty.string_of_uint];
    eexists _, _; (split; [reflexivity|]); (split; [reflexivity|]);
    intros x; apply skip_digits_uint.
Qed.

Lemma digits1_of_nat (n : nat) (x : string) :
  Re.digits1 (Str.of_nat n ++ x) = Some (Re.skip_digits x).
Proof.
  destruct (of_nat_shape n) as (c & r & -> & Hc & Hr).
  cbn [append Re.digits1]. now rewrite Hc, Hr.
Qed.

Lemma lit_of_nat (n : nat) (x : string) :
  Re.lit "(" (Str.of_nat n ++ x) = None.
Proof.
  destruct (of_nat_shape n) as (c & r & -> & Hc & _).
  cbn [append Re.lit].
  destruct (Ascii.eqb_spec c "("%char) as [->|]; [discriminate Hc|reflexivity].
Qed.

Lemma sub_enum_paren (n : nat) (rest : string) :
  Re.sub_enum ("(" ++ Str.of_nat n ++ ")" ++ rest) = Str.lstrip rest.
Proof.
  unfold Re.sub_enum, Re.enum_marker, Re.alt_paren.
  change (Re.lit "(" ("(" ++ Str.of_nat n ++ ")" ++ rest))
    with (Some (Str.of_nat n ++ ")" ++ rest)).
  cbn [Re.and_then]. rewrite digits1_of_nat. reflexivity.
Qed.

(** X18. The markers that [translate_list] puts in front of the paragraphs
    are taken off again, whatever the number: a line that begins with the
    number in parentheses, with the number and a period, or with the bare
    number and a space is returned without it and without the white space
    that follows. *)
Theorem sub_enum_takes_marker (n : nat) (text : string) :
  Re.sub_enum ("(" ++ Str.of_nat n ++ ") " ++ text) = Str.lstrip text
  /\ Re.sub_enum ("(" ++ Str.of_nat n ++ ")") = EmptyString
  /\ Re.sub_enum (Str.of_nat n ++ ". " ++ text) = Str.lstrip text
  /\ Re.sub_enum (Str.of_nat n ++ " " ++ text) = Str.lstrip text.
Proof.
  split; [|split; [|split]].
  - change (") " ++ text) with (")" ++ " " ++ text).
    rewrite sub_enum_paren. reflexivity.
  - rewrite <- (append_empty_r ("(" ++ Str.of_nat n ++ ")")).
    rewrite !append_assoc. apply sub_enum_paren.
  - unfold Re.sub_enum, Re.enum_marker, Re.alt_paren, Re.alt_dot, Re.and_then,
      Re.or_else.
    rewrite lit_of_nat, digits1_of_nat. reflexivity.
  - unfold Re.sub_enum, Re.enum_marker, Re.alt_paren, Re.alt_dot, Re.alt_bare,
      Re.and_then, Re.or_else.
    rewrite lit_of_nat, digits1_of_nat. reflexivity.
Qed.

(** ** Footnote marks *)

Lemma extract_all_fixed (name : string) :
  forall n : Soup.node,
    Soup.has_descendant name n = false -> Soup.extract_all name n = n.
Proof.
  fix IH 1. intros [s|t cs]; [reflexivity|].
  cbn [Soup.extract_all Soup.has_descendant]. intros H. f_equal.
  induction cs as [|c r IHr]; [reflexivity|].
  apply orb_false_iff in H as [H Hr]. apply orb_false_iff in H as [Ht Hc].
  rewrite Ht, (IH c Hc), (IHr Hr). reflexivity.
Qed.

Lemma extract_all_skips (name t : string) (c : Soup.node)
  (a b : list Soup.node) :
  Soup.is_tag name c = true ->
  Soup.extract_all name (Soup.Tag t (a ++ c :: b)%list)
  = Soup.extract_all name (Soup.Tag t (a ++ b)%list).
Proof.
  intros Hc. cbn [Soup.extract_all]. f_equal.
  induction a as [|x a' IH]; cbn [app].
  - now rewrite Hc.
  - destruct (Soup.is_tag name x); [exact IH|now rewrite IH].
Qed.

(** X19. The [sup] tags of a paragraph do not count for its text: a
    paragraph with a [sup] tag among its children is packed as the
    paragraph without it, whatever the tag holds.  A paragraph without any
    [sup] tag is left as it is, and taking the [sup] tags out a second time
    changes nothing. *)
Theorem sup_is_ignored :
  (forall (t : string) (a b footnote : list Soup.node),
      paragraph_text (Soup.Tag t (a ++ Soup.Tag "sup" footnote :: b)%list)
      = paragraph_text (Soup.Tag t (a ++ b)%list))
  /\ (forall p : Soup.node,
        Soup.has_descendant "sup" p = false ->
        Soup.extract_all "sup" p = p
        /\ paragraph_text p = Str.strip (Soup.get_text p))
  /\ (forall p : Soup.node,
        Soup.extract_all "sup" (Soup.extract_all "sup" p)
        = Soup.extract_all "sup" p).
Proof.
  split; [|split].
  - intros t a b footnote. unfold paragraph_text.
    now rewrite extract_all_skips.
  - intros p H. unfold paragraph_text.
    now rewrite (extract_all_fixed "sup" p H).
  - intros p. apply extract_all_fixed, extract_all_complete.
Qed.

Lemma sup_is_ignored_witness :
  Soup.extract_all "sup"
    (Soup.Tag "p" [Soup.NavigableString "a"; Soup.Tag "i" []])
  = Soup.Tag "p" [Soup.NavigableString "a"; Soup.Tag "i" []]
  /\ paragraph_text (Soup.Tag "p" [Soup.NavigableString "a"; Soup.Tag "i" []])
     = Str.strip
         (Soup.get_text
            (Soup.Tag "p" [Soup.NavigableString "a"; Soup.Tag "i" []])).
Proof.
  apply (proj1 (proj2 sup_is_ignored)). reflexivity.
Defined.

(** ** A backend that echoes the request *)

Lemma rstrip_app (a b : string) :
  Str.rstrip b <> EmptyString -> Str.rstrip (a ++ b) = a ++ Str.rstrip b.
Proof.
  intros Hb. induction a as [|c a' IH]; [reflexivity|].
  cbn [append Str.rstrip]. rewrite IH.
  destruct (a' ++ Str.rstrip b) as [|x y] eqn:E; [|reflexivity].
  destruct a'; cbn in E; [contradiction|discriminate].
Qed.

Lemma lstrip_strip (u : string) : Str.lstrip (Str.strip u) = Str.strip u.
Proof.
  unfold Str.strip. destruct (Str.lstrip u) as [|c r] eqn:E; [reflexivity|].
  apply lstrip_head in E. destruct (rstrip_keeps_head c r E) as [r' ->].
  now apply lstrip_no_space.
Qed.

Lemma replace_no_caret (s : string) :
  has_char "^" s = false -> Str.replace "^M" cr s = s.
Proof.
  induction s as [|c r IH]; [reflexivity|].
  cbn [has_char]. intros H. apply orb_false_iff in H as [Hc Hr].
  rewrite replace_ctrlM_miss, (IH Hr); [reflexivity|].
  destruct (prefix "^M" (String c r)) eqn:P; [|reflexivity].
  apply prefix_ctrlM in P as [-> _]. discriminate Hc.
Qed.

Lemma has_char_piece (c : ascii) (i : nat) (text : string) :
  Str.isdigit c = false -> Ascii.eqb "(" c = false ->
  Ascii.eqb ")" c = false -> Ascii.eqb " " c = false ->
  has_char c text = false ->
  has_char c ("(" ++ Str.of_nat i ++ ") " ++ text) = false.
Proof.
  intros Hd H1 H2 H3 Ht.
  rewrite !has_char_app, Ht. unfold Str.of_nat.
  rewrite (has_char_uint c _ Hd). cbn [has_char]. now rewrite H1, H2, H3.
Qed.

Lemma strip_piece_head (i : nat) (x : string) :
  exists r, Str.strip ("(" ++ Str.of_nat i ++ x) = String "(" r.
Proof.
  unfold Str.strip. change ("(" ++ Str.of_nat i ++ x)
    with (String "(" (Str.of_nat i ++ x)).
  rewrite lstrip_no_space by reflexivity.
  now apply rstrip_keeps_head.
Qed.

Lemma sub_enum_strip_piece (i : nat) (u : string) :
  Re.sub_enum (Str.strip ("(" ++ Str.of_nat i ++ ") " ++ Str.strip u))
  = Str.strip u.
Proof.
  unfold Str.strip at 1.
  change ("(" ++ Str.of_nat i ++ ") " ++ Str.strip u)
    with (String "(" (Str.of_nat i ++ ") " ++ Str.strip u)).
  rewrite lstrip_no_space by reflexivity.
  change (String "(" (Str.of_nat i ++ ") " ++ Str.strip u))
    with ("(" ++ Str.of_nat i ++ ") " ++ Str.strip u).
  destruct (Str.strip u) as [|c r] eqn:E.
  - change (") " ++ EmptyString) with ") ".
    rewrite <- append_assoc, rstrip_app by (cbv; discriminate).
    change (Str.rstrip ") ") with ")". rewrite append_assoc.
    change ("(" ++ Str.of_nat i ++ ")")
      with ("(" ++ Str.of_nat i ++ ")" ++ EmptyString).
    apply sub_enum_paren.
  - assert (Hr : Str.rstrip (String c r) = String c r).
    { rewrite <- E. unfold Str.strip. apply rstrip_idem. }
    rewrite <- !append_assoc, rstrip_app by (rewrite Hr; discriminate).
    rewrite Hr, !append_assoc.
    change (") " ++ String c r) with (")" ++ " " ++ String c r).
    rewrite sub_enum_paren.
    change (Str.lstrip (" " ++ String c r)) with (Str.lstrip (String c r)).
    rewrite <- E. apply lstrip_strip.
Qed.

Lemma piece_normal (i : nat) (text : string) :
  has_char Str.LF text = false -> has_char "^" text = false ->
  join_lines ("(" ++ Str.of_nat i ++ ") " ++ text)
  = Str.strip ("(" ++ Str.of_nat i ++ ") " ++ text)
  /\ clean_line (Str.strip ("(" ++ Str.of_nat i ++ ") " ++ text)).
Proof.
  intros Hlf Hc.
  assert (Plf : has_char Str.LF ("(" ++ Str.of_nat i ++ ") " ++ text) = false)
    by (apply has_char_piece; auto).
  assert (Pc : has_char "^" ("(" ++ Str.of_nat i ++ ") " ++ text) = false)
    by (apply has_char_piece; auto).
  destruct (strip_piece_head i (") " ++ text)) as [r Hr].
  split.
  - rewrite (join_lines_single_line _ Plf). unfold blank. rewrite Hr.
    cbn [Str.truthy negb]. rewrite <- Hr.
    apply replace_no_caret. now apply has_char_strip.
  - split; [now apply has_char_strip|]. split; [apply strip_idem|].
    rewrite Hr. discriminate.
Qed.

Lemma split_response_sep (a b : string) :
  split_response (a ++ sep ++ b)
  = (split_response a ++ split_response b)%list.
Proof.
  unfold split_response. rewrite split_nl_sep, map_app, filter_app.
  reflexivity.
Qed.

Lemma split_response_join_sep (ls : list string) :
  Forall clean_line ls -> split_response (Str.join sep ls) = ls.
Proof.
  induction 1 as [|x xs Hx Hxs IH]; [reflexivity|].
  assert (H1 : split_response x = [x]).
  { apply (split_response_join [x]). now constructor. }
  destruct xs as [|y ys]; [exact H1|].
  rewrite join_cons2, split_response_sep, H1, IH. reflexivity.
Qed.

Lemma echo_pieces (plist : list Soup.node) :
  Forall (fun p => has_char Str.LF (paragraph_text p) = false
                   /\ has_char "^" (paragraph_text p) = false) plist ->
  forall i : nat,
    let pieces :=
      map (fun ip => "(" ++ Str.of_nat (fst ip) ++ ") "
                     ++ paragraph_text (snd ip))
          (combine (seq i (List.length plist)) plist) in
    Forall clean_line (map join_lines pieces)
    /\ map Re.sub_enum (map join_lines pieces) = map paragraph_text plist
    /\ List.length (map join_lines pieces) = List.length plist.
Proof.
  induction 1 as [|p ps [Hlf Hc] Hps IH]; intros i; cbv zeta.
  - repeat split. constructor.
  - cbn [List.length seq combine map fst snd].
    destruct (IH (S i)) as (F & E & L). cbv zeta in F, E, L.
    destruct (piece_normal i (paragraph_text p) Hlf Hc) as [J C].
    rewrite J. split; [now constructor|]. split.
    + rewrite E. f_equal. unfold paragraph_text at 1. apply sub_enum_strip_piece.
    + cbn [List.length]. now rewrite L.
Qed.

(** X20. The round trip of a batch.  When no paragraph text holds a
    newline or a circumflex and the backend answers the request with the
    request itself, [translate_list] returns the texts of the paragraphs as
    they were packed, in order, after this one backend call: the markers
    put in by the packing are the ones taken off at the end, no retry is
    made and nothing is logged to [log/buglog.txt].  (An answer that is
    marked as truncated has to get into [log/long_text.txt] first.) *)
Theorem echo_round_trip_all (plist : list Soup.node) (w : world) (c : value)
  (truncated : bool) :
  Forall (fun p => has_char Str.LF (paragraph_text p) = false
                   /\ has_char "^" (paragraph_text p) = false) plist ->
  backend w (calls w) (build_request plist) = Returns c ->
  ChatGPTAPI.read_completion c = Ok (build_request plist, truncated) ->
  logs_truncated truncated w (build_request plist) ->
  translate_list plist w
  = (Ok (map paragraph_text plist),
     after_call w truncated (build_request plist)).
Proof.
  intros Hp Hb Hr Hl.
  destruct (echo_pieces plist Hp 1) as (F & E & L). cbv zeta in F, E, L.
  fold (numbered_pieces plist) in F, E, L.
  assert (Hreq : build_request plist
                 = Str.join sep (map join_lines (numbered_pieces plist))).
  { unfold build_request. now rewrite pack_is_join, join_lines_join_sep. }
  assert (Ht : ChatGPTAPI.translate_and_split_lines (build_request plist) w
               = (Ok (map join_lines (numbered_pieces plist)),
                  after_call w truncated (build_request plist))).
  { rewrite translate_and_split_lines_run.
    rewrite (translate_quiet _ w _ _
               (get_translation_reads _ w c _ truncated Hb Hr Hl)).
    rewrite Hreq at 1. now rewrite split_response_join_sep. }
  rewrite (translate_list_exact plist w _ _ Ht L). now rewrite E.
Qed.

Lemma echo_round_trip_all_witness :
  translate_list [Soup.Tag "p" [Soup.NavigableString " Hello "];
                  Soup.Tag "p" [Soup.NavigableString "4 sale";
                                Soup.Tag "sup" [Soup.NavigableString "1"]]]
    (mkWorld 2 (fun _ text => Returns (completion_of text "stop")) 0 0 [] [] []
             accepts_all)
  = (Ok (map paragraph_text
           [Soup.Tag "p" [Soup.NavigableString " Hello "];
            Soup.Tag "p" [Soup.NavigableString "4 sale";
                          Soup.Tag "sup" [Soup.NavigableString "1"]]]),
     after_call
       (mkWorld 2 (fun _ text => Returns (completion_of text "stop"))
                0 0 [] [] [] accepts_all)
       false
       (build_request
          [Soup.Tag "p" [Soup.NavigableString " Hello "];
           Soup.Tag "p" [Soup.NavigableString "4 sale";
                         Soup.Tag "sup" [Soup.NavigableString "1"]]])).
Proof.
  refine (echo_round_trip_all _ _
            (completion_of
               (build_request
                  [Soup.Tag "p" [Soup.NavigableString " Hello "];
                   Soup.Tag "p" [Soup.NavigableString "4 sale";
                                 Soup.Tag "sup" [Soup.NavigableString "1"]]])
               "stop")
            false _ _ _ _).
  - repeat constructor.
  - reflexivity.
  - reflexivity.
  - quiet.
Defined.
